(** * BBData: a path-addressed document with bindings and observers

    A shallow embedding of [src/BBData/BBData.js] (the second, complete
    revision in that file: the one that has [move], [delete], [notify],
    [unobserveAll] and [remove]) and the properties of its mutation and
    notification protocol.

    Conventions of the embedding.

    - A JavaScript value is a tree ([value]).  Objects and arrays carry a
      reference [ref] that stands for their identity, because [===] on
      composites compares identity.  The document is a tree: a write
      changes what is found under the path written and nowhere else, so
      a statement on what a write leaves alone assumes that no object is
      held under two paths ([no_sharing]).  Numbers are integers, plus
      [VNaN].
    - Objects and the two registries are association lists in insertion
      order, which is the order [for (k in o)] is taken to follow.
    - Property lookup is own-property lookup, in the document and in the
      two registries: the members every JavaScript object inherits
      ([constructor], [toString], [__proto__], ...) and the methods of
      strings, numbers and arrays are not modelled.  At such a name the
      code finds the inherited member, where the embedding finds nothing.
      The statements keep to the names and paths on which the two agree:
      [own_name] and [plain_path] exclude the inherited names,
      [reads_members] the reads of members of primitive values.
    - Arrays are dense and have no named properties.  A write that would
      leave a hole in an array or give it a named property, and a [splice]
      whose position is text that only the full string-to-number
      conversion can read, are outside the embedding: the operation
      yields [Unsupported].  Paths are ASCII text.
    - The code runs in sloppy mode (it relies on the implicit global [key]),
      so a write to a property of a primitive is silently ignored, while
      reading a property of [null] or [undefined] throws.
    - The DOM side of a binding update (attribute or property, boolean
      encoding, option lists, value transformers) is abstracted into the
      event [DomUpdate], which records which binding is updated from which
      document value.  What [domChange] reads from an element is a
      parameter of the embedding ([element_value]).
    - Observer callbacks are a parameter ([invoke]) of the engine: they may
      call back into it. *)

From Stdlib Require Import ZArith NArith List Bool Lia PeanoNat.
From Stdlib Require Import Strings.Ascii Strings.String Numbers.DecimalString.
Import ListNotations.

Open Scope string_scope.
Open Scope list_scope.

(* ================================================================== *)
(** ** The JavaScript fragment the code relies on *)
(* ================================================================== *)

Module JS.

Definition ref := nat.

#[warnings="-register-all"]
Inductive value : Type :=
| VUndefined
| VNull
| VBool (b : bool)
| VNum (n : Z)
| VNaN
| VStr (s : string)
| VObj (r : ref) (fields : list (string * value))
| VArr (r : ref) (elems : list value).

(** [typeof(x) === "object" && x !== null] *)
Definition isObject (potentionalObject : value) : bool :=
  match potentionalObject with
  | VObj _ _ | VArr _ _ => true
  | _ => false
  end.

(** [Array.isArray(x)] *)
Definition isArray (potentionalArray : value) : bool :=
  match potentionalArray with
  | VArr _ _ => true
  | _ => false
  end.

Definition is_undefined (v : value) : bool :=
  match v with VUndefined => true | _ => false end.

Definition is_nullish (v : value) : bool :=
  match v with VUndefined | VNull => true | _ => false end.

Definition is_primitive (v : value) : bool := negb (isObject v).

(** ToBoolean *)
Definition truthy (v : value) : bool :=
  match v with
  | VUndefined | VNull | VNaN => false
  | VBool b => b
  | VNum n => negb (n =? 0)%Z
  | VStr s => negb (s =? "")
  | VObj _ _ | VArr _ _ => true
  end.

(** [a === b]: primitives by type and value ([NaN] differs from itself),
    composites by identity. *)
Definition strict_eq (a b : value) : bool :=
  match a, b with
  | VUndefined, VUndefined => true
  | VNull, VNull => true
  | VBool x, VBool y => Bool.eqb x y
  | VNum x, VNum y => (x =? y)%Z
  | VStr x, VStr y => (x =? y)
  | VObj r _, VObj r' _ => Nat.eqb r r'
  | VArr r _, VArr r' _ => Nat.eqb r r'
  | _, _ => false
  end.

(** *** Strings *)

Definition dot : ascii := "."%char.

(** [s.split(".")]: never empty, [""] gives one empty segment. *)
Fixpoint split (s : string) : list string :=
  match s with
  | EmptyString => [""]
  | String c s' =>
      if Ascii.eqb c dot then "" :: split s'
      else match split s' with
           | [] => [String c ""]
           | h :: t => String c h :: t
           end
  end.

(** [parts.join(".")] *)
Definition join (parts : list string) : string := String.concat "." parts.

(** [s.indexOf(q)], [None] standing for [-1]. *)
Definition indexOf (s q : string) : option nat := String.index 0 q s.

Definition string_of_nat (n : nat) : string :=
  NilZero.string_of_uint (Nat.to_uint n).

Definition string_of_N (n : N) : string :=
  NilZero.string_of_uint (N.to_uint n).

Definition string_of_Z (z : Z) : string :=
  NilZero.string_of_int (Z.to_int z).

Definition digit_of (c : ascii) : option N :=
  let n := N_of_ascii c in
  if ((48 <=? n) && (n <=? 57))%N then Some (n - 48)%N else None.

(** The value of the longest prefix of decimal digits, [None] when the
    string does not start with a digit. *)
Fixpoint digits_prefix (s : string) (acc : option N) : option N :=
  match s with
  | EmptyString => acc
  | String c s' =>
      match digit_of c with
      | Some d =>
          digits_prefix s'
            (Some (10 * match acc with Some a => a | None => 0 end + d)%N)
      | None => acc
      end
  end.

Fixpoint all_digits (s : string) : bool :=
  match s with
  | EmptyString => true
  | String c s' =>
      match digit_of c with Some _ => all_digits s' | None => false end
  end.

Definition is_ws (c : ascii) : bool :=
  let n := N_of_ascii c in
  ((n =? 32) || ((9 <=? n) && (n <=? 13)))%N.

Fixpoint skip_ws (s : string) : string :=
  match s with
  | String c s' => if is_ws c then skip_ws s' else s
  | EmptyString => s
  end.

(** [parseInt(s, 10)] on ASCII text, [None] standing for [NaN]: leading
    white space, an optional sign, then the longest run of digits. *)
Definition parseInt (s : string) : option Z :=
  match skip_ws s with
  | String "-"%char r => option_map (fun n => (- Z.of_N n)%Z) (digits_prefix r None)
  | String "+"%char r => option_map Z.of_N (digits_prefix r None)
  | r => option_map Z.of_N (digits_prefix r None)
  end.

(** A property key is an array index when it is the canonical decimal
    form of an integer below [2^32 - 1]. *)
Definition array_index (k : string) : option N :=
  match digits_prefix k None with
  | Some n =>
      if (string_of_N n =? k) && (n <? 4294967295)%N then Some n else None
  | None => None
  end.

Definition is_ident_start (c : ascii) : bool :=
  let n := N_of_ascii c in
  (((65 <=? n) && (n <=? 90) && negb (n =? 73))
   || ((97 <=? n) && (n <=? 122)) || (n =? 95) || (n =? 36))%N.

(** ToIntegerOrInfinity of a string, as [splice] applies it to its first
    argument: the empty string and text that is no number ([NaN]) convert
    to 0, a signed run of digits to its value.  [None] marks text whose
    conversion is outside the embedding (white space, hexadecimal and
    exponent forms, [Infinity]). *)
Definition to_integer (s : string) : option Z :=
  match s with
  | EmptyString => Some 0%Z
  | String c r =>
      if is_ident_start c then Some 0%Z
      else if all_digits s then option_map Z.of_N (digits_prefix s None)
      else if (Ascii.eqb c "-"%char) && all_digits r && negb (r =? "")
      then option_map (fun n => (- Z.of_N n)%Z) (digits_prefix r None)
      else if (Ascii.eqb c "+"%char) && all_digits r && negb (r =? "")
      then option_map Z.of_N (digits_prefix r None)
      else None
  end.

(** *** Properties *)

(** A key is a string, or a number when the code has replaced the
    segment by a number ([cur = prev.length], [cur = 0]). *)
Inductive key : Type :=
| KStr (s : string)
| KNum (n : N).

Definition key_string (k : key) : string :=
  match k with KStr s => s | KNum n => string_of_N n end.

Definition key_index (k : key) : option N :=
  match k with KStr s => array_index s | KNum n => Some n end.

Fixpoint assoc {A : Type} (k : string) (l : list (string * A)) : option A :=
  match l with
  | [] => None
  | (k', a) :: l' => if k' =? k then Some a else assoc k l'
  end.

(** Replace the entry of [k], or add it at the end (insertion order). *)
Fixpoint assoc_set {A : Type} (k : string) (a : A) (l : list (string * A))
  : list (string * A) :=
  match l with
  | [] => [(k, a)]
  | (k', a') :: l' =>
      if k' =? k then (k, a) :: l' else (k', a') :: assoc_set k a l'
  end.

Definition assoc_remove {A : Type} (k : string) (l : list (string * A))
  : list (string * A) :=
  filter (fun e => negb (fst e =? k)) l.

Fixpoint string_nth (n : nat) (s : string) : option ascii :=
  match s, n with
  | EmptyString, _ => None
  | String c _, O => Some c
  | String _ s', S n' => string_nth n' s'
  end.

Definition undefined_if_none (o : option value) : value :=
  match o with Some v => v | None => VUndefined end.

(** [v[k]], for the members [v] has of its own; [None] is the TypeError
    of reading a property of [null] or [undefined]. *)
Definition prop_get (v : value) (k : key) : option value :=
  match v with
  | VUndefined | VNull => None
  | VObj _ fields => Some (undefined_if_none (assoc (key_string k) fields))
  | VArr _ elems =>
      match key_index k with
      | Some i =>
          Some (if (i <? N.of_nat (List.length elems))%N
                then undefined_if_none (nth_error elems (N.to_nat i))
                else VUndefined)
      | None =>
          Some (if key_string k =? "length"
                then VNum (Z.of_nat (List.length elems))
                else VUndefined)
      end
  | VStr s =>
      match key_index k with
      | Some i =>
          Some (if (i <? N.of_nat (String.length s))%N
                then match string_nth (N.to_nat i) s with
                     | Some c => VStr (String c "")
                     | None => VUndefined
                     end
                else VUndefined)
      | None =>
          Some (if key_string k =? "length"
                then VNum (Z.of_nat (String.length s))
                else VUndefined)
      end
  | VBool _ | VNum _ | VNaN => Some VUndefined
  end.

Fixpoint list_set {A : Type} (n : nat) (a : A) (l : list A) : list A :=
  match l, n with
  | [], _ => []
  | _ :: l', O => a :: l'
  | x :: l', S n' => x :: list_set n' a l'
  end.

Inductive written : Type :=
| Written (v : value)
| WriteThrows
| WriteUnsupported.

(** [v[k] = x], giving the new [v]. *)
Definition prop_set (v : value) (k : key) (x : value) : written :=
  match v with
  | VUndefined | VNull => WriteThrows
  | VObj r fields => Written (VObj r (assoc_set (key_string k) x fields))
  | VArr r elems =>
      match key_index k with
      | Some i =>
          if (i <? N.of_nat (List.length elems))%N
          then Written (VArr r (list_set (N.to_nat i) x elems))
          else if (i =? N.of_nat (List.length elems))%N
          then Written (VArr r (elems ++ [x]))
          else WriteUnsupported
      | None => WriteUnsupported
      end
  | VBool _ | VNum _ | VNaN | VStr _ => Written v
  end.

(** [delete v[k]], giving the new [v]. *)
Definition prop_delete (v : value) (k : string) : option value :=
  match v with
  | VUndefined | VNull => None
  | VObj r fields => Some (VObj r (assoc_remove k fields))
  | _ => Some v
  end.

(** The position [splice] starts at for a list of length [len]. *)
Definition splice_start (start : Z) (len : nat) : nat :=
  if (start <? 0)%Z then Z.to_nat (Z.max (Z.of_nat len + start) 0)
  else Z.to_nat (Z.min start (Z.of_nat len)).

(** [l.splice(start, 1)] *)
Definition splice_remove {A : Type} (start : Z) (l : list A) : list A :=
  let i := splice_start start (List.length l) in
  firstn i l ++ skipn (S i) l.

(** [l.splice(start, 0, x)] *)
Definition splice_insert {A : Type} (start : Z) (x : A) (l : list A) : list A :=
  let i := splice_start start (List.length l) in
  firstn i l ++ x :: skipn i l.

End JS.

(* ================================================================== *)
(** ** State, events and the monad of the engine *)
(* ================================================================== *)

Import JS.

Definition elem := nat.   (* a DOM element *)
Definition cbid := nat.   (* an observer callback *)

(** [options] of a binding, as far as the registry uses them. *)
Record options : Type := mkOptions {
  event : string;
  twoways : bool
}.

Record binding : Type := mkBinding {
  element : elem;
  b_options : options
}.

Record observer : Type := mkObserver {
  callback : cbid;
  context : option nat
}.

Inductive action : Type := Create | Update | Delete.

(** The object an observer callback receives. *)
Record notification : Type := mkNotification {
  n_path : option string;        (* [None] is [null]: the whole document *)
  n_action : action;
  n_changedPath : string;
  n_value : value;
  n_element : option elem;
  n_context : option nat
}.

Inductive ev : Type :=
| DomUpdate (path attribute : string) (el : elem) (v : value)
| ListenerAdded (el : elem) (name : string)
| ListenerRemoved (el : elem) (name : string)
| Notified (cb : cbid) (n : notification).

Definition trace := list ev.

(** [self]: the document and the two registries, in insertion order. *)
Record state : Type := mkState {
  data : value;
  bindings : list (string * list (string * list binding));
  observables : list (string * list observer);
  next_ref : ref                  (* the next fresh object identity *)
}.

Definition with_data (d : value) (st : state) : state :=
  mkState d (bindings st) (observables st) (next_ref st).

Definition with_bindings b (st : state) : state :=
  mkState (data st) b (observables st) (next_ref st).

Definition with_observables o (st : state) : state :=
  mkState (data st) (bindings st) o (next_ref st).

Inductive outcome (A : Type) : Type :=
| Ok (a : A) (st : state) (tr : trace)   (* returned [a] *)
| Throw (st : state) (tr : trace)        (* uncaught exception *)
| Unsupported                            (* outside the embedding *)
| OutOfFuel.

Arguments Ok {A} a st tr.
Arguments Throw {A} st tr.
Arguments Unsupported {A}.
Arguments OutOfFuel {A}.

Definition M (A : Type) : Type := state -> outcome A.

Definition mret {A} (a : A) : M A := fun st => Ok a st [].

(** The outcome [o] of what follows the events [tr]. *)
Definition after {B} (tr : trace) (o : outcome B) : outcome B :=
  match o with
  | Ok b st tr' => Ok b st (tr ++ tr')
  | Throw st tr' => Throw st (tr ++ tr')
  | Unsupported => Unsupported
  | OutOfFuel => OutOfFuel
  end.

Definition mbind {A B} (m : M A) (f : A -> M B) : M B := fun st =>
  match m st with
  | Ok a st1 tr1 => after tr1 (f a st1)
  | Throw st1 tr1 => Throw st1 tr1
  | Unsupported => Unsupported
  | OutOfFuel => OutOfFuel
  end.

Declare Scope js_scope.
Delimit Scope js_scope with js.
Notation "x <- m ;; k" := (mbind m (fun x => k))
  (at level 61, m at next level, right associativity) : js_scope.
Notation "m ;; k" := (mbind m (fun _ => k))
  (at level 61, right associativity) : js_scope.
Open Scope js_scope.

Definition emit (tr : trace) : M unit := fun st => Ok tt st tr.
Definition throw {A} : M A := fun st => Throw st [].
Definition unsupported {A} : M A := fun _ => Unsupported.
Definition out_of_fuel {A} : M A := fun _ => OutOfFuel.
Definition read {A} (f : state -> A) : M A := fun st => Ok (f st) st [].
Definition modify (f : state -> state) : M unit := fun st => Ok tt (f st) [].

(* ================================================================== *)
(** ** PathAccessor *)
(* ================================================================== *)

(** The callback of the [reduce] in [get]. *)
Definition get_step (allowUndefined : bool) (value : value) (index : string)
  : JS.value :=
  let missing := if allowUndefined then VUndefined else VNull in
  if truthy value
  then match prop_get value (KStr index) with
       | Some x => if is_undefined x then missing else x
       | None => missing
       end
  else missing.

(** [self.get(key, allowUndefined)] on the document [d]; the key [""]
    also stands for [null]. *)
Definition get_in (d : value) (key : string) (allowUndefined : bool) : value :=
  if key =? "" then d
  else fold_left (get_step allowUndefined) (split key) d.

Definition get (key : string) : M value :=
  read (fun st => get_in (data st) key false).

Definition getParentPath (path : string) : string :=
  join (removelast (split path)).

Definition getParentValue (path : string) : M value :=
  get (getParentPath path).

Definition isInArray (path : string) : M bool :=
  value <- getParentValue path ;; mret (isArray value).

(** *** The walk of [reduce] down to the last segment

    [set], [moveInArray] and [delete] run the same [reduce]: every segment
    but the last steps into [prev[cur]], replaced by a fresh [{}] when it
    is no object.  The walk keeps the way back to the root, so that a
    write to the object reached updates the document. *)

Record cursor : Type := mkCursor {
  focus : value;                     (* [prev] at the last segment *)
  frames : list (value * string)     (* the parents, innermost first *)
}.

Inductive descended : Type :=
| Reached (c : cursor) (nxt : ref)
| DescendThrows
| DescendUnsupported.

Fixpoint descend (prev : value) (segs : list string) (nxt : ref)
  (ctx : list (value * string)) : descended :=
  match segs with
  | [] => Reached (mkCursor prev ctx) nxt
  | cur :: rest =>
      match prop_get prev (KStr cur) with
      | None => DescendThrows
      | Some child =>
          if isObject child
          then descend child rest nxt ((prev, cur) :: ctx)
          else match prop_set prev (KStr cur) (VObj nxt []) with
               | Written prev1 =>
                   descend (VObj nxt []) rest (S nxt) ((prev1, cur) :: ctx)
               | WriteThrows => DescendThrows
               | WriteUnsupported => DescendUnsupported
               end
      end
  end.

Definition put_child (parent : value) (cur : string) (child : value) : value :=
  match prop_set parent (KStr cur) child with
  | Written v => v
  | _ => parent
  end.

(** The document once [child] stands where the walk has arrived: the
    objects on the way are rebuilt, which is the mutation of the code as
    long as none of them is held under another path as well. *)
Definition plug (child : value) (ctx : list (value * string)) : value :=
  fold_left (fun ch f => put_child (fst f) (snd f) ch) ctx child.

Definition walk (path : string) : M (cursor * string) := fun st =>
  let segs := split path in
  match descend (data st) (removelast segs) (next_ref st) [] with
  | Reached c nxt =>
      Ok (c, last segs "")
         (mkState (plug (focus c) (frames c)) (bindings st) (observables st) nxt)
         []
  | DescendThrows => Throw st []
  | DescendUnsupported => Unsupported
  end.

(** Store the new state of the object the walk arrived at. *)
Definition write (c : cursor) (w : written) : M unit :=
  match w with
  | Written v => modify (with_data (plug v (frames c)))
  | WriteThrows => throw
  | WriteUnsupported => unsupported
  end.

(* ================================================================== *)
(** ** SubscriberRegistry and BindingAdapter *)
(* ================================================================== *)

(** The key under which observers of [path] are stored: [null] becomes
    the property name ["null"]. *)
Definition obs_key (path : option string) : string :=
  match path with Some p => p | None => "null" end.

(** [if (!path) path = null] *)
Definition normalize (path : option string) : option string :=
  match path with
  | Some p => if p =? "" then None else Some p
  | None => None
  end.

(** [observe], for a key the registry has of its own or has not. *)
Definition observe (path : option string) (cb : cbid) (ctx : option nat)
  : M unit :=
  modify (fun st =>
    let k := obs_key (normalize path) in
    let l := match assoc k (observables st) with Some l => l | None => [] end in
    with_observables (assoc_set k (l ++ [mkObserver cb ctx]) (observables st)) st).

(** [self.observables[path].splice(0, length)]: the list is emptied, its
    key stays.  The registry is looked up by the keys it has of its own. *)
Definition unobserve_in (k : string) (obs : list (string * list observer))
  : list (string * list observer) :=
  match assoc k obs with
  | None => obs
  | Some _ => assoc_set k [] obs
  end.

Definition unobserve (path : option string) : M unit :=
  modify (fun st =>
    with_observables (unobserve_in (obs_key path) (observables st)) st).

(** [optionalPath || ""] *)
Definition or_empty (optionalPath : option string) : string :=
  match optionalPath with Some q => q | None => "" end.

(** One turn of the [for (var path in self.observables)] loop. *)
Definition unobserveAll_step (q : string) (obs : list (string * list observer))
  (path : string) : list (string * list observer) :=
  match indexOf path q with
  | Some 0 => assoc_remove path (unobserve_in path obs)
  | _ => obs
  end.

Definition unobserveAll (optionalPath : option string) : M unit :=
  modify (fun st =>
    let obs := observables st in
    with_observables
      (fold_left (unobserveAll_step (or_empty optionalPath)) (map fst obs) obs)
      st).

(** The [removeEventListener] calls for the bindings of one path. *)
Definition listeners_removed (attrs : list (string * list binding)) : trace :=
  flat_map (fun a =>
    map (fun b => ListenerRemoved (element b) (event (b_options b))) (snd a))
    attrs.

(** One turn of the [for (var path in self.bindings)] loop. *)
Definition unbindAll_step (q : string)
  (acc : list (string * list (string * list binding)) * trace) (path : string)
  : list (string * list (string * list binding)) * trace :=
  match indexOf path q with
  | Some 0 =>
      match assoc path (fst acc) with
      | Some attrs =>
          (assoc_remove path (fst acc), snd acc ++ listeners_removed attrs)
      | None => acc
      end
  | _ => acc
  end.

Definition unbindAll (optionalPath : option string) : M unit := fun st =>
  let bs := bindings st in
  let r := fold_left (unbindAll_step (or_empty optionalPath)) (map fst bs) (bs, []) in
  Ok tt (with_bindings (fst r) st) (snd r).

(** [updateBoundElementsForPathAndAttribute]: one update per binding. *)
Definition updateBoundElementsForPathAndAttribute
  (bs : list (string * list (string * list binding)))
  (path attribute : string) (value : value) : trace :=
  match assoc path bs with
  | None => []
  | Some attrs =>
      match assoc attribute attrs with
      | None => []
      | Some l => map (fun b => DomUpdate path attribute (element b) value) l
      end
  end.

Definition updateBoundElementsForPath
  (bs : list (string * list (string * list binding)))
  (path : string) (value : value) : trace :=
  match assoc path bs with
  | None => []
  | Some attrs =>
      flat_map (fun a =>
        updateBoundElementsForPathAndAttribute bs path (fst a) value) attrs
  end.

(** [for (key in value)] visits the fields of an object and the indices
    of an array in order. *)
Fixpoint updateBoundElementsAtPathRecursivly
  (bs : list (string * list (string * list binding)))
  (path : string) (value : value) {struct value} : trace :=
  updateBoundElementsForPath bs path value ++
  match value with
  | VObj _ fields =>
      (fix each (fs : list (string * JS.value)) : trace :=
         match fs with
         | [] => []
         | (key, v) :: fs' =>
             updateBoundElementsAtPathRecursivly bs (path ++ "." ++ key) v
             ++ each fs'
         end) fields
  | VArr _ elems =>
      (fix each (i : nat) (es : list JS.value) : trace :=
         match es with
         | [] => []
         | v :: es' =>
             updateBoundElementsAtPathRecursivly bs
               (path ++ "." ++ string_of_nat i) v
             ++ each (S i) es'
         end) 0 elems
  | _ => []
  end.

Definition updateBoundElementsAtPath
  (bs : list (string * list (string * list binding)))
  (path : string) (value : value) : trace :=
  match value with
  | VObj _ fields =>
      flat_map (fun f =>
        updateBoundElementsAtPathRecursivly bs (path ++ "." ++ fst f) (snd f))
        fields
  | VArr _ elems =>
      flat_map (fun f =>
        updateBoundElementsAtPathRecursivly bs
          (path ++ "." ++ string_of_nat (fst f)) (snd f))
        (combine (seq 0 (List.length elems)) elems)
  | _ => []
  end.

Definition emit_of (f : state -> trace) : M unit := fun st => Ok tt st (f st).

(** [(parentPath ? parentPath + '.' : '') + cur] *)
Definition child_path (parentPath cur : string) : string :=
  (if parentPath =? "" then "" else parentPath ++ ".") ++ cur.

(* ================================================================== *)
(** ** NotificationRouter and MutationEngine *)
(* ================================================================== *)

Section Engine.

(** What calling an observer does: callbacks are code of the caller and
    may call back into the instance. *)
Variable invoke : observer -> notification -> M unit.

(** Bound on the turns of one loop over a live list of observers (a
    callback that keeps registering observers keeps the loop going). *)
Variable fuel : nat.

(** [for (var i = 0; i < self.observables[path].length; i++)]: the list is
    read again at every turn. *)
Fixpoint observers_loop (n : nat) (k : string) (i : nat)
  (note : observer -> notification) : M unit :=
  match n with
  | O => out_of_fuel
  | S n' => fun st =>
      match assoc k (observables st) with
      | None => Throw st []      (* [undefined.length] *)
      | Some l =>
          match nth_error l i with
          | None => Ok tt st []
          | Some o =>
              (invoke o (note o) ;; observers_loop n' k (S i) note) st
          end
      end
  end.

(** [notifyObserversForPath]: nothing happens when the registry has no
    list of its own under the key. *)
Definition notifyObserversForPath (path : option string) (value : value)
  (changedPath : string) (action : action) (element : option elem) : M unit :=
  fun st =>
    match assoc (obs_key path) (observables st) with
    | None => Ok tt st []
    | Some _ =>
        observers_loop fuel (obs_key path) 0
          (fun o => mkNotification path action changedPath value element
                      (context o)) st
    end.

(** The [while (parts.length > 0)] loop; [rparts] is [parts] reversed, so
    that [parts.pop()] takes its head. *)
Fixpoint ancestors_loop (rparts : list string) (path : string)
  (action : action) (element : option elem) : M unit :=
  match rparts with
  | [] => mret tt
  | _ :: rest =>
      let currentPath := join (rev rparts) in
      (registered <- read (fun st => assoc currentPath (observables st)) ;;
       match registered with
       | Some _ =>
           value <- get currentPath ;;
           notifyObserversForPath (Some currentPath) value path action element
       | None => mret tt
       end) ;;
      ancestors_loop rest path action element
  end.

Definition notifyObserversFromPath (path : string) (action : action)
  (element : option elem) : M unit :=
  ancestors_loop (rev (removelast (split path))) path action element ;;
  value <- get "" ;;
  notifyObserversForPath None value path action element.

Definition notify (path : string) (value : value) (action : action)
  (element : option elem) : M unit :=
  emit_of (fun st => updateBoundElementsForPath (bindings st) path value) ;;
  emit_of (fun st => updateBoundElementsAtPath (bindings st) path value) ;;
  registered <- read (fun st => assoc path (observables st)) ;;
  match registered with
  | Some _ => notifyObserversForPath (Some path) value path action element
  | None => mret tt
  end ;;
  notifyObserversFromPath path action element.

(** The key [set] writes at the last segment and the path it reports. *)
Definition set_target (prev : value) (path cur : string) : key * string :=
  match prev with
  | VArr _ elems =>
      let length := Z.of_nat (List.length elems) in
      let cur' :=
        match parseInt cur with
        | Some index =>
            if (index >? length)%Z then KNum (N.of_nat (List.length elems))
            else if (index <? 0)%Z then KNum 0
            else KStr cur
        | None => KStr cur
        end in
      (cur', child_path (getParentPath path) (key_string cur'))
  | _ => (KStr cur, path)
  end.

(** [set]; the result [None] is [undefined]. *)
Definition set (path : string) (value : value) (element : option elem)
  : M (option string) :=
  current <- get path ;;
  if strict_eq current value then mret None
  else
    w <- walk path ;;
    let prev := focus (fst w) in
    let target := set_target prev path (snd w) in
    let modifiedPath := snd target in
    match prop_get prev (fst target) with
    | None => throw
    | Some old =>
        let isNew := is_undefined old in
        write (fst w) (prop_set prev (fst target) value) ;;
        notify modifiedPath value (if isNew then Create else Update) element ;;
        mret (Some modifiedPath)
    end.

(** [prev.splice(cur, 1)] on a sequence, [delete prev[cur]] otherwise. *)
Definition delete_at (prev : value) (cur : string) : written :=
  match prev with
  | VArr r elems =>
      match to_integer cur with
      | Some start => Written (VArr r (splice_remove start elems))
      | None => WriteUnsupported
      end
  | _ =>
      match prop_delete prev cur with
      | Some prev' => Written prev'
      | None => WriteThrows
      end
  end.

Definition delete (path : string) : M unit :=
  w <- walk path ;;
  unbindAll (Some path) ;;
  unobserve (Some path) ;;
  write (fst w) (delete_at (focus (fst w)) (snd w)) ;;
  notify path VNull Delete None.

Definition moveInObject (fromPath toPath : string) : M (option string) :=
  value <- get fromPath ;;
  delete fromPath ;;
  set toPath value None.

(** [moveInArray]; the index is an exact integer, as the number of the
    code is below [2^53]. *)
Definition moveInArray (fromPath toPath : string) : M (option string) :=
  value <- get fromPath ;;
  delete fromPath ;;
  w <- walk toPath ;;
  match focus (fst w) with
  | VArr r elems =>
      let length := Z.of_nat (List.length elems) in
      let index := match parseInt (snd w) with Some i => i | None => 0%Z end in
      let index := if (index >? length)%Z then length else index in
      write (fst w) (Written (VArr r (splice_insert index value elems))) ;;
      let modifiedPath := child_path (getParentPath toPath) (string_of_Z index) in
      notify modifiedPath value Create None ;;
      mret (Some modifiedPath)
  | _ => throw       (* [prev.splice] is not a function *)
  end.

Definition move (fromPath toPath : string) : M (option string) :=
  if fromPath =? toPath then mret None
  else
    inArray <- isInArray toPath ;;
    if inArray then moveInArray fromPath toPath
    else moveInObject fromPath toPath.

(** [bind] for one element, for a path and an attribute the registry
    has of its own or has not. *)
Definition bind (domElement : elem) (path : string) (attribute : string)
  (opts : option options) : M unit :=
  let attribute := if attribute =? "" then "value" else attribute in
  let opts := match opts with Some o => o | None => mkOptions "change" true end in
  modify (fun st =>
    let attrs := match assoc path (bindings st) with Some a => a | None => [] end in
    let l := match assoc attribute attrs with Some l => l | None => [] end in
    with_bindings
      (assoc_set path
         (assoc_set attribute (l ++ [mkBinding domElement opts]) attrs)
         (bindings st)) st) ;;
  emit [ListenerAdded domElement (event opts)] ;;
  value <- get path ;;
  emit_of (fun st =>
    updateBoundElementsForPathAndAttribute (bindings st) path attribute value).

Definition remove : M unit :=
  unobserveAll None ;;
  unbindAll None ;;
  modify (with_data VNull).

End Engine.

(** An observer that does not call back into the instance: the call is
    recorded and nothing else happens. *)
Definition opaque (o : observer) (n : notification) : M unit :=
  emit [Notified (callback o) n].


(* ================================================================== *)
(** ** Observers that call back into the instance *)
(* ================================================================== *)

(** The calls an observer callback can make on the public interface. *)
Inductive command : Type :=
| CallSet (path : string) (value : value)
| CallDelete (path : string)
| CallMove (fromPath toPath : string)
| CallObserve (path : option string) (cb : cbid) (ctx : option nat)
| CallUnobserve (path : option string)
| CallUnbindAll (optionalPath : option string)
| CallRemove.

Section Reentrant.

(** What each callback does with the notification it receives. *)
Variable program : cbid -> notification -> list command.
Variable fuel : nat.

Definition exec (invoke : observer -> notification -> M unit) (c : command)
  : M unit :=
  match c with
  | CallSet path value => set invoke fuel path value None ;; mret tt
  | CallDelete path => delete invoke fuel path
  | CallMove fromPath toPath => move invoke fuel fromPath toPath ;; mret tt
  | CallObserve path cb ctx => observe path cb ctx
  | CallUnobserve path => unobserve path
  | CallUnbindAll optionalPath => unbindAll optionalPath
  | CallRemove => remove
  end.

Fixpoint exec_all (invoke : observer -> notification -> M unit)
  (cs : list command) : M unit :=
  match cs with
  | [] => mret tt
  | c :: cs' => exec invoke c ;; exec_all invoke cs'
  end.

(** A callback is entered, then runs its calls; [depth] bounds the
    nesting of notifications inside callbacks. *)
Fixpoint reentrant (depth : nat) (o : observer) (n : notification) : M unit :=
  match depth with
  | O => out_of_fuel
  | S d =>
      emit [Notified (callback o) n] ;;
      exec_all (reentrant d) (program (callback o) n)
  end.

End Reentrant.

(* ================================================================== *)
(** ** BindingAdapter: collections, unbinding, changes from the DOM *)
(* ================================================================== *)

(** What [bind] and [unbind] receive as [domElement]. *)
Inductive dom_arg : Type :=
| NoElement                             (* [null] or [undefined] *)
| OneElement (e : elem)                 (* an [HTMLElement] *)
| Collection (l : list (option elem)).  (* anything else that has a
                                           [length]; [None] is an entry
                                           that is no [HTMLElement] *)

(** The [for] loop of [bind] over a collection. *)
Fixpoint bind_each (l : list (option elem)) (path attribute : string)
  (opts : option options) : M unit :=
  match l with
  | [] => mret tt
  | Some e :: l' =>
      bind e path attribute opts ;; bind_each l' path attribute opts
  | None :: l' => bind_each l' path attribute opts
  end.

(** [bind], whatever [domElement] is. *)
Definition bind_any (domElement : dom_arg) (path attribute : string)
  (opts : option options) : M unit :=
  match domElement with
  | NoElement => mret tt                (* [console.warn], nothing bound *)
  | OneElement e => bind e path attribute opts
  | Collection l => bind_each l path attribute opts
  end.

(** The [for] loop of [unbind] over the list of bindings: [splice(i, 1)]
    shortens the list, and [i] moves on all the same.  The list never
    grows, so its length bounds the turns. *)
Fixpoint unbind_loop (n : nat) (domElement : elem) (i : nat) (l : list binding)
  : list binding * trace :=
  match n with
  | O => (l, [])
  | S n' =>
      match nth_error l i with
      | None => (l, [])
      | Some binding =>
          if Nat.eqb domElement (element binding)
          then
            let r := unbind_loop n' domElement (S i)
                       (splice_remove (Z.of_nat i) l) in
            (fst r,
             ListenerRemoved domElement (event (b_options binding)) :: snd r)
          else unbind_loop n' domElement (S i) l
      end
  end.

(** [unbind] for one element. *)
Definition unbind_element (domElement : elem) (path attribute : string)
  : M unit := fun st =>
  match assoc path (bindings st) with
  | None => Ok tt st []
  | Some attrs =>
      let attribute := if attribute =? "" then "value" else attribute in
      match assoc attribute attrs with
      | None => Ok tt st []
      | Some l =>
          let r := unbind_loop (List.length l) domElement 0 l in
          Ok tt
            (with_bindings
               (assoc_set path (assoc_set attribute (fst r) attrs) (bindings st))
               st)
            (snd r)
      end
  end.

Fixpoint unbind_each (l : list (option elem)) (path attribute : string)
  : M unit :=
  match l with
  | [] => mret tt
  | Some e :: l' =>
      unbind_element e path attribute ;; unbind_each l' path attribute
  | None :: l' => unbind_each l' path attribute
  end.

(** [unbind], whatever [domElement] is: the test for bindings of the path
    comes first, then [null.length] throws. *)
Definition unbind (domElement : dom_arg) (path attribute : string) : M unit :=
  fun st =>
  match assoc path (bindings st) with
  | None => Ok tt st []
  | Some _ =>
      match domElement with
      | NoElement => Throw st []
      | OneElement e => unbind_element e path attribute st
      | Collection l => unbind_each l path attribute st
      end
  end.

Section FromTheDom.

Variable invoke : observer -> notification -> M unit.
Variable fuel : nat.

(** What the successive reads of [binding.element[attribute]] give during
    one call, each passed through [reverseTransformedValue] when the
    binding has a transformer: the elements are outside the document. *)
Variable element_value : nat -> value.

(** The [for] loop of [domChange] over the live list of bindings; [reads]
    counts the reads of the element made so far. *)
Fixpoint domChange_loop (n : nat) (target : elem) (path attribute : string)
  (i reads : nat) : M unit :=
  match n with
  | O => out_of_fuel
  | S n' => fun st =>
      match assoc path (bindings st) with
      | None => Throw st []              (* [undefined[attribute]] *)
      | Some attrs =>
          match assoc attribute attrs with
          | None => Throw st []          (* [undefined.length] *)
          | Some l =>
              match nth_error l i with
              | None => Ok tt st []
              | Some binding =>
                  if Nat.eqb target (element binding)
                  then (set invoke fuel path (element_value reads)
                          (Some (element binding)) ;;
                        domChange_loop n' target path attribute (S i) (S reads))
                         st
                  else domChange_loop n' target path attribute (S i) reads st
              end
          end
      end
  end.

(** [domChange(e, path, attribute)], [target] being [e.target]. *)
Definition domChange (target : elem) (path attribute : string) : M unit :=
  fun st =>
  match assoc path (bindings st) with
  | None => Ok tt st []
  | Some attrs =>
      match assoc attribute attrs with
      | None => Ok tt st []
      | Some _ => domChange_loop fuel target path attribute 0 0 st
      end
  end.

(** The [handler] that [bind] attaches for the binding [b] of [path] and
    [attribute]. *)
Definition handler (b : binding) (path attribute : string) (target : elem)
  : M unit :=
  if twoways (b_options b) then domChange target path attribute
  else mret tt.                          (* [e.preventDefault()] *)

End FromTheDom.

(* ================================================================== *)
(** ** The first revision in the file *)
(* ================================================================== *)

(** The file holds an earlier revision of [BBData] before the one
    embedded above.  Its [unbindAll] differs from the later one: the
    callback of [forEach] also shifts the list that is being visited. *)
Module FirstRevision.

(** [list.forEach(function (binding) { ...; list.shift(); })]: [forEach]
    visits the index [k] of the list as it is by then, for every [k]
    below the length the list had at the start, and passes over an index
    that the list no longer has. *)
Fixpoint forEach_shift (n : nat) (k : nat) (l : list binding) : trace :=
  match n with
  | O => []
  | S n' =>
      match nth_error l k with
      | Some binding =>
          ListenerRemoved (element binding) (event (b_options binding))
          :: forEach_shift n' (S k) (tl l)
      | None => forEach_shift n' (S k) l
      end
  end.

(** The [removeEventListener] calls for the bindings of one path. *)
Definition listeners_removed (attrs : list (string * list binding)) : trace :=
  flat_map (fun a => forEach_shift (List.length (snd a)) 0 (snd a)) attrs.

(** One turn of the [for (var path in self.bindings)] loop. *)
Definition unbindAll_step (q : string)
  (acc : list (string * list (string * list binding)) * trace) (path : string)
  : list (string * list (string * list binding)) * trace :=
  match indexOf path q with
  | Some 0 =>
      match assoc path (fst acc) with
      | Some attrs =>
          (assoc_remove path (fst acc), snd acc ++ listeners_removed attrs)
      | None => acc
      end
  | _ => acc
  end.

Definition unbindAll (optionalPath : option string) : M unit := fun st =>
  let bs := bindings st in
  let r := fold_left (unbindAll_step (or_empty optionalPath)) (map fst bs) (bs, []) in
  Ok tt (with_bindings (fst r) st) (snd r).

End FirstRevision.

(* ================================================================== *)
(** ** Vocabulary of the statements *)
(* ================================================================== *)

(** The longest list of observers registered under one key. *)
Definition max_observers (obs : list (string * list observer)) : nat :=
  list_max (map (fun e => List.length (snd e)) obs).

(** The calls made when the observers stored for [path] are notified,
    in the order of their registration. *)
Definition observer_calls (obs : list (string * list observer))
  (path : option string) (value : value) (changedPath : string)
  (action : action) (element : option elem) : trace :=
  match assoc (obs_key path) obs with
  | None => []
  | Some l =>
      map (fun o => Notified (callback o)
                      (mkNotification path action changedPath value element
                         (context o))) l
  end.

(** The proper ancestors of a path, deepest first: the paths made of its
    first [n] segments, for [n] from one less than their number down to 1. *)
Definition ancestors (path : string) : list string :=
  map (fun n => join (firstn n (split path)))
      (rev (seq 1 (List.length (split path) - 1))).

(** The paths the [while] loop of [notifyObserversFromPath] visits. *)
Fixpoint visited (rparts : list string) : list string :=
  match rparts with
  | [] => []
  | _ :: rest => join (rev rparts) :: visited rest
  end.

Definition ancestor_calls (st : state) (path : string) (action : action)
  (element : option elem) (paths : list string) : trace :=
  flat_map (fun a =>
    observer_calls (observables st) (Some a) (get_in (data st) a false)
      path action element) paths.

Definition is_dom_update (e : ev) : bool :=
  match e with DomUpdate _ _ _ _ => true | _ => false end.

(** [get] without the shortcut for the empty key: the [reduce] alone. *)
Definition get_segs (d : value) (segs : list string) : value :=
  fold_left (get_step false) segs d.

(** [w] is the part of [v] under the keys [ks]. *)
Inductive sub_value : value -> list string -> value -> Prop :=
| sub_here v : sub_value v [] v
| sub_field r fields k v ks w :
    assoc k fields = Some v -> sub_value v ks w ->
    sub_value (VObj r fields) (k :: ks) w
| sub_elem r elems i v ks w :
    nth_error elems i = Some v -> sub_value v ks w ->
    sub_value (VArr r elems) (string_of_nat i :: ks) w.

(** [path.k1.k2...] *)
Definition descendant_path (path : string) (ks : list string) : string :=
  fold_left (fun p k : string => (p ++ "." ++ k)%string) ks path.

(** Same content, whatever the identities. *)
Fixpoint same_structure (a b : value) {struct a} : bool :=
  match a, b with
  | VUndefined, VUndefined => true
  | VNull, VNull => true
  | VNaN, VNaN => true
  | VBool x, VBool y => Bool.eqb x y
  | VNum x, VNum y => (x =? y)%Z
  | VStr x, VStr y => (x =? y)
  | VObj _ fs, VObj _ gs =>
      (fix each (fs gs : list (string * JS.value)) : bool :=
         match fs, gs with
         | [], [] => true
         | (k, v) :: fs', (k', v') :: gs' =>
             (k =? k') && same_structure v v' && each fs' gs'
         | _, _ => false
         end) fs gs
  | VArr _ es, VArr _ gs =>
      (fix each (es gs : list JS.value) : bool :=
         match es, gs with
         | [], [] => true
         | v :: es', v' :: gs' => same_structure v v' && each es' gs'
         | _, _ => false
         end) es gs
  | _, _ => false
  end.

(** What one notification does, in the order it does it: the bindings at
    the path, the bindings below it, the observers of the path, those of
    its ancestors from the deepest up, and those of the whole document. *)
Definition notify_trace (st : state) (path : string) (value : value)
  (action : action) (element : option elem) : trace :=
  updateBoundElementsForPath (bindings st) path value
  ++ updateBoundElementsAtPath (bindings st) path value
  ++ observer_calls (observables st) (Some path) value path action element
  ++ ancestor_calls st path action element (ancestors path)
  ++ observer_calls (observables st) None (data st) path action element.

(** Induction on values, through the lists of fields and elements. *)
Section ValueInduction.

Variable P : value -> Prop.
Hypothesis P_undefined : P VUndefined.
Hypothesis P_null : P VNull.
Hypothesis P_bool : forall b, P (VBool b).
Hypothesis P_num : forall n, P (VNum n).
Hypothesis P_nan : P VNaN.
Hypothesis P_str : forall s, P (VStr s).
Hypothesis P_obj : forall r fields,
  Forall (fun f => P (snd f)) fields -> P (VObj r fields).
Hypothesis P_arr : forall r elems, Forall P elems -> P (VArr r elems).

Fixpoint value_induction (v : value) : P v :=
  match v with
  | VUndefined => P_undefined
  | VNull => P_null
  | VBool b => P_bool b
  | VNum n => P_num n
  | VNaN => P_nan
  | VStr s => P_str s
  | VObj r fields =>
      P_obj r fields
        ((fix each (fs : list (string * value))
            : Forall (fun f => P (snd f)) fs :=
            match fs with
            | [] => Forall_nil _
            | f :: fs' => Forall_cons f (value_induction (snd f)) (each fs')
            end) fields)
  | VArr r elems =>
      P_arr r elems
        ((fix each (es : list value) : Forall P es :=
            match es with
            | [] => Forall_nil _
            | e :: es' => Forall_cons e (value_induction e) (each es')
            end) elems)
  end.

End ValueInduction.

(** The index [set] writes at, for the parsed segment [i] and a sequence
    of [len] elements. *)
Definition clamp_index (i : Z) (len : nat) : nat :=
  if (i >? Z.of_nat len)%Z then len
  else if (i <? 0)%Z then 0
  else Z.to_nat i.

(** A sequence with [x] written at [j]: replaced inside, added at the end. *)
Definition write_at {A : Type} (j : nat) (x : A) (l : list A) : list A :=
  if Nat.ltb j (List.length l) then list_set j x l else l ++ [x].

(** The object [p] can hold a child under the key [k]. *)
Definition has_slot (p : value) (k : key) : Prop :=
  match p with
  | VObj _ _ => True
  | VArr _ elems =>
      exists i, key_index k = Some i /\ (i < N.of_nat (List.length elems))%N
  | _ => False
  end.

(** A sequence is addressed by a number, written in canonical form when
    it lies within the sequence or just after it. *)
Definition addressable (prev : value) (cur : string) : Prop :=
  match prev with
  | VArr _ elems =>
      exists i, parseInt cur = Some i
                /\ ((0 <= i <= Z.of_nat (List.length elems))%Z ->
                    array_index cur <> None)
  | _ => True
  end.

(** Two composite values are one and the same object. *)
Definition same_object (a b : value) : Prop :=
  match a, b with
  | VObj r _, VObj r' _ => r = r'
  | VArr r _, VArr r' _ => r = r'
  | _, _ => False
  end.

(** The element a sequence loses is named by a number the embedding can
    convert. *)
Definition removable (prev : value) (cur : string) : Prop :=
  match prev with
  | VArr _ _ => to_integer cur <> None
  | _ => True
  end.

Definition is_listener_removed (e : ev) : Prop :=
  match e with ListenerRemoved _ _ => True | _ => False end.

(** The state [delete path] notifies in: the registrations are removed
    and [prev'] stands where the walk arrived. *)
Definition after_delete (st : state) (path : string) (c : cursor) (nxt : ref)
  (prev' : value) : state :=
  mkState (plug prev' (frames c))
    (filter (fun e => negb (String.prefix path (fst e))) (bindings st))
    (unobserve_in path (observables st)) nxt.

(* ================================================================== *)
(** ** The reach of the embedding *)
(* ================================================================== *)

(** Property lookup in the embedding is own-property lookup, and the
    document is a tree.  The code reads with [o[k]], which also finds
    what [o] inherits, and it may hold one object under two paths.  The
    statements about paths therefore carry the hypotheses below, under
    which the lookups of the code and of the embedding agree. *)

(** The members every object inherits from [Object.prototype], which the
    document's mappings and the two registries have for prototype. *)
Definition inherited_names : list string :=
  ["constructor"; "toString"; "toLocaleString"; "valueOf"; "hasOwnProperty";
   "isPrototypeOf"; "propertyIsEnumerable"; "__proto__"; "__defineGetter__";
   "__defineSetter__"; "__lookupGetter__"; "__lookupSetter__"].

(** [k] names no inherited member. *)
Definition own_name (k : string) : bool :=
  negb (existsb (String.eqb k) inherited_names).

(** No segment of the path names an inherited member.  A path of one
    segment and the first segment of a longer path are also keys of the
    registries, when the path or its ancestors are looked up there. *)
Definition plain_path (path : string) : bool :=
  forallb own_name (split path).

(** Reading the segments [segs] one after the other from [d], as [get]
    does, reads members of mappings and elements of sequences only: no
    member of a string, a number or a boolean, which inherit the methods
    of their kind, and no named member of a sequence.  A value that is
    falsy is not read at all. *)
Fixpoint reads_members (d : value) (segs : list string) : bool :=
  match segs with
  | [] => true
  | k :: rest =>
      match d with
      | VObj _ fields =>
          match assoc k fields with
          | Some v => reads_members v rest
          | None => true
          end
      | VArr _ elems =>
          match array_index k with
          | Some i =>
              match nth_error elems (N.to_nat i) with
              | Some v => reads_members v rest
              | None => true
              end
          | None => false
          end
      | _ => negb (truthy d)
      end
  end.

(** The identities of the objects and arrays of a value. *)
Fixpoint refs (v : value) : list ref :=
  match v with
  | VObj r fields => r :: flat_map (fun f => refs (snd f)) fields
  | VArr r elems => r :: flat_map refs elems
  | _ => []
  end.

(** No object is held under two paths. *)
Definition no_sharing (v : value) : Prop := NoDup (refs v).

From Stdlib Require DecimalN.

(** A segment of a path: text without a dot. *)
Fixpoint no_dot (s : string) : bool :=
  match s with
  | EmptyString => true
  | String c s' => negb (Ascii.eqb c dot) && no_dot s'
  end.

(** The value of a decimal numeral read from the left, [acc] being the
    value of the digits already read. *)
Fixpoint uint_value (d : Decimal.uint) (acc : N) : N :=
  match d with
  | Decimal.Nil => acc
  | Decimal.D0 d' => uint_value d' (10 * acc + 0)
  | Decimal.D1 d' => uint_value d' (10 * acc + 1)
  | Decimal.D2 d' => uint_value d' (10 * acc + 2)
  | Decimal.D3 d' => uint_value d' (10 * acc + 3)
  | Decimal.D4 d' => uint_value d' (10 * acc + 4)
  | Decimal.D5 d' => uint_value d' (10 * acc + 5)
  | Decimal.D6 d' => uint_value d' (10 * acc + 6)
  | Decimal.D7 d' => uint_value d' (10 * acc + 7)
  | Decimal.D8 d' => uint_value d' (10 * acc + 8)
  | Decimal.D9 d' => uint_value d' (10 * acc + 9)
  end%N.

(** The largest length a JavaScript array can have leaves every index
    below [2^32 - 1]. *)
Definition index_limit : N := 4294967295.

(** A sequence short enough for every position up to its end to be an
    array index. *)
Definition within_index_limit (prev : value) : Prop :=
  match prev with
  | VArr _ elems => (N.of_nat (List.length elems) < index_limit)%N
  | _ => True
  end.

(** No two consecutive bindings of the list belong to the element [e]. *)
Fixpoint no_twice_in_a_row (e : elem) (l : list binding) : bool :=
  match l with
  | [] => true
  | b :: l' =>
      match l' with
      | b' :: _ => negb (Nat.eqb e (element b) && Nat.eqb e (element b'))
      | [] => true
      end && no_twice_in_a_row e l'
  end.

(** What the loop of [unbind] does to the part of the list it has not
    reached yet: the binding after a removed one is passed over. *)
Fixpoint unbind_scan (e : elem) (l : list binding) : list binding * trace :=
  match l with
  | [] => ([], [])
  | b :: l' =>
      if Nat.eqb e (element b)
      then match l' with
           | [] => ([], [ListenerRemoved e (event (b_options b))])
           | b' :: l'' =>
               let r := unbind_scan e l'' in
               (b' :: fst r, ListenerRemoved e (event (b_options b)) :: snd r)
           end
      else let r := unbind_scan e l' in (b :: fst r, snd r)
  end.

(** The bindings registered for a path and an attribute. *)
Definition bound (st : state) (path attribute : string) : list binding :=
  match assoc path (bindings st) with
  | Some attrs =>
      match assoc attribute attrs with Some l => l | None => [] end
  | None => []
  end.

(** The entries of a collection that are elements. *)
Definition elements_of (l : list (option elem)) : list elem :=
  flat_map (fun x => match x with Some e => [e] | None => [] end) l.

(** The entries of a list at the positions 0, 2, 4, ... *)
Fixpoint every_other {A : Type} (l : list A) : list A :=
  match l with
  | [] => []
  | x :: l' => x :: match l' with [] => [] | _ :: l'' => every_other l'' end
  end.

(** One turn of the loop of [unbindAll] over the stored paths, for a
    given way [L] of detaching the listeners of one path. *)
Definition unbind_step_with
  (L : list (string * list binding) -> trace) (q : string)
  (acc : list (string * list (string * list binding)) * trace) (path : string)
  : list (string * list (string * list binding)) * trace :=
  match indexOf path q with
  | Some 0 =>
      match assoc path (fst acc) with
      | Some attrs => (assoc_remove path (fst acc), snd acc ++ L attrs)
      | None => acc
      end
  | _ => acc
  end.
(* ================================================================== *)
(** ** Association lists and strings *)
(* ================================================================== *)

Section AssocFacts.

Context {A : Type}.
Implicit Types (l : list (string * A)) (k : string).

Lemma assoc_set_same k a l : assoc k (assoc_set k a l) = Some a.
Proof.
  induction l as [|[k' a'] l IH]; simpl.
  - now rewrite String.eqb_refl.
  - destruct (k' =? k) eqn:E; simpl.
    + now rewrite String.eqb_refl.
    + now rewrite E.
Qed.

Lemma assoc_set_other k k' a l :
  k' <> k -> assoc k' (assoc_set k a l) = assoc k' l.
Proof.
  intros Hne. induction l as [|[k0 a0] l IH]; simpl.
  - destruct (k =? k') eqn:E; [apply String.eqb_eq in E; congruence | reflexivity].
  - destruct (k0 =? k) eqn:E; simpl.
    + apply String.eqb_eq in E; subst k0.
      destruct (k =? k') eqn:E'; [apply String.eqb_eq in E'; congruence | reflexivity].
    + now rewrite IH.
Qed.

Lemma assoc_filter_keys (f : string -> bool) k l :
  assoc k (filter (fun e => f (fst e)) l) = if f k then assoc k l else None.
Proof.
  induction l as [|[k' a'] l IH]; simpl.
  - now destruct (f k).
  - destruct (f k') eqn:Ef; simpl.
    + destruct (k' =? k) eqn:E.
      * apply String.eqb_eq in E; subst. now rewrite Ef.
      * exact IH.
    + destruct (k' =? k) eqn:E.
      * apply String.eqb_eq in E; subst. rewrite Ef in *. exact IH.
      * exact IH.
Qed.



Lemma assoc_remove_set k a l : assoc_remove k (assoc_set k a l) = assoc_remove k l.
Proof.
  unfold assoc_remove. induction l as [|[k' a'] l IH]; simpl.
  - now rewrite String.eqb_refl.
  - destruct (k' =? k) eqn:E; simpl.
    + now rewrite String.eqb_refl.
    + now rewrite E, IH.
Qed.

Lemma assoc_In k a l : assoc k l = Some a -> In (k, a) l.
Proof.
  induction l as [|[k' a'] l IH]; simpl; [discriminate|].
  destruct (k' =? k) eqn:E.
  - apply String.eqb_eq in E. intros [= ->]. subst. now left.
  - intros H. right. auto.
Qed.


End AssocFacts.

Lemma filter_filter {A : Type} (f g : A -> bool) (l : list A) :
  filter f (filter g l) = filter (fun x => g x && f x) l.
Proof.
  induction l as [|x l IH]; simpl; [reflexivity|].
  destruct (g x); simpl; [destruct (f x)|]; now rewrite IH.
Qed.

(** [indexOf] gives 0 exactly for a character prefix. *)
Lemma indexOf_prefix (s q : string) :
  indexOf s q = Some 0 <-> String.prefix q s = true.
Proof.
  unfold indexOf. destruct s as [|c s]; simpl.
  - destruct q; simpl; split; congruence.
  - destruct q as [|d q]; [tauto|].
    destruct (ascii_dec d c) as [->|Hne].
    + destruct (String.prefix q s); [tauto|].
      split; [|discriminate].
      destruct (String.index 0 (String c q) s); discriminate.
    + split; [|discriminate].
      destruct (String.index 0 (String d q) s); discriminate.
Qed.

Lemma indexOf_prefix_bool (s q : string) :
  match indexOf s q with Some 0 => true | _ => false end = String.prefix q s.
Proof.
  destruct (String.prefix q s) eqn:E.
  - apply indexOf_prefix in E. now rewrite E.
  - destruct (indexOf s q) as [[|n]|] eqn:E'; try reflexivity.
    apply indexOf_prefix in E'. congruence.
Qed.

(* ================================================================== *)
(** ** Bulk removal from the registries *)
(* ================================================================== *)

Lemma filter_all {A : Type} (f : A -> bool) (l : list A) :
  (forall x, In x l -> f x = true) -> filter f l = l.
Proof.
  induction l as [|x l IH]; simpl; intros H; [reflexivity|].
  rewrite (H x (or_introl eq_refl)). f_equal. apply IH. intros y Hy. apply H. now right.
Qed.

Lemma assoc_remove_absent {A : Type} (k : string) (l : list (string * A)) :
  assoc k l = None -> assoc_remove k l = l.
Proof.
  intros H. apply filter_all. intros [k' a] Hin. simpl.
  destruct (k' =? k) eqn:E; [|reflexivity].
  apply String.eqb_eq in E; subst k'.
  induction l as [|[k0 a0] l IH]; simpl in *; [contradiction|].
  destruct (k0 =? k) eqn:E0; [discriminate|].
  destruct Hin as [Heq|Hin]; [injection Heq as -> ->; now rewrite String.eqb_refl in E0|].
  now apply IH.
Qed.

Lemma assoc_remove_unobserve_in (k : string) obs :
  assoc_remove k (unobserve_in k obs) = assoc_remove k obs.
Proof.
  unfold unobserve_in. destruct (assoc k obs); [apply assoc_remove_set|reflexivity].
Qed.

(** Removing, key after key, the entries whose key starts with [q]. *)
Lemma remove_matching_fold {A : Type} (q : string) (ks : list string) :
  forall acc : list (string * A),
  fold_left (fun b p => if String.prefix q p then assoc_remove p b else b) ks acc
  = filter (fun e => negb (String.prefix q (fst e)
                           && existsb (String.eqb (fst e)) ks)) acc.
Proof.
  induction ks as [|p ks IH]; intros acc; simpl.
  - symmetry. apply filter_all. intros x _. now rewrite andb_false_r.
  - rewrite IH. destruct (String.prefix q p) eqn:Ep.
    + unfold assoc_remove. rewrite filter_filter. apply filter_ext.
      intros [k a]; simpl. destruct (k =? p) eqn:E; simpl; [|reflexivity].
      apply String.eqb_eq in E; subst k. now rewrite Ep.
    + apply filter_ext. intros [k a]; simpl.
      destruct (k =? p) eqn:E; simpl; [|reflexivity].
      apply String.eqb_eq in E; subst k. now rewrite Ep.
Qed.

Lemma remove_matching_all {A : Type} (q : string) (l : list (string * A)) :
  fold_left (fun b p => if String.prefix q p then assoc_remove p b else b)
    (map fst l) l
  = filter (fun e => negb (String.prefix q (fst e))) l.
Proof.
  rewrite remove_matching_fold. apply filter_ext_in. intros e He.
  replace (existsb (String.eqb (fst e)) (map fst l)) with true;
    [now rewrite andb_true_r|].
  symmetry. apply existsb_exists. exists (fst e). split.
  - now apply in_map.
  - apply String.eqb_refl.
Qed.

Lemma unobserveAll_step_prefix (q : string) obs (p : string) :
  unobserveAll_step q obs p
  = if String.prefix q p then assoc_remove p obs else obs.
Proof.
  unfold unobserveAll_step. rewrite <- (indexOf_prefix_bool p q).
  destruct (indexOf p q) as [[|n]|]; try reflexivity.
  apply assoc_remove_unobserve_in.
Qed.

Lemma unbindAll_step_prefix (q : string) acc (p : string) :
  fst (unbindAll_step q acc p)
  = if String.prefix q p then assoc_remove p (fst acc) else fst acc.
Proof.
  unfold unbindAll_step. rewrite <- (indexOf_prefix_bool p q).
  destruct (indexOf p q) as [[|n]|]; try reflexivity.
  destruct (assoc p (fst acc)) eqn:E; simpl; [reflexivity|].
  symmetry. now apply assoc_remove_absent.
Qed.

Lemma fold_left_ext {A B : Type} (f g : A -> B -> A) (l : list B) (a : A) :
  (forall x y, f x y = g x y) -> fold_left f l a = fold_left g l a.
Proof.
  intros H. revert a. induction l as [|y l IH]; intros a; simpl; [reflexivity|].
  now rewrite H, IH.
Qed.

Lemma unbindAll_fold_fst (q : string) (ks : list string) :
  forall acc,
  fst (fold_left (unbindAll_step q) ks acc)
  = fold_left (fun b p => if String.prefix q p then assoc_remove p b else b)
      ks (fst acc).
Proof.
  induction ks as [|p ks IH]; intros acc; simpl; [reflexivity|].
  now rewrite IH, unbindAll_step_prefix.
Qed.

Lemma unbindAll_result (q : option string) (st : state) :
  exists tr,
    unbindAll q st
    = Ok tt (with_bindings
               (filter (fun e => negb (String.prefix (or_empty q) (fst e)))
                  (bindings st)) st) tr
    /\ Forall (fun e => match e with ListenerRemoved _ _ => True | _ => False end) tr.
Proof.
  unfold unbindAll.
  eexists. split.
  - now rewrite unbindAll_fold_fst, remove_matching_all.
  - generalize (map fst (bindings st)) as ks.
    assert (G : forall ks acc,
      Forall (fun e => match e with ListenerRemoved _ _ => True | _ => False end) (snd acc) ->
      Forall (fun e => match e with ListenerRemoved _ _ => True | _ => False end)
        (snd (fold_left (unbindAll_step (or_empty q)) ks acc))).
    { induction ks as [|p ks IH]; intros acc Hacc; simpl; [exact Hacc|].
      apply IH. unfold unbindAll_step. destruct acc as [bs tr0]; simpl in *.
      destruct (indexOf p (or_empty q)) as [[|n]|]; try exact Hacc.
      destruct (assoc p bs) as [attrs|] eqn:Ea; [|exact Hacc]. simpl.
      apply Forall_app. split; [exact Hacc|].
      unfold listeners_removed. apply Forall_flat_map.
      apply Forall_forall. intros a _. apply Forall_map.
      apply Forall_forall. now intros b _. }
    intros ks. apply G. constructor.
Qed.

Lemma unobserveAll_result (q : option string) (st : state) :
  unobserveAll q st
  = Ok tt (with_observables
             (filter (fun e => negb (String.prefix (or_empty q) (fst e)))
                (observables st)) st) [].
Proof.
  unfold unobserveAll, modify. do 2 f_equal.
  rewrite <- remove_matching_all. apply fold_left_ext.
  intros. apply unobserveAll_step_prefix.
Qed.

(** C8.  [unbindAll(q)] and [unobserveAll(q)] remove exactly the stored
    registrations whose path string starts with [q], character by
    character and whatever the segments: ["user"] removes ["user"],
    ["user.a"] and the unrelated ["username"], and nothing else. *)
Theorem bulk_removal_is_character_prefix (q : string) (st : state) :
  (exists tr,
     unbindAll (Some q) st
     = Ok tt (with_bindings
                (filter (fun e => negb (String.prefix q (fst e))) (bindings st))
                st) tr)
  /\ unobserveAll (Some q) st
     = Ok tt (with_observables
                (filter (fun e => negb (String.prefix q (fst e))) (observables st))
                st) []
  /\ (forall k,
        assoc k (filter (fun e => negb (String.prefix q (fst e))) (bindings st))
        = if String.prefix q k then None else assoc k (bindings st))
  /\ (forall k,
        assoc k (filter (fun e => negb (String.prefix q (fst e))) (observables st))
        = if String.prefix q k then None else assoc k (observables st))
  /\ (let b := [mkBinding 1 (mkOptions "change" true)] in
      let o := [mkObserver 1 None] in
      let reg := mkState VNull
                   [("user", [("value", b)]); ("other", [("value", b)]);
                    ("user.a", [("value", b)]); ("username", [("value", b)])]
                   [("username", o); ("user.a", o); ("use", o); ("user", o)] 0 in
      (exists tr, unbindAll (Some "user") reg
                  = Ok tt (with_bindings [("other", [("value", b)])] reg) tr)
      /\ unobserveAll (Some "user") reg
         = Ok tt (with_observables [("use", o)] reg) []).
Proof.
  split; [|split; [|split; [|split]]].
  - destruct (unbindAll_result (Some q) st) as (tr & H & _). now exists tr.
  - apply (unobserveAll_result (Some q)).
  - intros k. rewrite (assoc_filter_keys (fun x => negb (String.prefix q x))).
    now destruct (String.prefix q k).
  - intros k. rewrite (assoc_filter_keys (fun x => negb (String.prefix q x))).
    now destruct (String.prefix q k).
  - simpl. split; [eexists|]; reflexivity.
Qed.

(* ================================================================== *)
(** ** The notification protocol with observers that do not re-enter *)
(* ================================================================== *)

Lemma mbind_ok {A B} (m : M A) (f : A -> M B) st a st1 tr1 :
  m st = Ok a st1 tr1 -> mbind m f st = after tr1 (f a st1).
Proof. unfold mbind. now intros ->. Qed.


Lemma after_nil {B} (o : outcome B) : after [] o = o.
Proof. now destruct o. Qed.


Lemma max_observers_bound obs k (l : list observer) :
  assoc k obs = Some l -> List.length l <= max_observers obs.
Proof.
  intros H. apply assoc_In in H. unfold max_observers.
  assert (G : Forall (fun n => n <= list_max (map (fun e => List.length (snd e)) obs))
                (map (fun e : string * list observer => List.length (snd e)) obs))
    by now apply list_max_le.
  rewrite Forall_forall in G. apply G.
  now apply (in_map (fun e : string * list observer => List.length (snd e))) in H.
Qed.

Lemma skipn_nth_error_cons {A : Type} (l : list A) (i : nat) (x : A) :
  nth_error l i = Some x -> skipn i l = x :: skipn (S i) l.
Proof.
  revert i. induction l as [|y l IH]; intros [|i] H; try discriminate.
  - now injection H as ->.
  - simpl in H. apply IH in H. exact H.
Qed.

Lemma observers_loop_opaque (k : string) (note : observer -> notification)
  (st : state) (l : list observer) :
  assoc k (observables st) = Some l ->
  forall n i, List.length l - i < n ->
  observers_loop opaque n k i note st
  = Ok tt st (map (fun o => Notified (callback o) (note o)) (skipn i l)).
Proof.
  intros Hl. induction n as [|n IH]; intros i Hn; [lia|].
  simpl. rewrite Hl.
  destruct (nth_error l i) as [o|] eqn:Ei.
  - assert (Hlt : i < List.length l) by (apply nth_error_Some; congruence).
    rewrite (mbind_ok _ _ st tt st [Notified (callback o) (note o)]) by reflexivity.
    rewrite IH by lia. rewrite (skipn_nth_error_cons l i o Ei). reflexivity.
  - apply nth_error_None in Ei. now rewrite skipn_all2.
Qed.

Lemma notifyObserversForPath_opaque (fuel : nat) (path : option string)
  (v : value) (cp : string) (a : action) (el : option elem) (st : state) :
  max_observers (observables st) < fuel ->
  notifyObserversForPath opaque fuel path v cp a el st
  = Ok tt st (observer_calls (observables st) path v cp a el).
Proof.
  intros Hf. unfold notifyObserversForPath, observer_calls.
  destruct (assoc (obs_key path) (observables st)) as [l|] eqn:El; [|reflexivity].
  rewrite (observers_loop_opaque _ _ _ l El).
  - reflexivity.
  - apply max_observers_bound in El. lia.
Qed.

Lemma ancestors_loop_opaque (fuel : nat) (path : string) (a : action)
  (el : option elem) (st : state) :
  max_observers (observables st) < fuel ->
  forall rparts,
  ancestors_loop opaque fuel rparts path a el st
  = Ok tt st (ancestor_calls st path a el (visited rparts)).
Proof.
  intros Hf. induction rparts as [|x rest IH]; [reflexivity|].
  cbn [ancestors_loop visited ancestor_calls flat_map].
  set (cur := join (rev (x :: rest))).
  assert (E : (registered <- read (fun st => assoc cur (observables st)) ;;
               match registered with
               | Some _ =>
                   value <- get cur ;;
                   notifyObserversForPath opaque fuel (Some cur) value path a el
               | None => mret tt
               end) st
              = Ok tt st (observer_calls (observables st) (Some cur)
                            (get_in (data st) cur false) path a el)).
  { rewrite (mbind_ok _ _ st (assoc cur (observables st)) st []) by reflexivity.
    rewrite after_nil. unfold observer_calls at 1. cbn [obs_key].
    destruct (assoc cur (observables st)) as [l|] eqn:El; [|reflexivity].
    rewrite (mbind_ok _ _ st (get_in (data st) cur false) st []) by reflexivity.
    rewrite after_nil, notifyObserversForPath_opaque by exact Hf.
    unfold observer_calls. cbn [obs_key]. now rewrite El. }
  rewrite (mbind_ok _ _ _ _ _ _ E), IH. reflexivity.
Qed.

Lemma firstn_removelast {A : Type} (l : list A) (n : nat) :
  n <= List.length l - 1 -> firstn n (removelast l) = firstn n l.
Proof.
  revert n. induction l as [|x l IH]; intros n Hn; [reflexivity|].
  destruct l as [|y l].
  - simpl in Hn. assert (n = 0) by lia. now subst.
  - destruct n as [|n]; [reflexivity|].
    change (removelast (x :: y :: l)) with (x :: removelast (y :: l)).
    simpl firstn. f_equal. apply IH. simpl in *. lia.
Qed.

Lemma length_removelast {A : Type} (l : list A) :
  List.length (removelast l) = List.length l - 1.
Proof.
  induction l as [|x l IH]; [reflexivity|].
  destruct l as [|y l]; [reflexivity|].
  change (removelast (x :: y :: l)) with (x :: removelast (y :: l)).
  simpl List.length in *. lia.
Qed.

Lemma visited_rev (parts : list string) :
  visited (rev parts)
  = map (fun n => join (firstn n parts)) (rev (seq 1 (List.length parts))).
Proof.
  induction parts as [|x parts IH] using rev_ind; [reflexivity|].
  rewrite rev_app_distr. cbn [rev app visited].
  rewrite IH, rev_involutive, length_app. cbn [List.length].
  rewrite Nat.add_1_r, seq_S, rev_app_distr. cbn [rev app map].
  f_equal.
  - replace (1 + List.length parts) with (List.length (parts ++ [x]))
      by (rewrite length_app; simpl; lia).
    now rewrite firstn_all.
  - apply map_ext_in. intros n Hn. apply in_rev in Hn. apply in_seq in Hn.
    rewrite firstn_app. replace (n - List.length parts) with 0 by lia.
    cbn [firstn]. now rewrite app_nil_r.
Qed.

(** The [while] loop visits the proper ancestors, deepest first. *)
Lemma visited_ancestors (path : string) :
  visited (rev (removelast (split path))) = ancestors path.
Proof.
  rewrite visited_rev. unfold ancestors. rewrite length_removelast.
  apply map_ext_in. intros n Hn. apply in_rev in Hn. apply in_seq in Hn.
  f_equal. apply firstn_removelast. lia.
Qed.

Lemma notifyObserversFromPath_opaque (fuel : nat) (path : string) (a : action)
  (el : option elem) (st : state) :
  max_observers (observables st) < fuel ->
  notifyObserversFromPath opaque fuel path a el st
  = Ok tt st (ancestor_calls st path a el (ancestors path)
              ++ observer_calls (observables st) None (data st) path a el).
Proof.
  intros Hf. unfold notifyObserversFromPath.
  rewrite (mbind_ok _ _ _ _ _ _ (ancestors_loop_opaque fuel path a el st Hf _)).
  rewrite (mbind_ok _ _ st (data st) st []) by reflexivity.
  rewrite after_nil, notifyObserversForPath_opaque by exact Hf.
  now rewrite visited_ancestors.
Qed.

Lemma notify_opaque (fuel : nat) (path : string) (v : value) (a : action)
  (el : option elem) (st : state) :
  max_observers (observables st) < fuel ->
  notify opaque fuel path v a el st = Ok tt st (notify_trace st path v a el).
Proof.
  intros Hf. unfold notify, notify_trace.
  rewrite (mbind_ok _ _ st tt st (updateBoundElementsForPath (bindings st) path v))
    by reflexivity.
  rewrite (mbind_ok _ _ st tt st (updateBoundElementsAtPath (bindings st) path v))
    by reflexivity.
  rewrite (mbind_ok _ _ st (assoc path (observables st)) st []) by reflexivity.
  rewrite after_nil.
  assert (E : match assoc path (observables st) with
              | Some _ => notifyObserversForPath opaque fuel (Some path) v path a el
              | None => mret tt
              end st
              = Ok tt st (observer_calls (observables st) (Some path) v path a el)).
  { destruct (assoc path (observables st)) eqn:El.
    - now apply notifyObserversForPath_opaque.
    - unfold observer_calls. cbn [obs_key]. now rewrite El. }
  rewrite (mbind_ok _ _ _ _ _ _ E).
  rewrite notifyObserversFromPath_opaque by exact Hf.
  reflexivity.
Qed.

(** *** Binding updates are the only events of the binding phase *)

Lemma updateBoundElementsForPath_dom bs path v :
  forallb is_dom_update (updateBoundElementsForPath bs path v) = true.
Proof.
  unfold updateBoundElementsForPath.
  destruct (assoc path bs) as [attrs|]; [|reflexivity].
  induction attrs as [|a attrs IH]; [reflexivity|].
  cbn [flat_map]. rewrite forallb_app, IH, andb_true_r.
  unfold updateBoundElementsForPathAndAttribute.
  destruct (assoc path bs) as [attrs'|]; [|reflexivity].
  destruct (assoc (fst a) attrs') as [l|]; [|reflexivity].
  now induction l.
Qed.

Lemma recursivly_fields bs path r fields :
  updateBoundElementsAtPathRecursivly bs path (VObj r fields)
  = updateBoundElementsForPath bs path (VObj r fields)
    ++ updateBoundElementsAtPath bs path (VObj r fields).
Proof.
  cbn [updateBoundElementsAtPathRecursivly updateBoundElementsAtPath]. f_equal.
  induction fields as [|[k v] fields IH]; [reflexivity|].
  cbn [flat_map fst snd]. now rewrite IH.
Qed.

Lemma each_elems bs path (elems : list value) :
  forall i,
  (fix each (i : nat) (es : list value) : trace :=
     match es with
     | [] => []
     | v :: es' =>
         updateBoundElementsAtPathRecursivly bs (path ++ "." ++ string_of_nat i) v
         ++ each (S i) es'
     end) i elems
  = flat_map (fun f =>
      updateBoundElementsAtPathRecursivly bs
        (path ++ "." ++ string_of_nat (fst f)) (snd f))
      (combine (seq i (List.length elems)) elems).
Proof.
  induction elems as [|v elems IH]; intros i; [reflexivity|].
  cbn [List.length seq combine flat_map fst snd]. now rewrite IH.
Qed.

Lemma recursivly_elems bs path r elems :
  updateBoundElementsAtPathRecursivly bs path (VArr r elems)
  = updateBoundElementsForPath bs path (VArr r elems)
    ++ updateBoundElementsAtPath bs path (VArr r elems).
Proof.
  cbn [updateBoundElementsAtPathRecursivly updateBoundElementsAtPath]. f_equal.
  apply each_elems.
Qed.

Lemma recursivly_unfold bs path v :
  updateBoundElementsAtPathRecursivly bs path v
  = updateBoundElementsForPath bs path v ++ updateBoundElementsAtPath bs path v.
Proof.
  destruct v; try reflexivity.
  - apply recursivly_fields.
  - apply recursivly_elems.
Qed.

Lemma forallb_flat_map {A B : Type} (p : B -> bool) (f : A -> list B) (l : list A) :
  Forall (fun x => forallb p (f x) = true) l -> forallb p (flat_map f l) = true.
Proof.
  induction 1 as [|x l Hx _ IH]; [reflexivity|].
  cbn [flat_map]. now rewrite forallb_app, Hx, IH.
Qed.

Lemma updateBoundElementsAtPathRecursivly_dom bs v :
  forall path,
  forallb is_dom_update (updateBoundElementsAtPathRecursivly bs path v) = true.
Proof.
  induction v as [| | | | | |r fields IH|r elems IH] using value_induction;
    intros path; rewrite recursivly_unfold, forallb_app,
                   updateBoundElementsForPath_dom; try reflexivity.
  - cbn [updateBoundElementsAtPath andb]. apply forallb_flat_map.
    rewrite Forall_forall in *. intros f Hf. now apply IH.
  - cbn [updateBoundElementsAtPath andb]. apply forallb_flat_map.
    rewrite Forall_forall in *. intros [i e] Hf. apply IH.
    apply in_combine_r in Hf. exact Hf.
Qed.

Lemma updateBoundElementsAtPath_dom bs path v :
  forallb is_dom_update (updateBoundElementsAtPath bs path v) = true.
Proof.
  pose proof (updateBoundElementsAtPathRecursivly_dom bs v path) as H.
  rewrite recursivly_unfold, forallb_app in H.
  now apply andb_prop in H.
Qed.

Lemma observer_calls_not_dom obs path v cp a el :
  forallb (fun e => negb (is_dom_update e)) (observer_calls obs path v cp a el)
  = true.
Proof.
  unfold observer_calls. destruct (assoc (obs_key path) obs) as [l|]; [|reflexivity].
  now induction l.
Qed.


(* ================================================================== *)
(** ** Walking and writing *)
(* ================================================================== *)

Lemma nth_error_list_set {A : Type} (l : list A) (n : nat) (x : A) :
  n < List.length l -> nth_error (list_set n x l) n = Some x.
Proof.
  revert n. induction l as [|y l IH]; intros [|n] H; simpl in *; try lia.
  - reflexivity.
  - apply IH. lia.
Qed.

Lemma length_list_set {A : Type} (l : list A) (n : nat) (x : A) :
  List.length (list_set n x l) = List.length l.
Proof.
  revert n. induction l as [|y l IH]; intros [|n]; simpl; auto.
Qed.

Lemma has_slot_write (p : value) (k : key) (X : value) :
  has_slot p k ->
  exists p', prop_set p k X = Written p' /\ isObject p' = true
             /\ prop_get p' k = Some X /\ has_slot p' k.
Proof.
  destruct p; simpl; try contradiction.
  - intros _. eexists. split; [reflexivity|]. split; [reflexivity|]. split; [|exact I].
    simpl. now rewrite assoc_set_same.
  - intros (i & Hi & Hlt). rewrite Hi.
    assert (Hb : (i <? N.of_nat (List.length elems))%N = true) by now apply N.ltb_lt.
    rewrite Hb. eexists. split; [reflexivity|]. split; [reflexivity|].
    simpl. rewrite Hi, length_list_set, Hb. split.
    + rewrite nth_error_list_set; [reflexivity|]. lia.
    + exists i. split; [reflexivity|]. exact Hlt.
Qed.

Lemma prop_get_object_slot (p : value) (k : key) (child : value) :
  isObject p = true -> prop_get p k = Some child -> isObject child = true ->
  has_slot p k.
Proof.
  destruct p; simpl; try discriminate; intros _ H Hc; [exact I|].
  destruct (key_index k) as [i|] eqn:Ei.
  - exists i. split; [reflexivity|].
    destruct (i <? N.of_nat (List.length elems))%N eqn:Hb; [now apply N.ltb_lt|].
    injection H as <-. discriminate.
  - injection H as <-. destruct (key_string k =? "length"); discriminate.
Qed.

Lemma prop_set_slot (p : value) (k : key) (Y p1 : value) :
  isObject p = true -> prop_set p k Y = Written p1 ->
  isObject p1 = true /\ has_slot p1 k.
Proof.
  destruct p; simpl; try discriminate; intros _ H.
  - injection H as <-. now split.
  - destruct (key_index k) as [i|] eqn:Ei; [|discriminate].
    destruct (i <? N.of_nat (List.length elems))%N eqn:Hb.
    + injection H as <-. split; [reflexivity|]. exists i. split; [exact Ei|].
      rewrite length_list_set. now apply N.ltb_lt.
    + destruct (i =? N.of_nat (List.length elems))%N eqn:He; [|discriminate].
      injection H as <-. split; [reflexivity|]. exists i. split; [exact Ei|].
      apply N.eqb_eq in He. rewrite length_app. simpl. lia.
Qed.

Lemma get_step_slot (p : value) (cur : string) (X : value) :
  isObject p = true -> prop_get p (KStr cur) = Some X -> isObject X = true ->
  get_step false p cur = X.
Proof.
  intros Hp Hg HX. unfold get_step.
  replace (truthy p) with true by (destruct p; try discriminate; reflexivity).
  rewrite Hg. destruct X; try discriminate; reflexivity.
Qed.

Lemma plug_cons (X : value) (prev : value) (cur : string) ctx :
  plug X ((prev, cur) :: ctx) = plug (put_child prev cur X) ctx.
Proof. reflexivity. Qed.

(** After the walk, the object placed at the end of it is found again by
    following the same segments from the new root. *)
Lemma descend_plug (segs : list string) :
  forall prev nxt ctx c nxt',
  isObject prev = true ->
  descend prev segs nxt ctx = Reached c nxt' ->
  forall X, isObject X = true ->
  exists root, plug X (frames c) = plug root ctx
               /\ isObject root = true /\ get_segs root segs = X.
Proof.
  induction segs as [|cur rest IH]; intros prev nxt ctx c nxt' Hp Hd X HX.
  - injection Hd as <- _. now exists X.
  - cbn [descend] in Hd.
    destruct (prop_get prev (KStr cur)) as [child|] eqn:Eg; [|discriminate].
    destruct (isObject child) eqn:Ec.
    + destruct (IH _ _ _ _ _ Ec Hd X HX) as (root & Hplug & Hr & Hget).
      pose proof (prop_get_object_slot _ _ _ Hp Eg Ec) as Hs.
      destruct (has_slot_write _ _ root Hs) as (p' & Hw & Hp' & Hg' & _).
      exists p'. rewrite Hplug, plug_cons. unfold put_child. rewrite Hw.
      split; [reflexivity|]. split; [exact Hp'|].
      unfold get_segs in *. cbn [fold_left].
      now rewrite (get_step_slot _ _ _ Hp' Hg' Hr).
    + destruct (prop_set prev (KStr cur) (VObj nxt [])) as [prev1| |] eqn:Ew;
        try discriminate.
      destruct (IH (VObj nxt []) _ _ _ _ eq_refl Hd X HX) as (root & Hplug & Hr & Hget).
      destruct (prop_set_slot _ _ _ _ Hp Ew) as [Hp1 Hs].
      destruct (has_slot_write _ _ root Hs) as (p' & Hw & Hp' & Hg' & _).
      exists p'. rewrite Hplug, plug_cons. unfold put_child. rewrite Hw.
      split; [reflexivity|]. split; [exact Hp'|].
      unfold get_segs in *. cbn [fold_left].
      now rewrite (get_step_slot _ _ _ Hp' Hg' Hr).
Qed.

Lemma descend_focus_object (segs : list string) :
  forall prev nxt ctx c nxt',
  isObject prev = true ->
  descend prev segs nxt ctx = Reached c nxt' ->
  isObject (focus c) = true.
Proof.
  induction segs as [|cur rest IH]; intros prev nxt ctx c nxt' Hp Hd.
  - now injection Hd as <- _.
  - cbn [descend] in Hd.
    destruct (prop_get prev (KStr cur)) as [child|]; [|discriminate].
    destruct (isObject child) eqn:Ec; [now apply (IH _ _ _ _ _ Ec Hd)|].
    destruct (prop_set prev (KStr cur) (VObj nxt [])); try discriminate.
    now apply (IH (VObj nxt []) _ _ _ _ eq_refl Hd).
Qed.

Lemma get_after_walk (d : value) (segs : list string) nxt c nxt' (X : value) :
  isObject d = true ->
  descend d segs nxt [] = Reached c nxt' ->
  isObject X = true ->
  get_segs (plug X (frames c)) segs = X.
Proof.
  intros Hd Hw HX.
  destruct (descend_plug segs _ _ _ _ _ Hd Hw X HX) as (root & Hplug & _ & Hget).
  now rewrite Hplug.
Qed.

Lemma walk_reached (path : string) (st : state) c nxt :
  descend (data st) (removelast (split path)) (next_ref st) [] = Reached c nxt ->
  walk path st
  = Ok (c, last (split path) "")
       (mkState (plug (focus c) (frames c)) (bindings st) (observables st) nxt) [].
Proof. unfold walk. now intros ->. Qed.

(** [set] when it does write: the walk, the write and one notification. *)
Lemma set_writes (fuel : nat) (path : string) (V : value) (el : option elem)
  (st : state) c nxt old prev' :
  strict_eq (get_in (data st) path false) V = false ->
  descend (data st) (removelast (split path)) (next_ref st) [] = Reached c nxt ->
  prop_get (focus c) (fst (set_target (focus c) path (last (split path) "")))
  = Some old ->
  prop_set (focus c) (fst (set_target (focus c) path (last (split path) ""))) V
  = Written prev' ->
  max_observers (observables st) < fuel ->
  set opaque fuel path V el st
  = Ok (Some (snd (set_target (focus c) path (last (split path) ""))))
       (mkState (plug prev' (frames c)) (bindings st) (observables st) nxt)
       (notify_trace
          (mkState (plug prev' (frames c)) (bindings st) (observables st) nxt)
          (snd (set_target (focus c) path (last (split path) ""))) V
          (if is_undefined old then Create else Update) el).
Proof.
  intros Hne Hd Hg Hs Hf. unfold set.
  rewrite (mbind_ok _ _ st (get_in (data st) path false) st []) by reflexivity.
  rewrite after_nil, Hne.
  rewrite (mbind_ok _ _ _ _ _ _ (walk_reached path st c nxt Hd)).
  rewrite after_nil. cbn [fst snd]. rewrite Hg, Hs. cbn [write].
  erewrite mbind_ok by reflexivity. rewrite after_nil.
  erewrite mbind_ok by (apply notify_opaque; exact Hf).
  cbn. now rewrite app_nil_r.
Qed.

(** *** A path that leads to an object is walked without a change *)

Lemma get_step_primitive (b : bool) (v : value) (k : string) :
  isObject v = false -> isObject (get_step b v k) = false.
Proof.
  intros Hv. unfold get_step.
  destruct (truthy v); [|now destruct b].
  destruct v; try discriminate; cbn [prop_get].
  - now destruct b.
  - now destruct b.
  - now destruct b.
  - now destruct b.
  - now destruct b.
  - destruct (key_index (KStr k)) as [i|].
    + destruct (i <? N.of_nat (String.length s))%N; [|now destruct b].
      destruct (string_nth (N.to_nat i) s); [reflexivity|now destruct b].
    + destruct (key_string (KStr k) =? "length"); [reflexivity|now destruct b].
Qed.

Lemma get_segs_primitive (segs : list string) :
  forall v, isObject v = false -> isObject (get_segs v segs) = false.
Proof.
  induction segs as [|k segs IH]; intros v Hv; [exact Hv|].
  unfold get_segs in *. cbn [fold_left]. apply IH. now apply get_step_primitive.
Qed.

Lemma get_step_object (v : value) (k : string) :
  isObject (get_step false v k) = true ->
  prop_get v (KStr k) = Some (get_step false v k).
Proof.
  unfold get_step. destruct (truthy v); [|discriminate].
  destruct (prop_get v (KStr k)) as [x|]; [|discriminate].
  destruct (is_undefined x); [discriminate|reflexivity].
Qed.

Lemma get_segs_object_root (segs : list string) (d X : value) :
  get_segs d segs = X -> isObject X = true -> isObject d = true.
Proof.
  intros H HX. destruct (isObject d) eqn:E; [reflexivity|].
  apply (get_segs_primitive segs) in E. congruence.
Qed.

Lemma descend_existing (segs : list string) :
  forall d nxt ctx X,
  isObject X = true -> get_segs d segs = X ->
  exists frames, descend d segs nxt ctx = Reached (mkCursor X frames) nxt.
Proof.
  induction segs as [|cur rest IH]; intros d nxt ctx X HX Hget.
  - cbn in Hget. subst d. now exists ctx.
  - unfold get_segs in Hget. cbn [fold_left] in Hget.
    assert (HY : isObject (get_step false d cur) = true)
      by (apply (get_segs_object_root rest _ X Hget HX)).
    cbn [descend]. rewrite (get_step_object _ _ HY), HY.
    now apply IH.
Qed.

(* ================================================================== *)
(** ** [set] on a sequence *)
(* ================================================================== *)

Lemma digit_not_sign_or_space (c : ascii) (d : N) :
  digit_of c = Some d ->
  is_ws c = false /\ c <> "-"%char /\ c <> "+"%char.
Proof.
  destruct c as [[] [] [] [] [] [] [] []]; cbv; intros H;
    try discriminate H; repeat split; discriminate.
Qed.

Lemma digits_prefix_starts (s : string) (n : N) :
  digits_prefix s None = Some n ->
  exists c r d, s = String c r /\ digit_of c = Some d.
Proof.
  destruct s as [|c r]; simpl; [discriminate|].
  destruct (digit_of c) as [d|] eqn:E; [|discriminate].
  intros _. now exists c, r, d.
Qed.

Lemma array_index_canonical (s : string) (n : N) :
  array_index s = Some n ->
  s = string_of_N n /\ digits_prefix s None = Some n.
Proof.
  unfold array_index. destruct (digits_prefix s None) as [m|]; [|discriminate].
  destruct (string_of_N m =? s) eqn:E; [|discriminate].
  destruct (m <? 4294967295)%N; [|discriminate].
  intros [= <-]. apply String.eqb_eq in E. now split.
Qed.

(** An array index reads as the same number with [parseInt]. *)
Lemma parseInt_array_index (s : string) (n : N) :
  array_index s = Some n -> parseInt s = Some (Z.of_N n).
Proof.
  intros H. apply array_index_canonical in H as [_ H].
  destruct (digits_prefix_starts _ _ H) as (c & r & d & -> & Hd).
  destruct (digit_not_sign_or_space _ _ Hd) as (Hws & Hm & Hp).
  unfold parseInt. cbn [skip_ws]. rewrite Hws.
  destruct c as [[] [] [] [] [] [] [] []];
    try (exfalso; apply Hm; reflexivity);
    try (exfalso; apply Hp; reflexivity);
    now rewrite H.
Qed.

Lemma set_target_sequence (r : ref) (elems : list value) (path cur : string) (i : Z) :
  parseInt cur = Some i ->
  ((0 <= i <= Z.of_nat (List.length elems))%Z -> array_index cur <> None) ->
  let j := clamp_index i (List.length elems) in
  key_index (fst (set_target (VArr r elems) path cur)) = Some (N.of_nat j)
  /\ snd (set_target (VArr r elems) path cur)
     = child_path (getParentPath path) (string_of_N (N.of_nat j))
  /\ j <= List.length elems.
Proof.
  intros Hp Hc. cbv zeta. unfold set_target, clamp_index. rewrite Hp.
  destruct (i >? Z.of_nat (List.length elems))%Z eqn:Hhi.
  - cbn. repeat split. lia.
  - destruct (i <? 0)%Z eqn:Hlo.
    + cbn. repeat split. lia.
    + assert (Hr : (0 <= i <= Z.of_nat (List.length elems))%Z) by lia.
      destruct (array_index cur) as [n|] eqn:En; [|now elim (Hc Hr)].
      pose proof (parseInt_array_index _ _ En) as Hp'.
      rewrite Hp in Hp'. injection Hp' as ->.
      destruct (array_index_canonical _ _ En) as [Hs _].
      replace (N.of_nat (Z.to_nat (Z.of_N n))) with n by lia.
      cbn [fst snd key_index key_string]. rewrite En, <- Hs.
      repeat split. lia.
Qed.

Lemma prop_set_sequence (r : ref) (elems : list value) (k : key) (j : nat)
  (V : value) :
  key_index k = Some (N.of_nat j) -> j <= List.length elems ->
  prop_set (VArr r elems) k V = Written (VArr r (write_at j V elems)).
Proof.
  intros Hk Hj. cbn [prop_set]. rewrite Hk. unfold write_at.
  rewrite Nat2N.id.
  destruct (Nat.ltb j (List.length elems)) eqn:E.
  - apply Nat.ltb_lt in E.
    replace (N.of_nat j <? N.of_nat (List.length elems))%N with true
      by (symmetry; apply N.ltb_lt; lia).
    reflexivity.
  - apply Nat.ltb_ge in E. assert (j = List.length elems) by lia. subst j.
    now rewrite N.ltb_irrefl, N.eqb_refl.
Qed.

(** C4.  When the last segment of the path addresses a sequence, [set]
    writes at the numeric index clamped into [0, length]: an index beyond
    the end becomes the position just after the last element, a negative
    one becomes 0, and the path returned carries the clamped index.  The
    path names no inherited member. *)
Theorem set_clamps_sequence_index (fuel : nat) (st : state) (path : string)
  (V : value) (el : option elem) (r : ref) (elems : list value) (i : Z) :
  plain_path path = true ->
  get_segs (data st) (removelast (split path)) = VArr r elems ->
  parseInt (last (split path) "") = Some i ->
  ((0 <= i <= Z.of_nat (List.length elems))%Z ->
   array_index (last (split path) "") <> None) ->
  strict_eq (get_in (data st) path false) V = false ->
  max_observers (observables st) < fuel ->
  let len := List.length elems in
  let j := if (i >? Z.of_nat len)%Z then len
           else if (i <? 0)%Z then 0 else Z.to_nat i in
  j <= len
  /\ exists st' tr,
       set opaque fuel path V el st
       = Ok (Some (child_path (getParentPath path) (string_of_N (N.of_nat j))))
            st' tr
       /\ get_segs (data st') (removelast (split path))
          = VArr r (write_at j V elems).
Proof.
  intros _ Hparent Hp Hc Hne Hf. cbv zeta.
  fold (clamp_index i (List.length elems)).
  destruct (set_target_sequence r elems path _ i Hp Hc) as (Hk & Hpath & Hj).
  split; [exact Hj|].
  pose proof (get_segs_object_root _ _ _ Hparent eq_refl) as Hroot.
  destruct (descend_existing _ (data st) (next_ref st) [] (VArr r elems) eq_refl
              Hparent)
    as [fr Hd].
  assert (Hg : exists old,
             prop_get (VArr r elems)
               (fst (set_target (VArr r elems) path (last (split path) "")))
             = Some old).
  { cbn [prop_get]. rewrite Hk. eauto. }
  destruct Hg as [old Hg].
  pose proof (prop_set_sequence r elems _ _ V Hk Hj) as Hs.
  pose proof (set_writes fuel path V el st _ _ old _ Hne Hd Hg Hs Hf) as E.
  cbn [focus frames] in E. rewrite Hpath in E.
  do 2 eexists. split; [exact E|]. cbn [data].
  exact (get_after_walk _ _ _ _ _ (VArr r _) Hroot Hd eq_refl).
Qed.

Lemma set_clamps_sequence_index_witness :
  let st := mkState (VObj 0 [("list", VArr 1 [VStr "x"; VStr "y"])]) [] [] 2 in
  exists st' tr,
    set opaque 1 "list.10" (VStr "z") None st = Ok (Some "list.2") st' tr
    /\ get_in (data st') "list" false = VArr 1 [VStr "x"; VStr "y"; VStr "z"].
Proof.
  cbv zeta.
  destruct (set_clamps_sequence_index 1
              (mkState (VObj 0 [("list", VArr 1 [VStr "x"; VStr "y"])]) [] [] 2)
              "list.10" (VStr "z") None 1 [VStr "x"; VStr "y"] 10
              eq_refl eq_refl eq_refl ltac:(cbn; lia) eq_refl ltac:(vm_compute; lia))
    as (_ & st' & tr & E & Hdata).
  exists st', tr. split; [exact E|]. exact Hdata.
Defined.

(* ================================================================== *)
(** ** [set] with a composite value *)
(* ================================================================== *)

Lemma nth_error_write_at {A : Type} (l : list A) (j : nat) (x : A) :
  j <= List.length l ->
  nth_error (write_at j x l) j = Some x /\ j < List.length (write_at j x l).
Proof.
  intros Hj. unfold write_at. destruct (Nat.ltb j (List.length l)) eqn:E.
  - apply Nat.ltb_lt in E. rewrite length_list_set.
    split; [now apply nth_error_list_set|exact E].
  - apply Nat.ltb_ge in E. assert (j = List.length l) by lia. subst j.
    rewrite length_app. simpl. split; [|lia].
    rewrite nth_error_app2 by lia. now rewrite Nat.sub_diag.
Qed.

Lemma set_target_supported (prev : value) (path cur : string) (V : value) :
  isObject prev = true -> addressable prev cur ->
  exists old prev',
    prop_get prev (fst (set_target prev path cur)) = Some old
    /\ prop_set prev (fst (set_target prev path cur)) V = Written prev'
    /\ prop_get prev' (fst (set_target prev path cur)) = Some V.
Proof.
  destruct prev; try discriminate; intros _ Ha.
  - cbn [set_target fst prop_get prop_set key_string].
    do 2 eexists. split; [reflexivity|]. split; [reflexivity|].
    cbn [prop_get key_string]. now rewrite assoc_set_same.
  - destruct Ha as (i & Hp & Hc).
    destruct (set_target_sequence r elems path cur i Hp Hc) as (Hk & _ & Hj).
    rewrite (prop_set_sequence r elems _ _ V Hk Hj).
    cbn [prop_get]. rewrite Hk.
    destruct (nth_error_write_at elems _ V Hj) as [Hn Hl].
    do 2 eexists. split; [reflexivity|]. split; [reflexivity|].
    cbn [prop_get]. rewrite Hk, Nat2N.id, Hn.
    replace (N.of_nat (clamp_index i (List.length elems))
             <? N.of_nat (List.length (write_at (clamp_index i (List.length elems)) V elems)))%N
      with true by (symmetry; apply N.ltb_lt; lia).
    reflexivity.
Qed.

(** [set] of a value that is not the one stored: it is written where the
    walk arrives, and notified. *)
Lemma set_writes_supported (fuel : nat) (path : string) (V : value)
  (el : option elem) (st : state) c nxt :
  strict_eq (get_in (data st) path false) V = false ->
  isObject (data st) = true ->
  descend (data st) (removelast (split path)) (next_ref st) [] = Reached c nxt ->
  addressable (focus c) (last (split path) "") ->
  max_observers (observables st) < fuel ->
  exists P' st' a parent k,
    set opaque fuel path V el st = Ok (Some P') st' (notify_trace st' P' V a el)
    /\ bindings st' = bindings st /\ observables st' = observables st
    /\ get_segs (data st') (removelast (split path)) = parent
    /\ prop_get parent k = Some V.
Proof.
  intros Hne Hroot Hd Ha Hf.
  pose proof (descend_focus_object _ _ _ _ _ _ Hroot Hd) as Hfo.
  destruct (set_target_supported _ path _ V Hfo Ha) as (old & prev' & Hg & Hs & Hg').
  pose proof (set_writes fuel path V el st c nxt old prev' Hne Hd Hg Hs Hf) as E.
  do 5 eexists. split; [exact E|]. split; [reflexivity|]. split; [reflexivity|].
  split; [reflexivity|]. cbn [data].
  rewrite (get_after_walk _ _ _ _ _ prev' Hroot Hd); [exact Hg'|].
  destruct (focus c); try discriminate.
  - cbn in Hs. now injection Hs as <-.
  - cbn in Hs. destruct (key_index _); [|discriminate].
    destruct (_ <? _)%N; [now injection Hs as <-|].
    destruct (_ =? _)%N; [now injection Hs as <-|discriminate].
Qed.

(** *** The bindings below the path written *)

Lemma binding_updated bs path attribute attrs l (b : binding) (w : value) :
  assoc path bs = Some attrs -> assoc attribute attrs = Some l -> In b l ->
  In (DomUpdate path attribute (element b) w)
     (updateBoundElementsForPath bs path w).
Proof.
  intros Hp Ha Hb. unfold updateBoundElementsForPath. rewrite Hp.
  apply in_flat_map. exists (attribute, l). split; [now apply assoc_In|].
  unfold updateBoundElementsForPathAndAttribute. cbn [fst]. rewrite Hp, Ha.
  now apply (in_map (fun b => DomUpdate path attribute (element b) w)).
Qed.

Lemma nth_error_combine_seq {A : Type} (l : list A) (i : nat) (x : A) :
  forall s, nth_error l i = Some x ->
  In (s + i, x) (combine (seq s (List.length l)) l).
Proof.
  revert i. induction l as [|y l IH]; intros [|i] s H; try discriminate.
  - injection H as ->. rewrite Nat.add_0_r. now left.
  - right. cbn [List.length seq combine].
    replace (s + S i) with (S s + i) by lia. now apply IH.
Qed.

Lemma sub_value_recursivly bs (v : value) (ks : list string) (w : value) :
  sub_value v ks w ->
  forall path,
  incl (updateBoundElementsForPath bs (descendant_path path ks) w)
       (updateBoundElementsAtPathRecursivly bs path v).
Proof.
  induction 1 as [v|r fields k v ks w Hk _ IH|r elems i v ks w Hi _ IH];
    intros path; rewrite recursivly_unfold.
  - apply incl_appl, incl_refl.
  - apply incl_appr. intros e He. cbn [updateBoundElementsAtPath].
    apply in_flat_map. exists (k, v). split; [now apply assoc_In|].
    now apply IH.
  - apply incl_appr. intros e He. cbn [updateBoundElementsAtPath].
    apply in_flat_map. exists (i, v). split.
    + exact (nth_error_combine_seq elems i v 0 Hi).
    + now apply IH.
Qed.

Lemma sub_value_below bs (V : value) (ks : list string) (w : value) (path : string) :
  sub_value V ks w -> ks <> [] ->
  incl (updateBoundElementsForPath bs (descendant_path path ks) w)
       (updateBoundElementsAtPath bs path V).
Proof.
  intros H Hne. destruct H as [v|r fields k v ks w Hk H|r elems i v ks w Hi H];
    [congruence| |]; intros e He; cbn [updateBoundElementsAtPath];
    apply in_flat_map.
  - exists (k, v). split; [now apply assoc_In|].
    now apply (sub_value_recursivly bs v ks w H).
  - exists (i, v). split; [exact (nth_error_combine_seq elems i v 0 Hi)|].
    now apply (sub_value_recursivly bs v ks w H).
Qed.

(** C5.  When [set] writes a composite value [V] at the path [P'], every
    binding registered on a path below [P'] that leads to a part [w] of
    [V] is updated with [w], however deep.  The path names no inherited
    member. *)
Theorem set_propagates_to_descendants (fuel : nat) (st : state) (path : string)
  (V : value) (el : option elem) (c : cursor) (nxt : ref) :
  plain_path path = true ->
  isObject V = true ->
  strict_eq (get_in (data st) path false) V = false ->
  isObject (data st) = true ->
  descend (data st) (removelast (split path)) (next_ref st) [] = Reached c nxt ->
  addressable (focus c) (last (split path) "") ->
  max_observers (observables st) < fuel ->
  exists P' st' tr,
    set opaque fuel path V el st = Ok (Some P') st' tr
    /\ forall ks w attribute attrs l b,
         ks <> [] -> sub_value V ks w ->
         assoc (descendant_path P' ks) (bindings st) = Some attrs ->
         assoc attribute attrs = Some l -> In b l ->
         In (DomUpdate (descendant_path P' ks) attribute (element b) w) tr.
Proof.
  intros _ HV Hne Hroot Hd Ha Hf.
  destruct (set_writes_supported fuel path V el st c nxt Hne Hroot Hd Ha Hf)
    as (P' & st' & a & parent & k & E & Hb & _).
  exists P', st', (notify_trace st' P' V a el). split; [exact E|].
  intros ks w attribute attrs l b Hks Hsub Hp Hattr Hin.
  unfold notify_trace. rewrite Hb.
  apply in_or_app. right. apply in_or_app. left.
  apply (sub_value_below (bindings st) V ks w P' Hsub Hks).
  now apply (binding_updated _ _ _ attrs l).
Qed.

Lemma set_propagates_to_descendants_witness :
  let st := mkState (VObj 0 [("a", VObj 1 [])])
              [("a.b", [("value", [mkBinding 7 (mkOptions "change" true)])])]
              [] 2 in
  exists st' tr,
    set opaque 1 "a" (VObj 2 [("b", VNum 7)]) None st = Ok (Some "a") st' tr
    /\ In (DomUpdate "a.b" "value" 7 (VNum 7)) tr.
Proof.
  cbv zeta.
  destruct (set_propagates_to_descendants 1
              (mkState (VObj 0 [("a", VObj 1 [])])
                 [("a.b", [("value", [mkBinding 7 (mkOptions "change" true)])])]
                 [] 2)
              "a" (VObj 2 [("b", VNum 7)]) None
              (mkCursor (VObj 0 [("a", VObj 1 [])]) []) 2
              eq_refl eq_refl eq_refl eq_refl eq_refl I ltac:(cbv; lia))
    as (P' & st' & tr & E & H).
  assert (HP : P' = "a").
  { cbv in E. now injection E as <- _ _. }
  subst P'. exists st', tr. split; [exact E|].
  apply (H ["b"] (VNum 7) "value"
           [("value", [mkBinding 7 (mkOptions "change" true)])]
           [mkBinding 7 (mkOptions "change" true)]
           (mkBinding 7 (mkOptions "change" true))).
  - discriminate.
  - apply (sub_field 2 [("b", VNum 7)] "b" (VNum 7) [] (VNum 7) eq_refl).
    apply sub_here.
  - reflexivity.
  - reflexivity.
  - now left.
Defined.

(* ================================================================== *)
(** ** The order of one notification *)
(* ================================================================== *)

(** C2.  Every mutation at the canonical path [P] notifies in this order:
    the bindings at [P] and those below it first, then the observers
    registered at [P], then the observers of the ancestors of [P] from the
    deepest one up, each with the value read at its own path, and last
    those of the whole document, which are looked up whether or not an
    ancestor has observers.  The first part holds an update with [V] for
    every binding at [P] and, for every binding at a path below [P] that
    leads to a part of [V], an update with that part.  The path names no
    inherited member and its ancestors are read through mappings and
    sequences, as they are after a mutation at [P]. *)
Theorem notification_order (fuel : nat) (st : state) (P : string) (V : value)
  (A : action) (el : option elem) :
  plain_path P = true ->
  reads_members (data st) (removelast (split P)) = true ->
  max_observers (observables st) < fuel ->
  let binding_updates :=
    updateBoundElementsForPath (bindings st) P V
    ++ updateBoundElementsAtPath (bindings st) P V in
  let exact := observer_calls (observables st) (Some P) V P A el in
  let upward :=
    flat_map (fun a =>
      observer_calls (observables st) (Some a) (get_in (data st) a false) P A el)
      (map (fun n => join (firstn n (split P)))
         (rev (seq 1 (List.length (split P) - 1)))) in
  let root := observer_calls (observables st) None (data st) P A el in
  notify opaque fuel P V A el st
  = Ok tt st (binding_updates ++ exact ++ upward ++ root)
  /\ forallb is_dom_update binding_updates = true
  /\ forallb (fun e => negb (is_dom_update e)) (exact ++ upward ++ root) = true
  /\ (forall attribute attrs l b,
        assoc P (bindings st) = Some attrs ->
        assoc attribute attrs = Some l -> In b l ->
        In (DomUpdate P attribute (element b) V) binding_updates)
  /\ (forall ks w attribute attrs l b,
        ks <> [] -> sub_value V ks w ->
        assoc (descendant_path P ks) (bindings st) = Some attrs ->
        assoc attribute attrs = Some l -> In b l ->
        In (DomUpdate (descendant_path P ks) attribute (element b) w)
           binding_updates).
Proof.
  intros _ _ Hf. cbv zeta. split; [|split; [|split; [|split]]].
  - rewrite notify_opaque by exact Hf. unfold notify_trace.
    now rewrite <- app_assoc.
  - now rewrite forallb_app, updateBoundElementsForPath_dom,
      updateBoundElementsAtPath_dom.
  - rewrite !forallb_app, !observer_calls_not_dom, andb_true_r. cbn [andb].
    apply forallb_flat_map. apply Forall_forall. intros a _.
    apply observer_calls_not_dom.
  - intros attribute attrs l b Hp Ha Hb. apply in_or_app. left.
    now apply (binding_updated _ _ _ attrs l).
  - intros ks w attribute attrs l b Hks Hsub Hp Ha Hb. apply in_or_app. right.
    apply (sub_value_below (bindings st) V ks w P Hsub Hks).
    now apply (binding_updated _ _ _ attrs l).
Qed.

Lemma notification_order_witness :
  let V := VObj 2 [("c", VNum 7)] in
  let doc := VObj 0 [("a", VObj 1 [("b", V)])] in
  let st := mkState doc
              [("a.b", [("value", [mkBinding 7 (mkOptions "change" true)])]);
               ("a.b.c", [("value", [mkBinding 8 (mkOptions "change" true)])])]
              [("a", [mkObserver 1 None]); ("a.b", [mkObserver 2 None]);
               ("null", [mkObserver 3 None])] 3 in
  notify opaque 2 "a.b" V Update None st
  = Ok tt st
      [DomUpdate "a.b" "value" 7 V;
       DomUpdate "a.b.c" "value" 8 (VNum 7);
       Notified 2 (mkNotification (Some "a.b") Update "a.b" V None None);
       Notified 1 (mkNotification (Some "a") Update "a.b"
                     (VObj 1 [("b", V)]) None None);
       Notified 3 (mkNotification None Update "a.b" doc None None)]
  /\ In (DomUpdate "a.b.c" "value" 8 (VNum 7))
        (updateBoundElementsForPath (bindings st) "a.b" V
         ++ updateBoundElementsAtPath (bindings st) "a.b" V).
Proof.
  cbv zeta.
  destruct (notification_order 2
              (mkState (VObj 0 [("a", VObj 1 [("b", VObj 2 [("c", VNum 7)])])])
                 [("a.b", [("value", [mkBinding 7 (mkOptions "change" true)])]);
                  ("a.b.c", [("value", [mkBinding 8 (mkOptions "change" true)])])]
                 [("a", [mkObserver 1 None]); ("a.b", [mkObserver 2 None]);
                  ("null", [mkObserver 3 None])] 3)
              "a.b" (VObj 2 [("c", VNum 7)]) Update None
              eq_refl eq_refl ltac:(vm_compute; lia))
    as (E & _ & _ & _ & Hbelow).
  split; [rewrite E; reflexivity|].
  apply (Hbelow ["c"] (VNum 7) "value"
           [("value", [mkBinding 8 (mkOptions "change" true)])]
           [mkBinding 8 (mkOptions "change" true)]
           (mkBinding 8 (mkOptions "change" true)));
    [discriminate| |reflexivity|reflexivity|now left].
  apply (sub_field 2 [("c", VNum 7)] "c" (VNum 7) [] (VNum 7) eq_refl).
  apply sub_here.
Defined.

(* ================================================================== *)
(** ** The short circuit of [set] *)
(* ================================================================== *)

Lemma strict_eq_refl (v : value) : v <> VNaN -> strict_eq v v = true.
Proof.
  destruct v; intros H; simpl; try reflexivity.
  - apply Bool.eqb_reflx.
  - apply Z.eqb_refl.
  - congruence.
  - apply String.eqb_refl.
  - apply Nat.eqb_refl.
  - apply Nat.eqb_refl.
Qed.

(** On composites [===] is identity. *)
Lemma strict_eq_same_object (X V : value) :
  isObject V = true -> (strict_eq X V = true <-> same_object X V).
Proof.
  destruct V; try discriminate; intros _; destruct X; simpl;
    try (split; [discriminate|contradiction]); apply Nat.eqb_eq.
Qed.

Lemma set_same_value (invoke : observer -> notification -> M unit) (fuel : nat)
  (path : string) (el : option elem) (st : state) :
  get_in (data st) path false <> VNaN ->
  set invoke fuel path (get_in (data st) path false) el st = Ok None st [].
Proof.
  intros H. unfold set.
  rewrite (mbind_ok _ _ st (get_in (data st) path false) st []) by reflexivity.
  now rewrite after_nil, strict_eq_refl.
Qed.

(** C3, as the code has it.  [set(p, get(p))] is a no-op for every current
    value but [NaN]: no change, no binding update, no observer call; this
    holds for primitives and for composites alike, since an object or an
    array is strictly equal to itself and to nothing else.  Setting
    another object or array, of the same structure or not, is no no-op:
    the value is written and notified (at a path that names no inherited
    member, in a document that holds no object under two paths). *)
Theorem set_skips_the_identical_value_only (fuel : nat) (st : state)
  (path : string) (el : option elem) :
  max_observers (observables st) < fuel ->
  let current := get_in (data st) path false in
  (current <> VNaN -> set opaque fuel path current el st = Ok None st [])
  /\ (forall V, isObject V = true ->
        (strict_eq current V = true <-> same_object current V))
  /\ (forall V c nxt,
        isObject V = true -> ~ same_object current V ->
        plain_path path = true -> no_sharing (data st) ->
        isObject (data st) = true ->
        descend (data st) (removelast (split path)) (next_ref st) []
        = Reached c nxt ->
        addressable (focus c) (last (split path) "") ->
        exists P' st' a parent k,
          set opaque fuel path V el st
          = Ok (Some P') st' (notify_trace st' P' V a el)
          /\ get_segs (data st') (removelast (split path)) = parent
          /\ prop_get parent k = Some V
          /\ (forall l o, assoc "null" (observables st) = Some l -> In o l ->
                In (Notified (callback o)
                      (mkNotification None a P' (data st') el (context o)))
                   (notify_trace st' P' V a el))).
Proof.
  intros Hf. cbv zeta. split; [|split].
  - apply set_same_value.
  - intros V HV. now apply strict_eq_same_object.
  - intros V c nxt HV Hdiff _ _ Hroot Hd Ha.
    assert (Hne : strict_eq (get_in (data st) path false) V = false).
    { destruct (strict_eq (get_in (data st) path false) V) eqn:E; [|reflexivity].
      apply (strict_eq_same_object _ _ HV) in E. contradiction. }
    destruct (set_writes_supported fuel path V el st c nxt Hne Hroot Hd Ha Hf)
      as (P' & st' & a & parent & k & E & _ & Hobs & Hget & Hprop).
    exists P', st', a, parent, k. repeat split; try assumption.
    intros l o Hl Ho. unfold notify_trace.
    do 4 (apply in_or_app; right).
    unfold observer_calls. cbn [obs_key]. rewrite Hobs, Hl.
    now apply (in_map (fun o => Notified (callback o)
                        (mkNotification None a P' (data st') el (context o)))).
Qed.

Lemma set_skips_the_identical_value_only_witness :
  let st := mkState (VObj 0 [("a", VObj 1 [("b", VNum 1)])]) []
              [("null", [mkObserver 1 None])] 2 in
  let V := VObj 9 [("b", VNum 1)] in
  same_structure (get_in (data st) "a" false) V = true
  /\ set opaque 2 "a" (get_in (data st) "a" false) None st = Ok None st []
  /\ exists P' st' a parent k,
       set opaque 2 "a" V None st = Ok (Some P') st' (notify_trace st' P' V a None)
       /\ get_segs (data st') [] = parent
       /\ prop_get parent k = Some V
       /\ In (Notified 1 (mkNotification None a P' (data st') None None))
             (notify_trace st' P' V a None).
Proof.
  cbv zeta.
  destruct (set_skips_the_identical_value_only 2
              (mkState (VObj 0 [("a", VObj 1 [("b", VNum 1)])]) []
                 [("null", [mkObserver 1 None])] 2)
              "a" None ltac:(vm_compute; lia)) as (H1 & _ & H3).
  split; [reflexivity|]. split; [apply H1; discriminate|].
  destruct (H3 (VObj 9 [("b", VNum 1)])
              (mkCursor (VObj 0 [("a", VObj 1 [("b", VNum 1)])]) []) 2
              eq_refl ltac:(vm_compute; intro; discriminate) eq_refl
              ltac:(vm_compute; repeat constructor; simpl; intuition discriminate)
              eq_refl eq_refl I)
    as (P' & st' & a & parent & k & E & Hget & Hprop & Hcall).
  exists P', st', a, parent, k. repeat split; try assumption.
  exact (Hcall [mkObserver 1 None] (mkObserver 1 None) eq_refl (or_introl eq_refl)).
Defined.

(** C3 as stated fails twice: a composite current value is considered
    equal to itself, so that setting it again neither mutates nor
    notifies; and the primitive [NaN] is never equal to itself, so that
    setting it again does notify. *)
Lemma set_same_object_is_skipped :
  (let o := VObj 1 [("b", VNum 1)] in
   let st := mkState (VObj 0 [("a", o)]) [] [("null", [mkObserver 1 None])] 2 in
   isObject (get_in (data st) "a" false) = true
   /\ same_structure (get_in (data st) "a" false) o = true
   /\ set opaque 2 "a" o None st = Ok None st [])
  /\ (let st := mkState (VObj 0 [("x", VNaN)]) [] [("null", [mkObserver 1 None])] 1 in
      is_primitive (get_in (data st) "x" false) = true
      /\ set opaque 2 "x" (get_in (data st) "x" false) None st
         = Ok (Some "x") st
             [Notified 1 (mkNotification None Update "x" (data st) None None)]).
Proof. repeat split. Qed.

(** C9.  The short circuit leaves [set] by a bare [return]: the call
    gives [undefined], not a path. *)
Lemma set_returns_undefined_when_unchanged :
  let st := mkState (VObj 0 [("a", VNum 1)]) [] [] 1 in
  set opaque 1 "a" (VNum 1) None st = Ok None st []
  /\ set opaque 1 "b" VNull None st = Ok None st []
  /\ moveInObject opaque 1 "b" "c" st
     = Ok None (mkState (VObj 0 [("a", VNum 1)]) [] [] 1) [].
Proof. repeat split. Qed.

(* ================================================================== *)
(** ** [delete] *)
(* ================================================================== *)

Lemma prefix_refl (s : string) : String.prefix s s = true.
Proof.
  induction s as [|c s IH]; [reflexivity|]. simpl.
  destruct (ascii_dec c c); [exact IH|congruence].
Qed.

Lemma max_observers_cons k l obs :
  max_observers ((k, l) :: obs) = Nat.max (List.length l) (max_observers obs).
Proof. reflexivity. Qed.

Lemma max_observers_unobserve_in (k : string) obs :
  max_observers (unobserve_in k obs) <= max_observers obs.
Proof.
  unfold unobserve_in. destruct (assoc k obs) eqn:E; [|lia]. clear E.
  induction obs as [|[k' l'] obs IH]; [cbn; lia|].
  cbn [assoc_set]. destruct (k' =? k).
  - rewrite !max_observers_cons. cbn [List.length]. lia.
  - rewrite !max_observers_cons. lia.
Qed.

Lemma unobserve_in_same (k : string) obs (l : list observer) :
  assoc k (unobserve_in k obs) = Some l -> l = [].
Proof.
  unfold unobserve_in. destruct (assoc k obs) eqn:E.
  - rewrite assoc_set_same. now intros [= <-].
  - congruence.
Qed.

Lemma unobserve_in_other (k k' : string) obs :
  k' <> k -> assoc k' (unobserve_in k obs) = assoc k' obs.
Proof.
  intros H. unfold unobserve_in. destruct (assoc k obs); [|reflexivity].
  now apply assoc_set_other.
Qed.

(** The notification of a deletion finds no binding and no observer at
    the deleted path itself. *)
Lemma notify_trace_after_delete (st : state) (path : string) c nxt prev' :
  notify_trace (after_delete st path c nxt prev') path VNull Delete None
  = ancestor_calls (after_delete st path c nxt prev') path Delete None
      (ancestors path)
    ++ observer_calls (unobserve_in path (observables st)) None
         (plug prev' (frames c)) path Delete None.
Proof.
  unfold notify_trace. cbn [after_delete bindings observables data].
  unfold updateBoundElementsForPath.
  rewrite (assoc_filter_keys (fun x => negb (String.prefix path x))), prefix_refl.
  cbn [negb updateBoundElementsAtPath app].
  unfold observer_calls at 1. cbn [obs_key].
  destruct (assoc path (unobserve_in path (observables st))) as [l|] eqn:E;
    [|reflexivity].
  apply unobserve_in_same in E. now subst l.
Qed.

(** What [delete] does once the walk has arrived. *)
Lemma delete_outcome (fuel : nat) (path : string) (st : state) c nxt :
  descend (data st) (removelast (split path)) (next_ref st) [] = Reached c nxt ->
  max_observers (observables st) < fuel ->
  exists listeners,
    Forall is_listener_removed listeners
    /\ match delete_at (focus c) (last (split path) "") with
       | Written prev' =>
           delete opaque fuel path st
           = Ok tt (after_delete st path c nxt prev')
               (listeners
                ++ notify_trace (after_delete st path c nxt prev') path VNull
                     Delete None)
       | WriteThrows =>
           delete opaque fuel path st
           = Throw (after_delete st path c nxt (focus c)) listeners
       | WriteUnsupported => delete opaque fuel path st = Unsupported
       end.
Proof.
  intros Hd Hf. unfold delete.
  rewrite (mbind_ok _ _ _ _ _ _ (walk_reached path st c nxt Hd)), after_nil.
  cbn [fst snd].
  destruct (unbindAll_result (Some path)
              (mkState (plug (focus c) (frames c)) (bindings st) (observables st) nxt))
    as (listeners & Eu & Hl).
  exists listeners. split; [exact Hl|].
  rewrite (mbind_ok _ _ _ _ _ _ Eu).
  erewrite mbind_ok by reflexivity. rewrite after_nil.
  destruct (delete_at (focus c) (last (split path) "")) as [prev'| |];
    cbn [write].
  - erewrite mbind_ok by reflexivity. rewrite after_nil.
    match goal with
    | |- after _ (notify _ _ _ _ _ _ ?s) = _ =>
        change s with (after_delete st path c nxt prev')
    end.
    rewrite notify_opaque; [reflexivity|].
    cbn [after_delete observables].
    pose proof (max_observers_unobserve_in path (observables st)). lia.
  - cbn. now rewrite app_nil_r.
  - reflexivity.
Qed.

(** *** Proper ancestors are other paths *)

Lemma string_length_append (a b : string) :
  String.length (a ++ b) = String.length a + String.length b.
Proof. induction a as [|c a IH]; simpl; [reflexivity|]. now rewrite IH. Qed.

Lemma join_cons (x y : string) (l : list string) :
  join (x :: y :: l) = (x ++ "." ++ join (y :: l))%string.
Proof. reflexivity. Qed.

Lemma split_not_nil (s : string) : split s <> [].
Proof.
  destruct s as [|c s]; simpl; [discriminate|].
  destruct (Ascii.eqb c dot); [discriminate|].
  destruct (split s); discriminate.
Qed.

Lemma join_split (s : string) : join (split s) = s.
Proof.
  induction s as [|c s IH]; [reflexivity|]. cbn [split].
  destruct (Ascii.eqb c dot) eqn:E.
  - apply Ascii.eqb_eq in E. subst c.
    destruct (split s) as [|h t] eqn:Es; [now elim (split_not_nil s)|].
    rewrite join_cons, IH. reflexivity.
  - destruct (split s) as [|h t] eqn:Es; [now elim (split_not_nil s)|].
    destruct t as [|h' t].
    + cbn in IH |- *. now rewrite IH.
    + change (join (String c h :: h' :: t))
        with (String c (join (h :: h' :: t))).
      now rewrite IH.
Qed.

Lemma join_firstn_shorter (l : list string) :
  forall n, 1 <= n < List.length l ->
  String.length (join (firstn n l)) < String.length (join l).
Proof.
  induction l as [|x l IH]; intros n Hn; [simpl in Hn; lia|].
  destruct n as [|n]; [lia|]. cbn [firstn].
  destruct l as [|y l]; [simpl in Hn; lia|].
  rewrite join_cons, !string_length_append.
  destruct n as [|n].
  - cbn [firstn]. cbn. lia.
  - assert (Hn' : 1 <= S n < List.length (y :: l)) by (simpl in *; lia).
    specialize (IH (S n) Hn').
    change (firstn (S n) (y :: l)) with (y :: firstn n l) in *.
    rewrite join_cons, !string_length_append. lia.
Qed.

Lemma ancestors_proper (p a : string) : In a (ancestors p) -> a <> p.
Proof.
  unfold ancestors. intros H. apply in_map_iff in H as (n & <- & Hn).
  apply in_rev, in_seq in Hn.
  intros E. pose proof (join_firstn_shorter (split p) n ltac:(lia)) as Hlt.
  rewrite E, join_split in Hlt. lia.
Qed.

Lemma in_observer_calls obs path v cp a el cb n :
  In (Notified cb n) (observer_calls obs path v cp a el) ->
  n_path n = path /\ n_action n = a /\ n_changedPath n = cp /\ n_value n = v.
Proof.
  unfold observer_calls. destruct (assoc (obs_key path) obs) as [l|]; [|contradiction].
  intros H. apply in_map_iff in H as (o & [= _ <-] & _). now repeat split.
Qed.

Lemma observer_calls_in obs path v cp a el l o :
  assoc (obs_key path) obs = Some l -> In o l ->
  In (Notified (callback o) (mkNotification path a cp v el (context o)))
     (observer_calls obs path v cp a el).
Proof.
  intros Hl Ho. unfold observer_calls. rewrite Hl.
  now apply (in_map (fun o => Notified (callback o)
                      (mkNotification path a cp v el (context o)))).
Qed.

Lemma removable_written (prev : value) (cur : string) :
  isObject prev = true -> removable prev cur ->
  exists prev', delete_at prev cur = Written prev'.
Proof.
  destruct prev; try discriminate; intros _ H; cbn in *.
  - eauto.
  - destruct (to_integer cur); [eauto|congruence].
Qed.

(** C10, as the code has it.  [delete(p)] empties the list of observers
    stored at [p] and then notifies: no call is made for the path [p]
    itself, and every observer of a proper ancestor of [p] is called with
    the action [Delete].  The observers of the whole document are called
    too, unless [p] is ["null"]: that is the name they are stored under,
    so that deleting the key ["null"] unregisters them.  This for a
    document that is a mapping or a sequence and holds no object under
    two paths, a path that names no inherited member, and observers that
    do not call back into the instance. *)
Theorem delete_notifies_ancestors_only (fuel : nat) (st : state) (p : string)
  (c : cursor) (nxt : ref) :
  plain_path p = true -> no_sharing (data st) ->
  isObject (data st) = true ->
  descend (data st) (removelast (split p)) (next_ref st) [] = Reached c nxt ->
  removable (focus c) (last (split p) "") ->
  max_observers (observables st) < fuel ->
  exists st' listeners calls,
    delete opaque fuel p st = Ok tt st' (listeners ++ calls)
    /\ Forall is_listener_removed listeners
    /\ notify opaque fuel p VNull Delete None st' = Ok tt st' calls
    /\ (forall l, assoc p (observables st') = Some l -> l = [])
    /\ (forall cb n, In (Notified cb n) calls ->
          n_path n <> Some p /\ n_action n = Delete /\ n_changedPath n = p)
    /\ (forall a l o,
          In a (ancestors p) -> assoc a (observables st) = Some l -> In o l ->
          In (Notified (callback o)
                (mkNotification (Some a) Delete p (get_in (data st') a false)
                   None (context o))) calls)
    /\ (p <> "null" ->
        forall l o, assoc "null" (observables st) = Some l -> In o l ->
          In (Notified (callback o)
                (mkNotification None Delete p (data st') None (context o)))
             calls).
Proof.
  intros _ _ Hroot Hd Hrem Hf.
  pose proof (descend_focus_object _ _ _ _ _ _ Hroot Hd) as Hfo.
  destruct (removable_written _ _ Hfo Hrem) as [prev' Hdel].
  destruct (delete_outcome fuel p st c nxt Hd Hf) as (listeners & Hl & E).
  rewrite Hdel in E.
  set (st' := after_delete st p c nxt prev') in *.
  assert (Hf' : max_observers (observables st') < fuel).
  { cbn [st' after_delete observables].
    pose proof (max_observers_unobserve_in p (observables st)). lia. }
  exists st', listeners, (notify_trace st' p VNull Delete None).
  split; [exact E|]. split; [exact Hl|].
  split; [now apply notify_opaque|].
  split; [intros l; apply unobserve_in_same|].
  assert (Hcalls : notify_trace st' p VNull Delete None
                   = ancestor_calls st' p Delete None (ancestors p)
                     ++ observer_calls (observables st') None (data st') p
                          Delete None)
    by apply notify_trace_after_delete.
  rewrite Hcalls. clear Hcalls E.
  split; [|split].
  - intros cb n Hin. apply in_app_or in Hin as [Hin|Hin].
    + unfold ancestor_calls in Hin. apply in_flat_map in Hin as (a & Ha & Hin).
      apply in_observer_calls in Hin as (Hp & Hact & Hcp & _).
      repeat split; try assumption.
      rewrite Hp. intros [= ->]. now apply ancestors_proper in Ha.
    + apply in_observer_calls in Hin as (Hp & Hact & Hcp & _).
      repeat split; try assumption. now rewrite Hp.
  - intros a l o Ha Hassoc Ho. apply in_or_app. left.
    unfold ancestor_calls. apply in_flat_map. exists a. split; [exact Ha|].
    apply observer_calls_in with (l := l); [|exact Ho].
    cbn [obs_key st' after_delete observables].
    rewrite unobserve_in_other; [exact Hassoc|]. now apply ancestors_proper.
  - intros Hnull l o Hassoc Ho. apply in_or_app. right.
    apply observer_calls_in with (l := l); [|exact Ho].
    cbn [obs_key st' after_delete observables].
    rewrite unobserve_in_other; [exact Hassoc|]. congruence.
Qed.

Lemma delete_notifies_ancestors_only_witness :
  let st := mkState (VObj 0 [("a", VObj 1 [("b", VNum 1)])]) []
              [("a.b", [mkObserver 1 None]); ("a", [mkObserver 2 None]);
               ("null", [mkObserver 3 None])] 2 in
  exists st' tr,
    delete opaque 2 "a.b" st = Ok tt st' tr
    /\ assoc "a.b" (observables st') <> Some [mkObserver 1 None]
    /\ (forall cb n, In (Notified cb n) tr -> n_path n <> Some "a.b")
    /\ In (Notified 2 (mkNotification (Some "a") Delete "a.b"
                         (get_in (data st') "a" false) None None)) tr
    /\ In (Notified 3 (mkNotification None Delete "a.b" (data st') None None)) tr.
Proof.
  cbv zeta.
  destruct (delete_notifies_ancestors_only 2
              (mkState (VObj 0 [("a", VObj 1 [("b", VNum 1)])]) []
                 [("a.b", [mkObserver 1 None]); ("a", [mkObserver 2 None]);
                  ("null", [mkObserver 3 None])] 2)
              "a.b"
              (mkCursor (VObj 1 [("b", VNum 1)])
                 [(VObj 0 [("a", VObj 1 [("b", VNum 1)])], "a")]) 2
              eq_refl ltac:(vm_compute; repeat constructor; simpl; intuition discriminate)
              eq_refl eq_refl I ltac:(vm_compute; lia))
    as (st' & listeners & calls & E & Hl & _ & Hemp & Hno & Hanc & Hroot).
  exists st', (listeners ++ calls). split; [exact E|]. split; [|split; [|split]].
  - intros H. apply Hemp in H. discriminate.
  - intros cb n Hin. apply in_app_or in Hin as [Hin|Hin].
    + rewrite Forall_forall in Hl. now apply Hl in Hin.
    + now apply Hno in Hin.
  - apply in_or_app. right.
    apply (Hanc "a" [mkObserver 2 None] (mkObserver 2 None)).
    + now left.
    + reflexivity.
    + now left.
  - apply in_or_app. right.
    apply (Hroot ltac:(discriminate) [mkObserver 3 None] (mkObserver 3 None)).
    + reflexivity.
    + now left.
Defined.

(** C10 as stated fails for the path ["null"]: the observer of the whole
    document, registered with [observe(null)], is stored under that very
    name; [delete("null")] unregisters it and it is not notified of the
    deletion. *)
Lemma delete_of_null_key_silences_root_observers :
  let doc := VObj 0 [("null", VNum 1); ("a", VNum 2)] in
  let st := mkState doc [] [("null", [mkObserver 1 None])] 1 in
  observe None 1 None (mkState doc [] [] 1) = Ok tt st []
  /\ delete opaque 2 "null" st
     = Ok tt (mkState (VObj 0 [("a", VNum 2)]) [] [("null", [])] 1) []
  /\ (exists tr, delete opaque 2 "a" st
                 = Ok tt (mkState (VObj 0 [("null", VNum 1)]) []
                            [("null", [mkObserver 1 None])] 1) tr
                 /\ tr = [Notified 1 (mkNotification None Delete "a"
                                        (VObj 0 [("null", VNum 1)]) None None)]).
Proof. repeat split. eexists. split; reflexivity. Qed.

(** *** The cascade of [delete("a")] *)

Lemma delete_at_top (v : value) :
  (is_nullish v = true /\ delete_at v "a" = WriteThrows)
  \/ (exists prev', delete_at v "a" = Written prev').
Proof.
  destruct v; cbn; eauto.
Qed.

(** C1, as the code has it.  [delete("a")] removes every binding whose
    path starts with ["a"], the one at ["a.b"] among them, but of the
    observers only those stored at exactly ["a"]: the observers at
    ["a.b"] stay registered.  The notification of the deletion reaches
    neither (it updates no binding and calls the observers of the whole
    document only); a later notification at ["a.b"] still calls the
    observers registered there. *)
Theorem delete_cascades_to_bindings_only (fuel : nat) (st : state) :
  max_observers (observables st) < fuel ->
  exists st' tr,
    (delete opaque fuel "a" st = Ok tt st' tr
     \/ (is_nullish (data st) = true
         /\ delete opaque fuel "a" st = Throw st' tr))
    /\ (forall p, String.prefix "a" p = true -> assoc p (bindings st') = None)
    /\ (forall l, assoc "a" (observables st') = Some l -> l = [])
    /\ (forall p, p <> "a" -> assoc p (observables st') = assoc p (observables st))
    /\ (forall e, In e tr ->
          match e with
          | ListenerRemoved _ _ => True
          | Notified _ n => n_path n = None /\ n_action n = Delete
          | _ => False
          end)
    /\ (forall V A el l o,
          assoc "a.b" (observables st) = Some l -> In o l ->
          exists tr2,
            notify opaque fuel "a.b" V A el st' = Ok tt st' tr2
            /\ In (Notified (callback o)
                     (mkNotification (Some "a.b") A "a.b" V el (context o))) tr2).
Proof.
  intros Hf.
  destruct (delete_outcome fuel "a" st (mkCursor (data st) []) (next_ref st)
              eq_refl Hf) as (listeners & Hl & E).
  cbn [focus] in E. change (last (split "a") "") with "a" in E.
  assert (G : forall prev',
    let st' := after_delete st "a" (mkCursor (data st) []) (next_ref st) prev' in
    (forall p, String.prefix "a" p = true -> assoc p (bindings st') = None)
    /\ (forall l, assoc "a" (observables st') = Some l -> l = [])
    /\ (forall p, p <> "a" -> assoc p (observables st') = assoc p (observables st))
    /\ (forall V A el l o,
          assoc "a.b" (observables st) = Some l -> In o l ->
          exists tr2,
            notify opaque fuel "a.b" V A el st' = Ok tt st' tr2
            /\ In (Notified (callback o)
                     (mkNotification (Some "a.b") A "a.b" V el (context o))) tr2)).
  { intros prev' st'. split; [|split; [|split]].
    - intros p Hp. cbn [st' after_delete bindings].
      rewrite (assoc_filter_keys (fun x => negb (String.prefix "a" x))).
      now rewrite Hp.
    - intros l. apply unobserve_in_same.
    - intros p Hp. now apply unobserve_in_other.
    - intros V A el l o Hassoc Ho.
      assert (Hf' : max_observers (observables st') < fuel).
      { cbn [st' after_delete observables].
        pose proof (max_observers_unobserve_in "a" (observables st)). lia. }
      exists (notify_trace st' "a.b" V A el).
      split; [now apply notify_opaque|].
      unfold notify_trace. do 2 (apply in_or_app; right). apply in_or_app. left.
      apply observer_calls_in with (l := l); [|exact Ho].
      cbn [obs_key st' after_delete observables].
      rewrite unobserve_in_other; [exact Hassoc|discriminate]. }
  destruct (delete_at_top (data st)) as [[Hnull Hd]|[prev' Hd]]; rewrite Hd in E.
  - exists (after_delete st "a" (mkCursor (data st) []) (next_ref st) (data st)),
           listeners.
    destruct (G (data st)) as (G1 & G2 & G3 & G4).
    split; [right; now split|]. repeat split; try assumption.
    intros e He. rewrite Forall_forall in Hl. apply Hl in He.
    now destruct e.
  - exists (after_delete st "a" (mkCursor (data st) []) (next_ref st) prev'),
           (listeners
            ++ notify_trace
                 (after_delete st "a" (mkCursor (data st) []) (next_ref st) prev')
                 "a" VNull Delete None).
    destruct (G prev') as (G1 & G2 & G3 & G4).
    split; [now left|]. repeat split; try assumption.
    intros e He. apply in_app_or in He as [He|He].
    + rewrite Forall_forall in Hl. apply Hl in He. now destruct e.
    + rewrite notify_trace_after_delete in He.
      change (ancestors "a") with (@nil string) in He. cbn [ancestor_calls flat_map app] in He.
      destruct e as [| | |cb n]; try (now unfold observer_calls in He;
        destruct (assoc _ _) in He; [apply in_map_iff in He as (? & ? & _)|]).
      apply in_observer_calls in He as (Hp & Ha & _). now split.
Qed.

Lemma delete_cascades_to_bindings_only_witness :
  let st := mkState (VObj 0 [("a", VObj 1 [("b", VNum 1)])])
              [("a.b", [("value", [mkBinding 7 (mkOptions "change" true)])])]
              [("a.b", [mkObserver 1 None])] 2 in
  exists st' tr,
    delete opaque 2 "a" st = Ok tt st' tr
    /\ assoc "a.b" (bindings st') = None
    /\ assoc "a.b" (observables st') = Some [mkObserver 1 None]
    /\ ~ In (Notified 1 (mkNotification (Some "a.b") Delete "a" VNull None None)) tr
    /\ exists tr2,
         notify opaque 2 "a.b" (VNum 5) Create None st' = Ok tt st' tr2
         /\ In (Notified 1 (mkNotification (Some "a.b") Create "a.b" (VNum 5)
                              None None)) tr2.
Proof.
  cbv zeta.
  destruct (delete_cascades_to_bindings_only 2
              (mkState (VObj 0 [("a", VObj 1 [("b", VNum 1)])])
                 [("a.b", [("value", [mkBinding 7 (mkOptions "change" true)])])]
                 [("a.b", [mkObserver 1 None])] 2)
              ltac:(vm_compute; lia))
    as (st' & tr & [E|[Hn _]] & Hb & _ & Ho & Htr & Hlater); [|discriminate Hn].
  exists st', tr. split; [exact E|]. split; [now apply Hb|].
  split; [now rewrite Ho|]. split.
  - intros Hin. apply Htr in Hin. cbn in Hin. destruct Hin. discriminate.
  - exact (Hlater (VNum 5) Create None [mkObserver 1 None] (mkObserver 1 None)
             eq_refl (or_introl eq_refl)).
Defined.

(** C1 as stated fails: after [delete("a")] the observer registered at
    ["a.b"] is still registered, and the next mutation at ["a.b"] calls it. *)
Lemma delete_keeps_observers_below :
  let doc := VObj 0 [("a", VObj 1 [("b", VNum 1)])] in
  let st := mkState doc
              [("a.b", [("value", [mkBinding 7 (mkOptions "change" true)])])]
              [("a.b", [mkObserver 1 None])] 2 in
  let st' := mkState (VObj 0 []) [] [("a.b", [mkObserver 1 None])] 2 in
  (bind 7 "a.b" "" None ;; observe (Some "a.b") 1 None) (mkState doc [] [] 2)
  = Ok tt st [ListenerAdded 7 "change"; DomUpdate "a.b" "value" 7 (VNum 1)]
  /\ delete opaque 2 "a" st = Ok tt st' [ListenerRemoved 7 "change"]
  /\ assoc "a.b" (observables st') = Some [mkObserver 1 None]
  /\ set opaque 2 "a.b" (VNum 5) None st'
     = Ok (Some "a.b")
          (mkState (VObj 0 [("a", VObj 2 [("b", VNum 5)])]) []
             [("a.b", [mkObserver 1 None])] 3)
          [Notified 1 (mkNotification (Some "a.b") Create "a.b" (VNum 5) None None)].
Proof. repeat split. Qed.

(* ================================================================== *)
(** ** [move] *)
(* ================================================================== *)

Lemma move_same_path (invoke : observer -> notification -> M unit) (fuel : nat)
  (path : string) (st : state) :
  move invoke fuel path path st = Ok None st [].
Proof. unfold move. now rewrite String.eqb_refl. Qed.

Lemma splice_start_le (z : Z) (len : nat) : splice_start z len <= len.
Proof. unfold splice_start. destruct (z <? 0)%Z eqn:E; lia. Qed.


(** [splice(start, 0, x)] inserts: the elements before the position stay,
    [x] stands at it, the elements from it on move up by one. *)
Lemma splice_insert_shifts {A : Type} (z : Z) (x : A) (l : list A) :
  let i := splice_start z (List.length l) in
  List.length (splice_insert z x l) = S (List.length l)
  /\ nth_error (splice_insert z x l) i = Some x
  /\ (forall k, k < i -> nth_error (splice_insert z x l) k = nth_error l k)
  /\ (forall k, i <= k -> nth_error (splice_insert z x l) (S k) = nth_error l k).
Proof.
  cbv zeta. unfold splice_insert.
  pose proof (splice_start_le z (List.length l)) as Hi.
  set (i := splice_start z (List.length l)) in *.
  assert (Hlen : List.length (firstn i l) = i) by (rewrite length_firstn; lia).
  split; [|split; [|split]].
  - rewrite length_app. cbn [List.length]. rewrite Hlen, length_skipn. lia.
  - rewrite nth_error_app2 by lia. now rewrite Hlen, Nat.sub_diag.
  - intros k Hk. rewrite nth_error_app1 by lia. rewrite nth_error_firstn.
    now replace (k <? i)%nat with true by (symmetry; apply Nat.ltb_lt; lia).
  - intros k Hk. rewrite nth_error_app2 by lia. rewrite Hlen.
    replace (S k - i) with (S (k - i)) by lia. cbn [nth_error].
    rewrite nth_error_skipn. f_equal. lia.
Qed.

(** [moveInArray] when the destination is a sequence once the source is
    deleted: the value read at the source is inserted there. *)
Lemma moveInArray_inserts (fuel : nat) (fromPath toPath : string) (st : state)
  c1 nxt1 prev1 c2 nxt2 r elems :
  descend (data st) (removelast (split fromPath)) (next_ref st) []
  = Reached c1 nxt1 ->
  delete_at (focus c1) (last (split fromPath) "") = Written prev1 ->
  descend (plug prev1 (frames c1)) (removelast (split toPath)) nxt1 []
  = Reached c2 nxt2 ->
  focus c2 = VArr r elems ->
  max_observers (observables st) < fuel ->
  let value := get_in (data st) fromPath false in
  let length := Z.of_nat (List.length elems) in
  let index := match parseInt (last (split toPath) "") with
               | Some i => i
               | None => 0%Z
               end in
  let index := if (index >? length)%Z then length else index in
  let modifiedPath := child_path (getParentPath toPath) (string_of_Z index) in
  let st1 := after_delete st fromPath c1 nxt1 prev1 in
  let st2 := mkState (plug (VArr r (splice_insert index value elems)) (frames c2))
               (bindings st1) (observables st1) nxt2 in
  exists listeners,
    Forall is_listener_removed listeners
    /\ moveInArray opaque fuel fromPath toPath st
       = Ok (Some modifiedPath) st2
           ((listeners ++ notify_trace st1 fromPath VNull Delete None)
            ++ notify_trace st2 modifiedPath value Create None).
Proof.
  intros Hd1 Hdel Hd2 Hfoc Hf. cbv zeta.
  destruct (delete_outcome fuel fromPath st c1 nxt1 Hd1 Hf) as (listeners & Hl & E).
  rewrite Hdel in E. exists listeners. split; [exact Hl|].
  unfold moveInArray.
  rewrite (mbind_ok _ _ st (get_in (data st) fromPath false) st []) by reflexivity.
  rewrite after_nil, (mbind_ok _ _ _ _ _ _ E).
  assert (Hf1 : max_observers
                  (observables (after_delete st fromPath c1 nxt1 prev1)) < fuel).
  { cbn [after_delete observables].
    pose proof (max_observers_unobserve_in fromPath (observables st)). lia. }
  rewrite (mbind_ok _ _ _ _ _ _
             (walk_reached toPath (after_delete st fromPath c1 nxt1 prev1)
                c2 nxt2 Hd2)).
  rewrite after_nil. cbn [fst snd]. rewrite Hfoc. cbn [write].
  erewrite mbind_ok by reflexivity. rewrite after_nil.
  erewrite mbind_ok by (apply notify_opaque; exact Hf1).
  cbn [after mret]. now rewrite app_nil_r.
Qed.


(** [move] into a sequence that is still there once the source is
    deleted. *)
Lemma move_inserts_in_sequence (fuel : nat) (fromPath toPath : string)
  (st : state) c1 nxt1 prev1 c2 nxt2 r elems :
  fromPath <> toPath ->
  isArray (get_in (data st) (getParentPath toPath) false) = true ->
  descend (data st) (removelast (split fromPath)) (next_ref st) []
  = Reached c1 nxt1 ->
  delete_at (focus c1) (last (split fromPath) "") = Written prev1 ->
  isObject (plug prev1 (frames c1)) = true ->
  descend (plug prev1 (frames c1)) (removelast (split toPath)) nxt1 []
  = Reached c2 nxt2 ->
  focus c2 = VArr r elems ->
  max_observers (observables st) < fuel ->
  move opaque fuel fromPath toPath st
  = moveInArray opaque fuel fromPath toPath st
  /\ exists P' st' tr,
       move opaque fuel fromPath toPath st = Ok (Some P') st' tr
       /\ exists j, j <= List.length elems
          /\ get_segs (data st') (removelast (split toPath))
             = VArr r (firstn j elems
                       ++ get_in (data st) fromPath false :: skipn j elems).
Proof.
  intros Hne Harr Hd1 Hdel Hobj Hd2 Hfoc Hf.
  assert (E : move opaque fuel fromPath toPath st
              = moveInArray opaque fuel fromPath toPath st).
  { unfold move. apply String.eqb_neq in Hne. rewrite Hne.
    unfold isInArray, getParentValue, get.
    erewrite mbind_ok by (erewrite mbind_ok by reflexivity; reflexivity).
    cbn [after mret]. rewrite Harr. cbn [after]. rewrite app_nil_r.
    now destruct (moveInArray opaque fuel fromPath toPath st). }
  split; [exact E|]. rewrite E.
  destruct (moveInArray_inserts fuel fromPath toPath st c1 nxt1 prev1 c2 nxt2
              r elems Hd1 Hdel Hd2 Hfoc Hf) as (listeners & _ & Em).
  cbv zeta in Em. do 3 eexists. split; [exact Em|].
  eexists. split; [apply splice_start_le|]. cbn [data].
  unfold splice_insert.
  exact (get_after_walk _ _ _ _ _ (VArr r _) Hobj Hd2 eq_refl).
Qed.

(** C6.  [move] decides that the destination lies in a sequence before it
    deletes the source, and walks to the destination afterwards.  Moving
    the first element of a list into the list that follows it deletes the
    element, finds the destination gone, puts an empty object in its place
    and fails on [prev.splice]: the value is lost.  And a negative index
    is not clamped: the value goes before the last element, while the path
    returned and notified is ["c.-1"], where [get] finds nothing. *)
Lemma move_loses_the_value :
  (let st := mkState (VObj 0 [("l", VArr 1 [VNum 1; VArr 2 [VNum 2]])]) [] [] 3 in
   isInArray "l.1.0" st = Ok true st []
   /\ move opaque 1 "l.0" "l.1.0" st
      = Throw (mkState (VObj 0 [("l", VArr 1 [VArr 2 [VNum 2]; VObj 3 []])])
                 [] [] 4) [])
  /\ (let st := mkState (VObj 0 [("a", VObj 1 [("b", VStr "v")]);
                                 ("c", VArr 2 [VStr "x"; VStr "y"])]) [] [] 3 in
      let st' := mkState (VObj 0 [("a", VObj 1 []);
                                  ("c", VArr 2 [VStr "x"; VStr "v"; VStr "y"])])
                   [] [] 3 in
      move opaque 1 "a.b" "c.-1" st = Ok (Some "c.-1") st' []
      /\ get_in (data st') "c.-1" false = VNull
      /\ exists st'' tr, set opaque 1 "c.-1" (VStr "v") None st
                         = Ok (Some "c.0") st'' tr).
Proof.
  repeat split. cbv zeta. do 2 eexists. reflexivity.
Qed.

(* ================================================================== *)
(** ** Observers that unregister during a notification *)
(* ================================================================== *)

Section LiveList.

Variable program : cbid -> notification -> list command.
Variables (fuel depth : nat).
Variables (path : option string) (note : observer -> notification).

(** A callback that makes no call. *)
Lemma reentrant_silent (o : observer) (st : state) :
  program (callback o) (note o) = [] ->
  reentrant program fuel (S depth) o (note o) st
  = Ok tt st [Notified (callback o) (note o)].
Proof. intros H. cbn [reentrant]. unfold mbind, emit. now rewrite H. Qed.

(** A callback that calls [unobserve] for the path being notified. *)
Lemma reentrant_unobserve (o : observer) (st : state) :
  program (callback o) (note o) = [CallUnobserve path] ->
  reentrant program fuel (S depth) o (note o) st
  = Ok tt (with_observables (unobserve_in (obs_key path) (observables st)) st)
      [Notified (callback o) (note o)].
Proof. intros H. cbn [reentrant]. unfold mbind, emit. now rewrite H. Qed.

Lemma nth_error_middle {A : Type} (pre rest : list A) (o : A) :
  nth_error (pre ++ o :: rest) (List.length pre) = Some o.
Proof. rewrite nth_error_app2 by lia. now rewrite Nat.sub_diag. Qed.

(** The loop over the live list stops at the observer that empties it. *)
Lemma observers_loop_unobserve (st : state) (pre rest : list observer)
  (o : observer) :
  assoc (obs_key path) (observables st) = Some (pre ++ o :: rest) ->
  (forall x, In x pre -> program (callback x) (note x) = []) ->
  program (callback o) (note o) = [CallUnobserve path] ->
  forall n i, i <= List.length pre -> List.length pre - i + 2 <= n ->
  observers_loop (reentrant program fuel (S depth)) n (obs_key path) i note st
  = Ok tt (with_observables (unobserve_in (obs_key path) (observables st)) st)
      (map (fun x => Notified (callback x) (note x)) (skipn i pre ++ [o])).
Proof.
  intros Hl Hpre Ho. induction n as [|n IH]; intros i Hi Hn; [lia|].
  cbn [observers_loop]. rewrite Hl.
  destruct (Nat.eq_dec i (List.length pre)) as [->|Hne].
  - rewrite nth_error_middle.
    rewrite (mbind_ok _ _ _ _ _ _ (reentrant_unobserve o st Ho)).
    rewrite skipn_all. cbn [app map].
    destruct n as [|n]; [lia|]. cbn [observers_loop].
    cbn [with_observables observables]. unfold unobserve_in at 1. rewrite Hl.
    rewrite assoc_set_same. cbn [nth_error after app].
    unfold unobserve_in. now rewrite Hl.
  - assert (Hlt : i < List.length pre) by lia.
    destruct (nth_error pre i) as [x|] eqn:Ex;
      [|apply nth_error_None in Ex; lia].
    rewrite nth_error_app1 by exact Hlt. rewrite Ex.
    assert (Hx : In x pre) by (eapply nth_error_In; exact Ex).
    rewrite (mbind_ok _ _ _ _ _ _ (reentrant_silent x st (Hpre x Hx))).
    rewrite IH by lia.
    rewrite (skipn_nth_error_cons pre i x Ex). reflexivity.
Qed.

End LiveList.

(** C7, as the code has it.  The loop of [notifyObserversForPath] reads
    the live list at every turn; nothing is snapshotted.  When a callback
    called during the notification of a path calls [unobserve] for that
    path, the loop ends there without a crash: the observers registered
    before it have been called once each, it has been called once, and
    the observers registered after it are skipped. *)
Theorem unobserve_during_notification_ends_it
  (program : cbid -> notification -> list command) (fuel depth : nat)
  (st : state) (path : option string) (V : value) (cp : string) (A : action)
  (el : option elem) (pre rest : list observer) (o : observer) :
  let note := fun x => mkNotification path A cp V el (context x) in
  assoc (obs_key path) (observables st) = Some (pre ++ o :: rest) ->
  (forall x, In x pre -> program (callback x) (note x) = []) ->
  program (callback o) (note o) = [CallUnobserve path] ->
  List.length pre + 2 <= fuel ->
  notifyObserversForPath (reentrant program fuel (S depth)) fuel path V cp A el st
  = Ok tt (with_observables (assoc_set (obs_key path) [] (observables st)) st)
      (map (fun x => Notified (callback x) (note x)) (pre ++ [o])).
Proof.
  intros note Hl Hpre Ho Hf. unfold notifyObserversForPath. rewrite Hl.
  pose proof (observers_loop_unobserve program fuel depth path note st pre rest o
                Hl Hpre Ho fuel 0 ltac:(lia) ltac:(lia)) as E.
  cbn [skipn] in E. unfold unobserve_in in E. rewrite Hl in E. exact E.
Qed.

Lemma unobserve_during_notification_ends_it_witness :
  let program := fun (cb : cbid) (_ : notification) =>
                   if Nat.eqb cb 2 then [CallUnobserve (Some "a")] else [] in
  let st := mkState (VObj 0 [("a", VNum 1)]) []
              [("a", [mkObserver 1 None; mkObserver 2 None; mkObserver 3 None])]
              1 in
  let n := mkNotification (Some "a") Update "a" (VNum 1) None None in
  notifyObserversForPath (reentrant program 3 1) 3 (Some "a") (VNum 1) "a"
    Update None st
  = Ok tt (with_observables [("a", [])] st) [Notified 1 n; Notified 2 n].
Proof.
  cbv zeta.
  exact (unobserve_during_notification_ends_it
           (fun cb _ => if Nat.eqb cb 2 then [CallUnobserve (Some "a")] else [])
           3 0
           (mkState (VObj 0 [("a", VNum 1)]) []
              [("a", [mkObserver 1 None; mkObserver 2 None; mkObserver 3 None])] 1)
           (Some "a") (VNum 1) "a" Update None
           [mkObserver 1 None] [mkObserver 3 None] (mkObserver 2 None)
           eq_refl
           ltac:(intros x [<-|[]]; reflexivity)
           eq_refl
           ltac:(cbn; lia)).
Defined.

(** C7 as stated fails: the second of two observers is skipped when the
    first one calls [unobserve] for the path, or deletes it; and the loop
    fails on [undefined.length] when the first one calls [remove]. *)
Lemma notification_skips_observers :
  let st := mkState (VObj 0 [("a", VNum 1)]) []
              [("a", [mkObserver 1 None; mkObserver 2 None])] 1 in
  let n := mkNotification (Some "a") Update "a" (VNum 1) None None in
  let calling := fun (c : command) (cb : cbid) (_ : notification) =>
                   if Nat.eqb cb 1 then [c] else [] in
  notifyObserversForPath (reentrant (calling (CallUnobserve (Some "a"))) 3 1) 3
    (Some "a") (VNum 1) "a" Update None st
  = Ok tt (with_observables [("a", [])] st) [Notified 1 n]
  /\ notifyObserversForPath (reentrant (calling (CallDelete "a")) 3 1) 3
       (Some "a") (VNum 1) "a" Update None st
     = Ok tt (mkState (VObj 0 []) [] [("a", [])] 1) [Notified 1 n]
  /\ notifyObserversForPath (reentrant (calling CallRemove) 3 1) 3
       (Some "a") (VNum 1) "a" Update None st
     = Throw (mkState VNull [] [] 1) [Notified 1 n].
Proof. repeat split. Qed.

(* ================================================================== *)
(** ** Paths, segments and decimal indices *)
(* ================================================================== *)

Lemma string_app_assoc (a b c : string) :
  (a ++ (b ++ c) = (a ++ b) ++ c)%string.
Proof. induction a as [|x a IH]; [reflexivity|]. cbn. now rewrite IH. Qed.

Lemma split_app_dot (p q : string) :
  split (p ++ "." ++ q) = split p ++ split q.
Proof.
  induction p as [|c p IH]; [reflexivity|].
  cbn [String.append split] in *. destruct (Ascii.eqb c dot).
  - now rewrite IH.
  - rewrite IH. destruct (split p) as [|h t] eqn:E; [|reflexivity].
    now apply split_not_nil in E.
Qed.

Lemma split_no_dot (s : string) : no_dot s = true -> split s = [s].
Proof.
  induction s as [|c s IH]; [reflexivity|]. cbn [no_dot split].
  intros H. apply andb_true_iff in H as [Hc Hs].
  apply negb_true_iff in Hc. rewrite Hc, (IH Hs). reflexivity.
Qed.

Lemma split_segments (s : string) : Forall (fun x => no_dot x = true) (split s).
Proof.
  induction s as [|c s IH]; [repeat constructor|].
  cbn [split]. destruct (Ascii.eqb c dot) eqn:Ec.
  - constructor; [reflexivity|exact IH].
  - destruct (split s) as [|h t]; [repeat constructor; cbn; now rewrite Ec|].
    inversion IH; subst. constructor; [|assumption].
    cbn [no_dot]. now rewrite Ec.
Qed.

Lemma split_join (segs : list string) :
  segs <> [] -> Forall (fun x => no_dot x = true) segs ->
  split (join segs) = segs.
Proof.
  induction segs as [|x [|y l] IH]; intros Hne F; [congruence| |].
  - inversion F; subst. now apply split_no_dot.
  - inversion F; subst. rewrite join_cons, split_app_dot.
    rewrite IH by (congruence || assumption).
    now rewrite split_no_dot.
Qed.

Lemma split_last (path : string) :
  split path = removelast (split path) ++ [last (split path) ""].
Proof. apply app_removelast_last, split_not_nil. Qed.

(** The path [set] and [moveInArray] rebuild from the parent path and the
    last segment has the segments of the parent and that segment, unless
    the path is a dot followed by one segment. *)
Lemma split_child_path (path k : string) :
  removelast (split path) <> [""] -> no_dot k = true ->
  split (child_path (getParentPath path) k) = removelast (split path) ++ [k].
Proof.
  intros Hdot Hk. unfold child_path, getParentPath.
  assert (F : Forall (fun x => no_dot x = true) (removelast (split path))).
  { pose proof (split_segments path) as F. rewrite split_last in F.
    now apply Forall_app in F. }
  destruct (removelast (split path)) as [|x l] eqn:E.
  - cbn. now apply split_no_dot.
  - destruct (join (x :: l) =? "") eqn:Ej.
    + apply String.eqb_eq in Ej. exfalso. apply Hdot.
      destruct l as [|y l]; [cbn in Ej; now subst|].
      rewrite join_cons in Ej. destruct x; discriminate.
    + rewrite <- string_app_assoc, split_app_dot, split_join
        by (congruence || assumption).
      now rewrite split_no_dot.
Qed.

Lemma digits_prefix_uint (d : Decimal.uint) :
  forall acc,
  digits_prefix (NilEmpty.string_of_uint d) (Some acc) = Some (uint_value d acc).
Proof.
  induction d; intros acc; cbn [NilEmpty.string_of_uint digits_prefix uint_value];
    try reflexivity; apply IHd.
Qed.

Lemma uint_value_acc (d : Decimal.uint) :
  forall acc, uint_value d (N.pos acc) = N.pos (Pos.of_uint_acc d acc).
Proof.
  induction d; intros acc; cbn [uint_value Pos.of_uint_acc]; try reflexivity;
    rewrite <- IHd; f_equal; lia.
Qed.

Lemma uint_value_of_uint (d : Decimal.uint) : uint_value d 0 = N.of_uint d.
Proof.
  unfold N.of_uint.
  induction d; cbn [uint_value Pos.of_uint]; try reflexivity;
    try (rewrite <- uint_value_acc; f_equal; lia).
  exact IHd.
Qed.

Lemma digits_prefix_first (d : Decimal.uint) :
  d <> Decimal.Nil ->
  digits_prefix (NilEmpty.string_of_uint d) None = Some (uint_value d 0).
Proof.
  destruct d; intros H; try congruence;
    cbn [NilEmpty.string_of_uint digits_prefix];
    cbn [digit_of N_of_ascii N_of_digits]; cbn -[digits_prefix uint_value];
    rewrite digits_prefix_uint; reflexivity.
Qed.

Lemma digits_prefix_string_of_N (n : N) :
  digits_prefix (string_of_N n) None = Some n.
Proof.
  unfold string_of_N, NilZero.string_of_uint.
  rewrite <- (DecimalN.Unsigned.of_to n) at 2. rewrite <- uint_value_of_uint.
  destruct (N.to_uint n) eqn:E; try (apply digits_prefix_first; congruence).
  reflexivity.
Qed.

(** Printing a number gives its canonical form: the key of an array
    index, as long as a JavaScript array can have that index. *)
Lemma array_index_string_of_N (n : N) :
  (n < index_limit)%N -> array_index (string_of_N n) = Some n.
Proof.
  intros H. unfold array_index. rewrite digits_prefix_string_of_N.
  rewrite String.eqb_refl. apply N.ltb_lt in H. unfold index_limit in H.
  now rewrite H.
Qed.

Lemma all_digits_uint (d : Decimal.uint) :
  all_digits (NilEmpty.string_of_uint d) = true.
Proof. induction d; cbn; auto. Qed.

Lemma all_digits_string_of_N (n : N) : all_digits (string_of_N n) = true.
Proof.
  unfold string_of_N, NilZero.string_of_uint.
  destruct (N.to_uint n); try apply all_digits_uint. reflexivity.
Qed.

Lemma digit_no_dot (c : ascii) (d : N) :
  digit_of c = Some d -> Ascii.eqb c dot = false /\ is_ident_start c = false.
Proof.
  unfold digit_of, is_ident_start. intros H.
  destruct ((48 <=? N_of_ascii c) && (N_of_ascii c <=? 57))%N eqn:E;
    [|discriminate].
  apply andb_true_iff in E as [E1 E2].
  apply N.leb_le in E1. apply N.leb_le in E2. split.
  - apply Ascii.eqb_neq. intros ->. cbn in E1. lia.
  - repeat match goal with
           | |- context [(?a <=? ?b)%N] =>
               let L := fresh in destruct (N.leb_spec a b) as [L|L]
           | |- context [(?a =? ?b)%N] =>
               let L := fresh in destruct (N.eqb_spec a b) as [L|L]
           end; cbn; try reflexivity; lia.
Qed.

Lemma all_digits_no_dot (s : string) : all_digits s = true -> no_dot s = true.
Proof.
  induction s as [|c s IH]; [reflexivity|]. cbn [all_digits no_dot].
  destruct (digit_of c) eqn:E; [|discriminate]. intros H.
  apply digit_no_dot in E as [E _]. rewrite E. cbn. auto.
Qed.

Lemma no_dot_string_of_N (n : N) : no_dot (string_of_N n) = true.
Proof. apply all_digits_no_dot, all_digits_string_of_N. Qed.

(** [splice] reads a printed number as that number. *)
Lemma to_integer_string_of_N (n : N) :
  to_integer (string_of_N n) = Some (Z.of_N n).
Proof.
  pose proof (all_digits_string_of_N n) as Ha.
  pose proof (digits_prefix_string_of_N n) as Hd.
  unfold to_integer. destruct (string_of_N n) as [|c r] eqn:E.
  - cbn in Hd. discriminate.
  - rewrite Ha, Hd. cbn [all_digits] in Ha.
    destruct (digit_of c) eqn:Ec; [|discriminate].
    apply digit_no_dot in Ec as [_ Ec]. now rewrite Ec.
Qed.

(** [parseInt] reads a text that starts with digits as their number. *)
Lemma parseInt_digits (s : string) (n : N) :
  digits_prefix s None = Some n -> parseInt s = Some (Z.of_N n).
Proof.
  intros H.
  destruct (digits_prefix_starts _ _ H) as (c & r & d & -> & Hd).
  destruct (digit_not_sign_or_space _ _ Hd) as (Hws & Hm & Hp).
  unfold parseInt. cbn [skip_ws]. rewrite Hws.
  destruct c as [[] [] [] [] [] [] [] []];
    try (exfalso; apply Hm; reflexivity);
    try (exfalso; apply Hp; reflexivity);
    now rewrite H.
Qed.

Lemma parseInt_string_of_N (n : N) : parseInt (string_of_N n) = Some (Z.of_N n).
Proof. apply parseInt_digits, digits_prefix_string_of_N. Qed.

Lemma string_of_Z_of_N (n : N) : string_of_Z (Z.of_N n) = string_of_N n.
Proof. now destruct n. Qed.

Lemma string_of_N_inj (n m : N) : string_of_N n = string_of_N m -> n = m.
Proof.
  intros E. pose proof (digits_prefix_string_of_N n) as H.
  rewrite E, digits_prefix_string_of_N in H. congruence.
Qed.

(* ================================================================== *)
(** ** Reading the document *)
(* ================================================================== *)

(** One step of [get] in its two modes: the results differ only where
    the default mode puts [null] for [undefined]. *)
Lemma get_step_modes (a b : value) (k : string) :
  a = b \/ (a = VNull /\ b = VUndefined) ->
  get_step false a k
  = if is_undefined (get_step true b k) then VNull else get_step true b k.
Proof.
  intros [->|[-> ->]]; [|reflexivity].
  unfold get_step. destruct (truthy b); [|reflexivity].
  destruct (prop_get b (KStr k)) as [x|]; [|reflexivity].
  destruct (is_undefined x) eqn:E; [reflexivity|]. now rewrite E.
Qed.

Lemma get_segs_modes (segs : list string) :
  forall a b,
  a = b \/ (a = VNull /\ b = VUndefined) ->
  segs <> [] ->
  fold_left (get_step false) segs a
  = if is_undefined (fold_left (get_step true) segs b) then VNull
    else fold_left (get_step true) segs b.
Proof.
  induction segs as [|k [|k' segs] IH]; intros a b R Hne; [congruence| |].
  - cbn [fold_left]. now apply get_step_modes.
  - change (fold_left (get_step false) (k :: k' :: segs) a)
      with (fold_left (get_step false) (k' :: segs) (get_step false a k)).
    change (fold_left (get_step true) (k :: k' :: segs) b)
      with (fold_left (get_step true) (k' :: segs) (get_step true b k)).
    apply IH; [|congruence].
    rewrite (get_step_modes a b k R).
    destruct (get_step true b k); cbn; auto.
Qed.

(** [get] walks to the parent, then reads the last segment. *)
Lemma get_in_last (d : value) (path : string) (b : bool) :
  path <> "" ->
  get_in d path b
  = get_step b (fold_left (get_step b) (removelast (split path)) d)
      (last (split path) "").
Proof.
  intros Hne. unfold get_in. apply String.eqb_neq in Hne. rewrite Hne.
  rewrite (split_last path) at 1. now rewrite fold_left_app.
Qed.

(** X1.  [get(key)] with a key that is not empty never yields [undefined]:
    it is [get(key, true)] with [null] in the place of [undefined], so a
    member that is missing, at the end of the path or on the way, reads
    as [null]. *)
Theorem get_reads_missing_as_null (d : value) (key : string) :
  key <> "" ->
  get_in d key false
  = (if is_undefined (get_in d key true) then VNull else get_in d key true)
  /\ get_in d key false <> VUndefined.
Proof.
  intros Hk.
  assert (E : get_in d key false
              = if is_undefined (get_in d key true) then VNull
                else get_in d key true).
  { unfold get_in. apply String.eqb_neq in Hk. rewrite Hk.
    apply get_segs_modes; [now left|apply split_not_nil]. }
  split; [exact E|]. rewrite E.
  destruct (get_in d key true); cbn; discriminate.
Qed.

Lemma get_reads_missing_as_null_witness :
  let d := VObj 0 [("a", VObj 1 [("b", VUndefined); ("c", VNull)])] in
  (get_in d "a.b" true = VUndefined /\ get_in d "a.b" false = VNull)
  /\ (get_in d "x.y" true = VUndefined /\ get_in d "x.y" false = VNull)
  /\ get_in d "a.c" false <> VUndefined.
Proof.
  intros d.
  pose proof (get_reads_missing_as_null d "a.b"
                ltac:(intro H; discriminate H)) as [E1 _].
  pose proof (get_reads_missing_as_null d "x.y"
                ltac:(intro H; discriminate H)) as [E2 _].
  pose proof (get_reads_missing_as_null d "a.c"
                ltac:(intro H; discriminate H)) as [_ E3].
  split; [split; [reflexivity|exact E1]|].
  split; [split; [reflexivity|exact E2]|exact E3].
Defined.

(** X2.  Reading [p.q] is reading [q] in what reading [p] gives, for
    paths [p] and [q] that are not empty, in both modes of [get]. *)
Theorem get_follows_the_path (d : value) (p q : string) (allowUndefined : bool) :
  p <> "" -> q <> "" ->
  get_in d (p ++ "." ++ q) allowUndefined
  = get_in (get_in d p allowUndefined) q allowUndefined.
Proof.
  intros Hp Hq. unfold get_in.
  apply String.eqb_neq in Hq. rewrite Hq.
  assert (E : (p ++ "." ++ q =? "") = false) by (destruct p; reflexivity).
  rewrite E, split_app_dot, fold_left_app.
  apply String.eqb_neq in Hp. now rewrite Hp.
Qed.

Lemma get_follows_the_path_witness :
  let d := VObj 0 [("a", VObj 1 [("l", VArr 2 [VStr "x"; VStr "y"])])] in
  get_in d "a.l.1" false = get_in (VObj 1 [("l", VArr 2 [VStr "x"; VStr "y"])])
                             "l.1" false
  /\ get_in d "a.l.1" false = VStr "y".
Proof.
  intros d. split.
  - exact (get_follows_the_path d "a" "l.1" false
             ltac:(intro H; discriminate H) ltac:(intro H; discriminate H)).
  - reflexivity.
Defined.

(* ================================================================== *)
(** ** Who is notified *)
(* ================================================================== *)

Lemma in_observer_calls_inv obs path v cp a el cb n :
  In (Notified cb n) (observer_calls obs path v cp a el) ->
  exists l o,
    assoc (obs_key path) obs = Some l /\ In o l
    /\ cb = callback o /\ n = mkNotification path a cp v el (context o).
Proof.
  unfold observer_calls. destruct (assoc (obs_key path) obs) as [l|]; [|intros []].
  intros H. apply in_map_iff in H as (o & E & Ho). injection E as <- <-.
  now exists l, o.
Qed.

Lemma dom_updates_not_notified (tr : trace) cb n :
  forallb is_dom_update tr = true -> ~ In (Notified cb n) tr.
Proof.
  intros F H. rewrite forallb_forall in F. now apply F in H.
Qed.

(** The observer calls of one notification: each is made for the changed
    path itself, for one of its proper ancestors or for the whole
    document, and carries the action, the changed path and the element. *)
Lemma notify_trace_notified (st : state) (p : string) (v : value) (a : action)
  (el : option elem) cb n :
  In (Notified cb n) (notify_trace st p v a el) ->
  n_action n = a /\ n_changedPath n = p /\ n_element n = el
  /\ (n_path n = Some p /\ n_value n = v
      \/ (exists anc, In anc (ancestors p) /\ n_path n = Some anc
                      /\ n_value n = get_in (data st) anc false)
      \/ n_path n = None /\ n_value n = data st).
Proof.
  unfold notify_trace. rewrite !in_app_iff. intros [H|[H|[H|[H|H]]]].
  - now apply dom_updates_not_notified in H;
      [|apply updateBoundElementsForPath_dom].
  - now apply dom_updates_not_notified in H;
      [|apply updateBoundElementsAtPath_dom].
  - apply in_observer_calls_inv in H as (l & o & _ & _ & _ & ->). cbn. auto 10.
  - unfold ancestor_calls in H. apply in_flat_map in H as (anc & Hanc & H).
    apply in_observer_calls_inv in H as (l & o & _ & _ & _ & ->). cbn.
    repeat split; try reflexivity. right. left. now exists anc.
  - apply in_observer_calls_inv in H as (l & o & _ & _ & _ & ->). cbn. auto 10.
Qed.

Lemma ancestors_shorter (p a : string) :
  In a (ancestors p) -> String.length a < String.length p.
Proof.
  unfold ancestors. intros H. apply in_map_iff in H as (n & <- & Hn).
  apply in_rev, in_seq in Hn.
  pose proof (join_firstn_shorter (split p) n ltac:(lia)) as Hlt.
  now rewrite join_split in Hlt.
Qed.

(** X5.  A notification calls the observers of the changed path, of its
    proper ancestors and of the whole document, and no others: an observer
    registered at a longer path, such as a path below the changed one, is
    never called, although the bindings below the path are updated.  The
    path names no inherited member. *)
Theorem notify_calls_no_deeper_observer (fuel : nat) (st : state) (P : string)
  (V : value) (A : action) (el : option elem) :
  plain_path P = true ->
  max_observers (observables st) < fuel ->
  exists tr,
    notify opaque fuel P V A el st = Ok tt st tr
    /\ (forall cb n, In (Notified cb n) tr ->
          n_path n = None \/ n_path n = Some P
          \/ exists anc, n_path n = Some anc /\ In anc (ancestors P))
    /\ (forall cb n D, In (Notified cb n) tr ->
          String.length P < String.length D -> n_path n <> Some D)
    /\ (forall cb n (k : string), In (Notified cb n) tr ->
          n_path n <> Some (P ++ "." ++ k)%string).
Proof.
  intros _ Hf. exists (notify_trace st P V A el).
  split; [now apply notify_opaque|].
  assert (G : forall cb n D, In (Notified cb n) (notify_trace st P V A el) ->
                String.length P < String.length D -> n_path n <> Some D).
  { intros cb n D H HD E.
    apply notify_trace_notified in H as (_ & _ & _ & [[H _]|[(anc & Ha & H & _)|[H _]]]);
      rewrite H in E; try discriminate; injection E as <-; [lia|].
    apply ancestors_shorter in Ha. lia. }
  split; [|split; [exact G|]].
  - intros cb n H.
    apply notify_trace_notified in H as (_ & _ & _ & [[H _]|[(anc & Ha & H & _)|[H _]]]);
      auto. right. right. now exists anc.
  - intros cb n k H. apply (G cb n _ H).
    rewrite !string_length_append. cbn. lia.
Qed.

Lemma notify_calls_no_deeper_observer_witness :
  let st := mkState (VObj 0 [("a", VObj 1 [("b", VNum 1)])])
              [("a.b", [("value", [mkBinding 7 (mkOptions "change" true)])])]
              [("a.b", [mkObserver 1 None]); ("a", [mkObserver 2 None])] 2 in
  exists tr,
    notify opaque 2 "a" (VObj 1 [("b", VNum 1)]) Update None st = Ok tt st tr
    /\ In (DomUpdate "a.b" "value" 7 (VNum 1)) tr
    /\ forall cb n, In (Notified cb n) tr -> n_path n <> Some "a.b".
Proof.
  intros st.
  destruct (notify_calls_no_deeper_observer 2 st "a" (VObj 1 [("b", VNum 1)])
              Update None eq_refl ltac:(vm_compute; lia)) as (tr & E & _ & _ & H).
  exists tr. split; [exact E|]. split.
  - vm_compute in E. injection E as <-. left. reflexivity.
  - intros cb n Hn. exact (H cb n "b" Hn).
Defined.

(* ================================================================== *)
(** ** Writing and reading back *)
(* ================================================================== *)

Lemma string_of_N_nonempty (n : N) : string_of_N n <> "".
Proof.
  intros E. pose proof (digits_prefix_string_of_N n) as H.
  rewrite E in H. discriminate.
Qed.

Lemma no_leading_dot (path : string) :
  String.prefix "." path = false -> path <> "" ->
  removelast (split path) <> [""].
Proof.
  intros Hp Hne. destruct path as [|c p]; [congruence|].
  cbn [String.prefix] in Hp. cbn [split].
  destruct (Ascii.eqb c dot) eqn:Ec.
  - apply Ascii.eqb_eq in Ec. subst c. unfold dot in Hp.
    destruct (ascii_dec "." "."); [|congruence].
    destruct p; discriminate.
  - destruct (split p) as [|h t]; [discriminate|].
    destruct t; [discriminate|]. cbn. intros E. discriminate.
Qed.

(** The last step of [get] finds what the last step of [set] has stored,
    under the last segment of the path [set] reports. *)
Lemma set_target_read_back (prev : value) (path : string) (V : value) :
  isObject prev = true -> addressable prev (last (split path) "") ->
  within_index_limit prev ->
  removelast (split path) <> [""] -> path <> "" -> V <> VUndefined ->
  exists old prev' k,
    prop_get prev (fst (set_target prev path (last (split path) ""))) = Some old
    /\ prop_set prev (fst (set_target prev path (last (split path) ""))) V
       = Written prev'
    /\ isObject prev' = true
    /\ get_step false prev' k = V
    /\ split (snd (set_target prev path (last (split path) "")))
       = removelast (split path) ++ [k]
    /\ snd (set_target prev path (last (split path) "")) <> "".
Proof.
  intros Hobj Ha Hlim Hdot Hne HV. destruct prev; try discriminate.
  - cbn [set_target fst snd prop_get prop_set key_string].
    exists (undefined_if_none (assoc (last (split path) "") fields)).
    exists (VObj r (assoc_set (last (split path) "") V fields)).
    exists (last (split path) "").
    split; [reflexivity|]. split; [reflexivity|]. split; [reflexivity|].
    split; [|split; [apply split_last|exact Hne]].
    unfold get_step. cbn [truthy prop_get key_string].
    rewrite assoc_set_same. cbn [undefined_if_none].
    destruct V; try reflexivity. congruence.
  - destruct Ha as (i & Hp & Hc). cbn [within_index_limit] in Hlim.
    destruct (set_target_sequence r elems path _ i Hp Hc) as (Hk & HP & Hj).
    rewrite (prop_set_sequence r elems _ _ V Hk Hj). cbn [prop_get]. rewrite Hk.
    destruct (nth_error_write_at elems _ V Hj) as [Hn Hl].
    set (j := clamp_index i (List.length elems)) in *.
    do 2 eexists. exists (string_of_N (N.of_nat j)).
    split; [reflexivity|]. split; [reflexivity|]. split; [reflexivity|].
    split; [|split].
    + unfold get_step. cbn [truthy prop_get key_index].
      rewrite array_index_string_of_N by lia. rewrite Nat2N.id, Hn.
      replace (N.of_nat j <? N.of_nat (List.length (write_at j V elems)))%N
        with true by (symmetry; apply N.ltb_lt; lia).
      cbn [undefined_if_none]. destruct V; try reflexivity. congruence.
    + rewrite HP. apply split_child_path; [exact Hdot|apply no_dot_string_of_N].
    + rewrite HP. unfold child_path. intros E.
      apply (string_of_N_nonempty (N.of_nat j)).
      destruct (getParentPath path =? ""); [exact E|].
      destruct (getParentPath path); discriminate.
Qed.

(** [set] of a value that is not [undefined]: what it stores, reports
    and leaves alone. *)
Lemma set_stores (fuel : nat) (st : state) (path : string) (V : value)
  (el : option elem) (c : cursor) (nxt : ref) :
  isObject (data st) = true ->
  path <> "" -> String.prefix "." path = false ->
  V <> VUndefined ->
  strict_eq (get_in (data st) path false) V = false ->
  descend (data st) (removelast (split path)) (next_ref st) [] = Reached c nxt ->
  addressable (focus c) (last (split path) "") ->
  within_index_limit (focus c) ->
  max_observers (observables st) < fuel ->
  exists P' st' a,
    set opaque fuel path V el st = Ok (Some P') st' (notify_trace st' P' V a el)
    /\ get_in (data st') P' false = V
    /\ bindings st' = bindings st
    /\ observables st' = observables st
    /\ (isArray (focus c) = false -> P' = path).
Proof.
  intros Hroot Hne Hdot HV Hneq Hd Ha Hlim Hf.
  pose proof (descend_focus_object _ _ _ _ _ _ Hroot Hd) as Hfo.
  destruct (set_target_read_back (focus c) path V Hfo Ha Hlim
              (no_leading_dot path Hdot Hne) Hne HV)
    as (old & prev' & k & Hg & Hs & Ho & Hk & Hsplit & HP).
  pose proof (set_writes fuel path V el st c nxt old prev' Hneq Hd Hg Hs Hf) as E.
  do 3 eexists. split; [exact E|].
  split; [|split; [reflexivity|split; [reflexivity|]]].
  - cbn [data]. unfold get_in. apply String.eqb_neq in HP. rewrite HP, Hsplit.
    rewrite fold_left_app. cbn [fold_left].
    change (fold_left (get_step false) (removelast (split path))
              (plug prev' (frames c)))
      with (get_segs (plug prev' (frames c)) (removelast (split path))).
    now rewrite (get_after_walk _ _ _ _ _ prev' Hroot Hd Ho).
  - intros Harr. destruct (focus c); try discriminate; reflexivity.
Qed.

(** X3.  What [set] has written, [get] reads back at the path [set]
    returned: for a value other than [undefined] and a path that neither
    is empty nor begins with a dot, when the root is a mapping or a
    sequence and the call is not cut short by the test for an identical
    value.  The registries are left as they were.  The path names no
    inherited member and is read through mappings and sequences up to
    its last segment. *)
Theorem set_then_get (fuel : nat) (st : state) (path : string) (V : value)
  (el : option elem) (c : cursor) (nxt : ref) :
  plain_path path = true ->
  reads_members (data st) (removelast (split path)) = true ->
  isObject (data st) = true ->
  path <> "" -> String.prefix "." path = false ->
  V <> VUndefined ->
  strict_eq (get_in (data st) path false) V = false ->
  descend (data st) (removelast (split path)) (next_ref st) [] = Reached c nxt ->
  addressable (focus c) (last (split path) "") ->
  within_index_limit (focus c) ->
  max_observers (observables st) < fuel ->
  exists P' st' tr,
    set opaque fuel path V el st = Ok (Some P') st' tr
    /\ get_in (data st') P' false = V
    /\ bindings st' = bindings st
    /\ observables st' = observables st.
Proof.
  intros _ _ Hroot Hne Hdot HV Hneq Hd Ha Hlim Hf.
  destruct (set_stores fuel st path V el c nxt Hroot Hne Hdot HV Hneq Hd Ha
              Hlim Hf) as (P' & st' & a & E & Hg & Hb & Ho & _).
  now exists P', st', (notify_trace st' P' V a el).
Qed.

Lemma set_then_get_witness :
  let st := mkState (VObj 0 [("list", VArr 1 [VStr "x"; VStr "y"])]) [] [] 2 in
  (exists P' st' tr,
     set opaque 1 "list.10" (VStr "z") None st = Ok (Some P') st' tr
     /\ get_in (data st') P' false = VStr "z"
     /\ bindings st' = bindings st /\ observables st' = observables st)
  /\ (exists P' st' tr,
        set opaque 1 "a.b.c" (VNum 1) None st = Ok (Some P') st' tr
        /\ get_in (data st') P' false = VNum 1
        /\ bindings st' = bindings st /\ observables st' = observables st).
Proof.
  intros st. split.
  - apply (set_then_get 1 st "list.10" (VStr "z") None
             (mkCursor (VArr 1 [VStr "x"; VStr "y"]) [(data st, "list")]) 2);
      try reflexivity; try (intro H; discriminate H); try (vm_compute; lia).
    exists 10%Z. split; [reflexivity|]. cbn. lia.
  - apply (set_then_get 1 st "a.b.c" (VNum 1) None
             (mkCursor (VObj 3 [])
                [(VObj 2 [("b", VObj 3 [])], "b");
                 (VObj 0 [("list", VArr 1 [VStr "x"; VStr "y"]);
                          ("a", VObj 2 [])], "a")]) 4);
      try reflexivity; try (intro H; discriminate H); try (vm_compute; lia).
Defined.

(** *** What a write leaves alone *)

Lemma descend_app (a b : list string) :
  forall prev nxt ctx,
  descend prev (a ++ b) nxt ctx
  = match descend prev a nxt ctx with
    | Reached c1 n1 => descend (focus c1) b n1 (frames c1)
    | DescendThrows => DescendThrows
    | DescendUnsupported => DescendUnsupported
    end.
Proof.
  induction a as [|cur a IH]; intros prev nxt ctx; [reflexivity|].
  cbn [app descend]. destruct (prop_get prev (KStr cur)) as [child|]; [|reflexivity].
  destruct (isObject child); [apply IH|].
  destruct (prop_set prev (KStr cur) (VObj nxt [])); try reflexivity. apply IH.
Qed.

(** A walk that goes through the member [s] of a mapping puts back a
    mapping that differs from it at [s] only. *)
Lemma plug_keeps_siblings (d : value) (common : list string) (s : string)
  (rest : list string) nxt c nxt' r fields (X : value) :
  get_segs d common = VObj r fields ->
  descend d (common ++ s :: rest) nxt [] = Reached c nxt' ->
  isObject X = true ->
  exists fields',
    get_segs (plug X (frames c)) common = VObj r fields'
    /\ forall s', s' <> s -> assoc s' fields' = assoc s' fields.
Proof.
  intros Hc Hd HX.
  assert (Hroot : isObject d = true)
    by (eapply get_segs_object_root; [exact Hc|reflexivity]).
  destruct (descend_existing common d nxt [] (VObj r fields) eq_refl Hc)
    as (fr & Hd0).
  rewrite descend_app, Hd0 in Hd. cbn [focus frames descend prop_get key_string] in Hd.
  assert (G : exists root1 fieldsP,
             plug X (frames c) = plug root1 ((VObj r fieldsP, s) :: fr)
             /\ isObject root1 = true
             /\ forall s', s' <> s -> assoc s' fieldsP = assoc s' fields).
  { destruct (isObject (undefined_if_none (assoc s fields))) eqn:Eo.
    - destruct (descend_plug rest _ _ _ _ _ Eo Hd X HX) as (root1 & Hp & Ho & _).
      exists root1, fields. split; [exact Hp|]. split; [exact Ho|reflexivity].
    - cbn [prop_set key_string] in Hd.
      destruct (descend_plug rest (VObj nxt []) _ _ _ _ eq_refl Hd X HX)
        as (root1 & Hp & Ho & _).
      exists root1, (assoc_set s (VObj nxt []) fields).
      split; [exact Hp|]. split; [exact Ho|].
      intros s' Hs'. now apply assoc_set_other. }
  destruct G as (root1 & fieldsP & Hp & Ho & Hsame).
  rewrite Hp, plug_cons. unfold put_child. cbn [prop_set key_string].
  exists (assoc_set s root1 fieldsP). split.
  - exact (get_after_walk d common nxt (mkCursor (VObj r fields) fr) nxt
             (VObj r (assoc_set s root1 fieldsP)) Hroot Hd0 eq_refl).
  - intros s' Hs'. rewrite assoc_set_other by exact Hs'. now apply Hsame.
Qed.

Lemma get_step_mapping (r : ref) (fields fields' : list (string * value))
  (k : string) :
  assoc k fields' = assoc k fields ->
  get_step false (VObj r fields') k = get_step false (VObj r fields) k.
Proof. intros E. unfold get_step. cbn [truthy prop_get key_string]. now rewrite E. Qed.

(** X4.  [set] at a path leaves every path that leaves it at a mapping
    as it was: when [path] and [q] share the segments [common], the
    document holds a mapping there and the next segments differ, [get(q)]
    gives after the call what it gave before.  No object of the document
    is held under two paths, and [path] names no inherited member. *)
Theorem set_leaves_other_members (fuel : nat) (st : state) (path q : string)
  (V : value) (el : option elem) (c : cursor) (nxt : ref)
  (common rest rest' : list string) (s s' : string) (r : ref)
  (fields : list (string * value)) :
  plain_path path = true ->
  no_sharing (data st) ->
  split path = common ++ s :: rest ->
  split q = common ++ s' :: rest' ->
  s' <> s -> q <> "" ->
  get_segs (data st) common = VObj r fields ->
  descend (data st) (removelast (split path)) (next_ref st) [] = Reached c nxt ->
  addressable (focus c) (last (split path) "") ->
  max_observers (observables st) < fuel ->
  exists res st' tr,
    set opaque fuel path V el st = Ok res st' tr
    /\ get_in (data st') q false = get_in (data st) q false.
Proof.
  intros _ _ Hpath Hq Hs Hqne Hc Hd Ha Hf.
  assert (Hroot : isObject (data st) = true)
    by (eapply get_segs_object_root; [exact Hc|reflexivity]).
  destruct (strict_eq (get_in (data st) path false) V) eqn:Hneq.
  { exists None, st, []. split; [|reflexivity]. unfold set.
    rewrite (mbind_ok _ _ st (get_in (data st) path false) st []) by reflexivity.
    now rewrite after_nil, Hneq. }
  pose proof (descend_focus_object _ _ _ _ _ _ Hroot Hd) as Hfo.
  destruct (set_target_supported _ path _ V Hfo Ha)
    as (old & prev' & Hg & Hw & _).
  pose proof (set_writes fuel path V el st c nxt old prev' Hneq Hd Hg Hw Hf) as E.
  do 3 eexists. split; [exact E|]. cbn [data].
  assert (Hprev : isObject prev' = true)
    by (eapply prop_set_slot; [exact Hfo|exact Hw]).
  assert (G : exists fields',
             get_segs (plug prev' (frames c)) common = VObj r fields'
             /\ forall k, k <> s -> assoc k fields' = assoc k fields).
  { rewrite Hpath in Hd, Hw. rewrite removelast_app in Hd by discriminate.
    destruct rest as [|s2 rest2].
    - cbn [removelast] in Hd. rewrite app_nil_r in Hd.
      destruct (descend_existing common (data st) (next_ref st) []
                  (VObj r fields) eq_refl Hc) as (fr & Hd0).
      rewrite Hd0 in Hd. injection Hd as <- <-.
      rewrite last_last in Hw.
      cbn [focus set_target fst prop_set key_string] in Hw. injection Hw as <-.
      exists (assoc_set s V fields). split.
      + exact (get_after_walk (data st) common (next_ref st)
                 (mkCursor (VObj r fields) fr) (next_ref st)
                 (VObj r (assoc_set s V fields)) Hroot Hd0 eq_refl).
      + intros k Hk. now apply assoc_set_other.
    - change (removelast (s :: s2 :: rest2))
        with (s :: removelast (s2 :: rest2)) in Hd.
      exact (plug_keeps_siblings (data st) common s _ _ _ _ r fields prev'
               Hc Hd Hprev). }
  destruct G as (fields' & Hg' & Hsame).
  unfold get_in. apply String.eqb_neq in Hqne. rewrite Hqne, Hq.
  rewrite !fold_left_app.
  change (fold_left (get_step false) common (plug prev' (frames c)))
    with (get_segs (plug prev' (frames c)) common).
  change (fold_left (get_step false) common (data st))
    with (get_segs (data st) common).
  rewrite Hg', Hc. cbn [fold_left].
  now rewrite (get_step_mapping r fields fields' s' (Hsame s' Hs)).
Qed.

Lemma set_leaves_other_members_witness :
  let st := mkState (VObj 0 [("a", VObj 1 [("b", VNum 1); ("c", VArr 2 [VNum 2])]);
                             ("d", VNum 3)]) [] [] 3 in
  exists res st' tr,
    set opaque 1 "a.b.x" (VStr "v") None st = Ok res st' tr
    /\ get_in (data st') "a.c.0" false = get_in (data st) "a.c.0" false.
Proof.
  intros st.
  apply (set_leaves_other_members 1 st "a.b.x" "a.c.0" (VStr "v") None
           (mkCursor (VObj 3 [])
              [(VObj 1 [("b", VObj 3 []); ("c", VArr 2 [VNum 2])], "b");
               (data st, "a")]) 4
           ["a"] ["x"] ["0"] "b" "c" 1 [("b", VNum 1); ("c", VArr 2 [VNum 2])]);
    try reflexivity; try (intro H; discriminate H); try (vm_compute; lia).
  vm_compute. repeat constructor; simpl; intuition discriminate.
Defined.

(** *** Create or update *)

(** Where the default mode of [get] finds a mapping or a sequence, the
    other mode finds the same. *)
Lemma get_segs_modes_object (segs : list string) (d X : value) :
  get_segs d segs = X -> isObject X = true ->
  fold_left (get_step true) segs d = X.
Proof.
  intros E HX. destruct segs as [|k segs]; [exact E|].
  unfold get_segs in E.
  rewrite (get_segs_modes (k :: segs) d d) in E by (auto; discriminate).
  destruct (is_undefined (fold_left (get_step true) (k :: segs) d)); [|exact E].
  subst X. discriminate.
Qed.

(** X6.  [set] on a member of an existing mapping reports [create] when
    the member did not exist, that is when [get(path, true)] was
    [undefined], and [update] otherwise, also for a member that held
    [null]; every observer it calls receives that action, the path and
    the element passed to [set].  The path names no inherited member and
    the document holds no object under two paths. *)
Theorem set_reports_create_or_update (fuel : nat) (st : state) (path : string)
  (V : value) (el : option elem) (r : ref) (fields : list (string * value)) :
  plain_path path = true -> no_sharing (data st) ->
  path <> "" ->
  get_segs (data st) (removelast (split path)) = VObj r fields ->
  strict_eq (get_in (data st) path false) V = false ->
  max_observers (observables st) < fuel ->
  let a := if is_undefined (get_in (data st) path true) then Create else Update in
  exists st' tr,
    set opaque fuel path V el st = Ok (Some path) st' tr
    /\ tr = notify_trace st' path V a el
    /\ forall cb n, In (Notified cb n) tr ->
         n_action n = a /\ n_changedPath n = path /\ n_element n = el.
Proof.
  intros _ _ Hne Hparent Hneq Hf a.
  destruct (descend_existing (removelast (split path)) (data st) (next_ref st) []
              (VObj r fields) eq_refl Hparent) as (fr & Hd).
  pose proof (set_writes fuel path V el st _ _
                (undefined_if_none (assoc (last (split path) "") fields))
                (VObj r (assoc_set (last (split path) "") V fields))
                Hneq Hd eq_refl eq_refl Hf) as E.
  cbn [focus frames set_target snd] in E.
  assert (Ha : (if is_undefined
                     (undefined_if_none (assoc (last (split path) "") fields))
                then Create else Update) = a).
  { unfold a, get_in. apply String.eqb_neq in Hne. rewrite Hne.
    rewrite (split_last path) at 2. rewrite fold_left_app.
    rewrite (get_segs_modes_object _ _ _ Hparent eq_refl).
    cbn [fold_left]. unfold get_step. cbn [truthy prop_get key_string].
    destruct (undefined_if_none (assoc (last (split path) "") fields));
      reflexivity. }
  rewrite Ha in E. do 2 eexists. split; [exact E|]. split; [reflexivity|].
  intros cb n H. apply notify_trace_notified in H. tauto.
Qed.

Lemma set_reports_create_or_update_witness :
  let st := mkState (VObj 0 [("a", VObj 1 [("b", VNull)])]) []
              [("a", [mkObserver 1 None])] 2 in
  (exists st',
     set opaque 2 "a.b" (VNum 5) None st
     = Ok (Some "a.b") st'
         [Notified 1 (mkNotification (Some "a") Update "a.b"
                        (VObj 1 [("b", VNum 5)]) None None)])
  /\ (exists st',
        set opaque 2 "a.c" (VNum 5) (Some 7) st
        = Ok (Some "a.c") st'
            [Notified 1 (mkNotification (Some "a") Create "a.c"
                           (VObj 1 [("b", VNull); ("c", VNum 5)]) (Some 7) None)]).
Proof.
  intros st. split.
  - destruct (set_reports_create_or_update 2 st "a.b" (VNum 5) None 1
                [("b", VNull)] eq_refl
                ltac:(vm_compute; repeat constructor; simpl; intuition discriminate)
                ltac:(intro H; discriminate H) eq_refl eq_refl
                ltac:(vm_compute; lia)) as (st' & tr & E & _ & _).
    exists st'. rewrite E. vm_compute in E. now injection E as <- <-.
  - destruct (set_reports_create_or_update 2 st "a.c" (VNum 5) (Some 7) 1
                [("b", VNull)] eq_refl
                ltac:(vm_compute; repeat constructor; simpl; intuition discriminate)
                ltac:(intro H; discriminate H) eq_refl eq_refl
                ltac:(vm_compute; lia)) as (st' & tr & E & _ & _).
    exists st'. rewrite E. vm_compute in E. now injection E as <- <-.
Defined.

(** *** What a write replaces on its way *)

Lemma assoc_set_twice {A : Type} (k : string) (a b : A) (l : list (string * A)) :
  assoc_set k b (assoc_set k a l) = assoc_set k b l.
Proof.
  induction l as [|[k' x] l IH]; cbn [assoc_set].
  - now rewrite String.eqb_refl.
  - destruct (k' =? k) eqn:E; cbn [assoc_set].
    + now rewrite String.eqb_refl.
    + now rewrite E, IH.
Qed.

(** X25.  [set] makes its way through what is no mapping or sequence:
    when the member [a] of the root mapping is missing or holds a
    primitive value or [null], [set("a.k", V)] puts a new mapping in its
    place that holds [k] only, and what [a] held is lost.  Neither [a]
    nor [k] names an inherited member, and the document holds no object
    under two paths. *)
Theorem set_replaces_what_is_no_mapping (fuel : nat) (st : state)
  (a k : string) (V : value) (el : option elem) (r : ref)
  (fields : list (string * value)) :
  data st = VObj r fields ->
  own_name a = true -> own_name k = true -> no_sharing (data st) ->
  a <> "" -> no_dot a = true -> no_dot k = true ->
  isObject (get_in (data st) a false) = false ->
  strict_eq (get_in (data st) (a ++ "." ++ k) false) V = false ->
  max_observers (observables st) < fuel ->
  exists st' tr,
    set opaque fuel (a ++ "." ++ k) V el st = Ok (Some (a ++ "." ++ k)%string) st' tr
    /\ data st' = VObj r (assoc_set a (VObj (next_ref st) [(k, V)]) fields)
    /\ next_ref st' = S (next_ref st).
Proof.
  intros Hdata _ _ _ Ha Hda Hdk Hprim Hneq Hf.
  assert (Hs : split (a ++ "." ++ k) = [a; k])
    by (rewrite split_app_dot, !split_no_dot by assumption; reflexivity).
  assert (Hchild : isObject (undefined_if_none (assoc a fields)) = false).
  { rewrite Hdata in Hprim. unfold get_in in Hprim.
    apply String.eqb_neq in Ha. rewrite Ha, split_no_dot in Hprim by exact Hda.
    cbn [fold_left] in Hprim. unfold get_step in Hprim.
    cbn [truthy prop_get key_string] in Hprim.
    destruct (undefined_if_none (assoc a fields)); try reflexivity;
      cbn in Hprim; discriminate. }
  pose proof (set_writes fuel (a ++ "." ++ k) V el st
                (mkCursor (VObj (next_ref st) [])
                   [(VObj r (assoc_set a (VObj (next_ref st) []) fields), a)])
                (S (next_ref st)) VUndefined (VObj (next_ref st) [(k, V)])
                Hneq) as E.
  rewrite Hs, Hdata in E.
  cbn [removelast last descend prop_get key_string focus frames set_target
         fst snd prop_set assoc assoc_set undefined_if_none] in E.
  rewrite Hchild in E. specialize (E eq_refl eq_refl eq_refl Hf).
  do 2 eexists. split; [exact E|].
  cbn [data next_ref plug fold_left fst snd]. unfold put_child.
  cbn [prop_set key_string]. now rewrite assoc_set_twice.
Qed.

Lemma set_replaces_what_is_no_mapping_witness :
  let st := mkState (VObj 0 [("a", VStr "text"); ("b", VNum 2)]) [] [] 1 in
  exists st' tr,
    set opaque 1 "a.k" (VNum 1) None st = Ok (Some "a.k") st' tr
    /\ data st' = VObj 0 [("a", VObj 1 [("k", VNum 1)]); ("b", VNum 2)].
Proof.
  intros st.
  destruct (set_replaces_what_is_no_mapping 1 st "a" "k" (VNum 1) None 0
              [("a", VStr "text"); ("b", VNum 2)] eq_refl eq_refl eq_refl
              ltac:(vm_compute; repeat constructor; simpl; intuition discriminate)
              ltac:(intro H; discriminate H) eq_refl eq_refl eq_refl eq_refl
              ltac:(vm_compute; lia)) as (st' & tr & E & Hd & _).
  exists st', tr. split; [exact E|exact Hd].
Defined.

(* ================================================================== *)
(** ** Deleting *)
(* ================================================================== *)

Lemma assoc_remove_same {A : Type} (k : string) (l : list (string * A)) :
  assoc k (assoc_remove k l) = None.
Proof.
  unfold assoc_remove.
  rewrite (assoc_filter_keys (fun x => negb (x =? k)) k l).
  now rewrite String.eqb_refl.
Qed.

Lemma delete_written (fuel : nat) (path : string) (st : state) c nxt prev' :
  descend (data st) (removelast (split path)) (next_ref st) [] = Reached c nxt ->
  delete_at (focus c) (last (split path) "") = Written prev' ->
  max_observers (observables st) < fuel ->
  exists tr,
    delete opaque fuel path st = Ok tt (after_delete st path c nxt prev') tr.
Proof.
  intros Hd Hw Hf.
  destruct (delete_outcome fuel path st c nxt Hd Hf) as (listeners & _ & E).
  rewrite Hw in E. eauto.
Qed.

Lemma delete_at_object (prev prev' : value) (cur : string) :
  isObject prev = true -> delete_at prev cur = Written prev' ->
  isObject prev' = true.
Proof.
  destruct prev; try discriminate; intros _; cbn.
  - now intros [= <-].
  - destruct (to_integer cur); [now intros [= <-]|discriminate].
Qed.

(** X7.  After [delete(path)] on a member of a mapping the member is
    gone: [get(path)] gives [null] and [get(path, true)] gives
    [undefined].  The path names no inherited member. *)
Theorem delete_then_get (fuel : nat) (st : state) (path : string)
  (c : cursor) (nxt : ref) :
  plain_path path = true ->
  isObject (data st) = true ->
  path <> "" ->
  descend (data st) (removelast (split path)) (next_ref st) [] = Reached c nxt ->
  isArray (focus c) = false ->
  max_observers (observables st) < fuel ->
  exists st' tr,
    delete opaque fuel path st = Ok tt st' tr
    /\ get_in (data st') path false = VNull
    /\ get_in (data st') path true = VUndefined.
Proof.
  intros _ Hroot Hne Hd Harr Hf.
  pose proof (descend_focus_object _ _ _ _ _ _ Hroot Hd) as Hfo.
  destruct (focus c) as [| | | | | |r fields|] eqn:Ef; try discriminate.
  destruct (delete_written fuel path st c nxt
              (VObj r (assoc_remove (last (split path) "") fields)) Hd
              ltac:(now rewrite Ef) Hf) as (tr & E).
  do 2 eexists. split; [exact E|]. cbn [after_delete data].
  pose proof (get_after_walk _ _ _ _ _
                (VObj r (assoc_remove (last (split path) "") fields))
                Hroot Hd eq_refl) as Hg.
  rewrite !get_in_last by exact Hne.
  rewrite (get_segs_modes_object _ _ _ Hg eq_refl).
  change (fold_left (get_step false) (removelast (split path))
            (plug (VObj r (assoc_remove (last (split path) "") fields))
               (frames c)))
    with (get_segs (plug (VObj r (assoc_remove (last (split path) "") fields))
                      (frames c)) (removelast (split path))).
  rewrite Hg. unfold get_step.
  cbn [truthy prop_get key_string]. now rewrite assoc_remove_same.
Qed.

Lemma delete_then_get_witness :
  let st := mkState (VObj 0 [("a", VObj 1 [("b", VNum 1); ("c", VNum 2)])])
              [] [] 2 in
  exists st' tr,
    delete opaque 1 "a.b" st = Ok tt st' tr
    /\ get_in (data st') "a.b" false = VNull
    /\ get_in (data st') "a.b" true = VUndefined.
Proof.
  intros st.
  apply (delete_then_get 1 st "a.b"
           (mkCursor (VObj 1 [("b", VNum 1); ("c", VNum 2)]) [(data st, "a")]) 2);
    try reflexivity; try (intro H; discriminate H); try (vm_compute; lia).
Defined.

(** X8.  [delete] creates what it does not find on the way: after
    [delete(path)] the parent of [path] is a mapping or a sequence, also
    when the document had nothing there before.  The path names no
    inherited member. *)
Theorem delete_creates_the_parents (fuel : nat) (st : state) (path : string)
  (c : cursor) (nxt : ref) :
  plain_path path = true ->
  isObject (data st) = true ->
  descend (data st) (removelast (split path)) (next_ref st) [] = Reached c nxt ->
  removable (focus c) (last (split path) "") ->
  max_observers (observables st) < fuel ->
  exists st' tr,
    delete opaque fuel path st = Ok tt st' tr
    /\ isObject (get_segs (data st') (removelast (split path))) = true.
Proof.
  intros _ Hroot Hd Hr Hf.
  pose proof (descend_focus_object _ _ _ _ _ _ Hroot Hd) as Hfo.
  destruct (removable_written _ _ Hfo Hr) as (prev' & Hw).
  destruct (delete_written fuel path st c nxt prev' Hd Hw Hf) as (tr & E).
  do 2 eexists. split; [exact E|]. cbn [after_delete data].
  pose proof (delete_at_object _ _ _ Hfo Hw) as Ho.
  now rewrite (get_after_walk _ _ _ _ _ prev' Hroot Hd Ho).
Qed.

Lemma delete_creates_the_parents_witness :
  let st := mkState (VObj 0 [("x", VNum 1)]) [] [] 1 in
  get_in (data st) "a.b" false = VNull
  /\ exists st' tr,
       delete opaque 1 "a.b.c" st = Ok tt st' tr
       /\ isObject (get_segs (data st') ["a"; "b"]) = true.
Proof.
  intros st. split; [reflexivity|].
  apply (delete_creates_the_parents 1 st "a.b.c"
           (mkCursor (VObj 2 [])
              [(VObj 1 [("b", VObj 2 [])], "b");
               (VObj 0 [("x", VNum 1); ("a", VObj 1 [])], "a")]) 3);
    try reflexivity; try (vm_compute; lia).
Defined.

(** *** Deleting in a sequence *)

Lemma remove_at_nth {A : Type} (l : list A) (k : nat) :
  (forall j, j < k ->
     nth_error (firstn k l ++ skipn (S k) l) j = nth_error l j)
  /\ (forall j, k <= j ->
        nth_error (firstn k l ++ skipn (S k) l) j = nth_error l (S j)).
Proof.
  split; intros j Hj.
  - destruct (Nat.lt_ge_cases j (List.length l)) as [Hl|Hl].
    + rewrite nth_error_app1 by (rewrite length_firstn; lia).
      rewrite nth_error_firstn.
      now replace (Nat.ltb j k) with true by (symmetry; apply Nat.ltb_lt; lia).
    + rewrite nth_error_app2 by (rewrite length_firstn; lia).
      rewrite nth_error_skipn.
      transitivity (@None A); [|symmetry]; apply nth_error_None;
        rewrite ?length_firstn; lia.
  - rewrite nth_error_app2 by (rewrite length_firstn; lia).
    rewrite nth_error_skipn, length_firstn.
    destruct (Nat.le_gt_cases k (List.length l)) as [Hl|Hl].
    + f_equal. lia.
    + transitivity (@None A); [|symmetry]; apply nth_error_None; lia.
Qed.

Lemma splice_remove_index {A : Type} (i : nat) (l : list A) :
  (forall j, j < i ->
     nth_error (splice_remove (Z.of_nat i) l) j = nth_error l j)
  /\ (forall j, i <= j ->
        nth_error (splice_remove (Z.of_nat i) l) j = nth_error l (S j))
  /\ List.length (splice_remove (Z.of_nat i) l)
     = List.length l - (if Nat.ltb i (List.length l) then 1 else 0).
Proof.
  unfold splice_remove, splice_start.
  replace (Z.of_nat i <? 0)%Z with false by (symmetry; apply Z.ltb_ge; lia).
  set (k := Z.to_nat (Z.min (Z.of_nat i) (Z.of_nat (List.length l)))).
  assert (Hk : k = Nat.min i (List.length l)) by (unfold k; lia).
  destruct (remove_at_nth l k) as [H1 H2].
  split; [|split].
  - intros j Hj. destruct (Nat.lt_ge_cases j k) as [Hjk|Hjk]; [now apply H1|].
    rewrite H2 by exact Hjk.
    transitivity (@None A); [|symmetry]; apply nth_error_None; lia.
  - intros j Hj. apply H2. lia.
  - rewrite length_app, length_firstn, length_skipn.
    destruct (Nat.ltb_spec i (List.length l)); lia.
Qed.

(** X9.  [delete] of the element [i] of a sequence takes it out and moves
    the elements after it one place down: the paths of the later elements
    change.  The path names no inherited member. *)
Theorem delete_shifts_the_sequence (fuel : nat) (st : state) (path : string)
  (r : ref) (elems : list value) (i : nat) :
  plain_path path = true ->
  get_segs (data st) (removelast (split path)) = VArr r elems ->
  last (split path) "" = string_of_N (N.of_nat i) ->
  max_observers (observables st) < fuel ->
  exists st' tr elems',
    delete opaque fuel path st = Ok tt st' tr
    /\ get_segs (data st') (removelast (split path)) = VArr r elems'
    /\ (forall j, j < i -> nth_error elems' j = nth_error elems j)
    /\ (forall j, i <= j -> nth_error elems' j = nth_error elems (S j))
    /\ List.length elems'
       = List.length elems - (if Nat.ltb i (List.length elems) then 1 else 0).
Proof.
  intros _ Hparent Hlast Hf.
  assert (Hroot : isObject (data st) = true)
    by (eapply get_segs_object_root; [exact Hparent|reflexivity]).
  destruct (descend_existing (removelast (split path)) (data st) (next_ref st) []
              (VArr r elems) eq_refl Hparent) as (fr & Hd).
  destruct (delete_written fuel path st _ _
              (VArr r (splice_remove (Z.of_nat i) elems)) Hd) as (tr & E);
    [|exact Hf|].
  { cbn [focus delete_at]. rewrite Hlast, to_integer_string_of_N.
    now rewrite nat_N_Z. }
  exists (after_delete st path (mkCursor (VArr r elems) fr) (next_ref st)
            (VArr r (splice_remove (Z.of_nat i) elems))), tr,
         (splice_remove (Z.of_nat i) elems).
  split; [exact E|]. split.
  - cbn [after_delete data].
    exact (get_after_walk _ _ _ _ _ (VArr r _) Hroot Hd eq_refl).
  - apply splice_remove_index.
Qed.

Lemma delete_shifts_the_sequence_witness :
  let st := mkState (VObj 0 [("l", VArr 1 [VStr "x"; VStr "y"; VStr "z"])])
              [] [] 2 in
  exists st' tr,
    delete opaque 1 "l.1" st = Ok tt st' tr
    /\ get_in (data st') "l.1" false = VStr "z"
    /\ get_in (data st') "l" false = VArr 1 [VStr "x"; VStr "z"].
Proof.
  intros st.
  destruct (delete_shifts_the_sequence 1 st "l.1" 1
              [VStr "x"; VStr "y"; VStr "z"] 1 eq_refl eq_refl eq_refl
              ltac:(vm_compute; lia)) as (st' & tr & elems' & E & _).
  exists st', tr. split; [exact E|].
  vm_compute in E. injection E as <- _. split; reflexivity.
Defined.

Lemma to_integer_word (c : ascii) (w : string) :
  is_ident_start c = true -> to_integer (String c w) = Some 0%Z.
Proof. intros H. cbn [to_integer]. now rewrite H. Qed.

Lemma to_integer_negative (n : N) :
  to_integer ("-" ++ string_of_N n) = Some (- Z.of_N n)%Z.
Proof.
  cbn [String.append to_integer]. 
  change (is_ident_start "-") with false. cbn [all_digits].
  change (digit_of "-") with (@None N). cbn [Ascii.eqb Bool.eqb andb].
  rewrite all_digits_string_of_N.
  pose proof (string_of_N_nonempty n) as Hne. apply String.eqb_neq in Hne.
  rewrite Hne. cbn [negb]. now rewrite digits_prefix_string_of_N.
Qed.

(** X10.  On a sequence [splice] converts the last segment of the path:
    [delete] with a last segment that is a word, such as [length],
    removes the first element, and with [-n] it removes the [n]-th
    element counted from the end.  The path names no inherited member. *)
Theorem delete_in_sequence_by_other_keys (fuel : nat) (st : state)
  (path : string) (r : ref) (elems : list value) :
  plain_path path = true ->
  get_segs (data st) (removelast (split path)) = VArr r elems ->
  max_observers (observables st) < fuel ->
  (forall c w,
     last (split path) "" = String c w -> is_ident_start c = true ->
     exists st' tr,
       delete opaque fuel path st = Ok tt st' tr
       /\ get_segs (data st') (removelast (split path)) = VArr r (tl elems))
  /\ (forall n,
        last (split path) "" = ("-" ++ string_of_N (N.of_nat n))%string ->
        1 <= n <= List.length elems ->
        exists st' tr,
          delete opaque fuel path st = Ok tt st' tr
          /\ get_segs (data st') (removelast (split path))
             = VArr r (firstn (List.length elems - n) elems
                       ++ skipn (S (List.length elems - n)) elems)).
Proof.
  intros _ Hparent Hf.
  assert (Hroot : isObject (data st) = true)
    by (eapply get_segs_object_root; [exact Hparent|reflexivity]).
  destruct (descend_existing (removelast (split path)) (data st) (next_ref st) []
              (VArr r elems) eq_refl Hparent) as (fr & Hd).
  assert (G : forall z,
             to_integer (last (split path) "") = Some z ->
             exists st' tr,
               delete opaque fuel path st = Ok tt st' tr
               /\ get_segs (data st') (removelast (split path))
                  = VArr r (splice_remove z elems)).
  { intros z Hz.
    destruct (delete_written fuel path st _ _ (VArr r (splice_remove z elems)) Hd)
      as (tr & E); [cbn [focus delete_at]; now rewrite Hz|exact Hf|].
    do 2 eexists. split; [exact E|]. cbn [after_delete data].
    exact (get_after_walk _ _ _ _ _ (VArr r _) Hroot Hd eq_refl). }
  split.
  - intros c w Hlast Hc.
    destruct (G 0%Z) as (st' & tr & E & Hg);
      [rewrite Hlast; now apply to_integer_word|].
    exists st', tr. split; [exact E|]. rewrite Hg. f_equal.
    unfold splice_remove, splice_start. cbn. now destruct elems.
  - intros n Hlast Hn.
    destruct (G (- Z.of_nat n)%Z) as (st' & tr & E & Hg).
    { rewrite Hlast, to_integer_negative. now rewrite nat_N_Z. }
    exists st', tr. split; [exact E|]. rewrite Hg. f_equal.
    unfold splice_remove, splice_start.
    replace (- Z.of_nat n <? 0)%Z with true by (symmetry; apply Z.ltb_lt; lia).
    replace (Z.to_nat (Z.max (Z.of_nat (List.length elems) + - Z.of_nat n) 0))
      with (List.length elems - n) by lia.
    reflexivity.
Qed.

Lemma delete_in_sequence_by_other_keys_witness :
  let st := mkState (VObj 0 [("l", VArr 1 [VStr "x"; VStr "y"; VStr "z"])])
              [] [] 2 in
  (exists st' tr,
     delete opaque 1 "l.length" st = Ok tt st' tr
     /\ get_segs (data st') ["l"] = VArr 1 [VStr "y"; VStr "z"])
  /\ (exists st' tr,
        delete opaque 1 "l.-1" st = Ok tt st' tr
        /\ get_segs (data st') ["l"] = VArr 1 [VStr "x"; VStr "y"]).
Proof.
  intros st. split.
  - destruct (delete_in_sequence_by_other_keys 1 st "l.length" 1
                [VStr "x"; VStr "y"; VStr "z"] eq_refl eq_refl
                ltac:(vm_compute; lia))
      as [H _].
    exact (H "l"%char "ength" eq_refl eq_refl).
  - destruct (delete_in_sequence_by_other_keys 1 st "l.-1" 1
                [VStr "x"; VStr "y"; VStr "z"] eq_refl eq_refl
                ltac:(vm_compute; lia))
      as [_ H].
    exact (H 1 eq_refl ltac:(vm_compute; lia)).
Defined.

(* ================================================================== *)
(** ** Listeners removed with the bindings *)
(* ================================================================== *)

Lemma assoc_remove_other {A : Type} (k k' : string) (l : list (string * A)) :
  k' <> k -> assoc k' (assoc_remove k l) = assoc k' l.
Proof.
  intros H. unfold assoc_remove.
  rewrite (assoc_filter_keys (fun x => negb (x =? k)) k' l).
  apply String.eqb_neq in H. now rewrite H.
Qed.

Lemma listeners_removed_in attrs (attribute : string) (l : list binding)
  (b : binding) :
  In (attribute, l) attrs -> In b l ->
  In (ListenerRemoved (element b) (event (b_options b))) (listeners_removed attrs).
Proof.
  intros Ha Hb. unfold listeners_removed. apply in_flat_map.
  exists (attribute, l). split; [exact Ha|]. cbn [snd].
  apply in_map_iff. now exists b.
Qed.

Lemma unbindAll_fold_grows (q : string) (ks : list string) :
  forall acc, incl (snd acc) (snd (fold_left (unbindAll_step q) ks acc)).
Proof.
  induction ks as [|k ks IH]; intros acc; [apply incl_refl|].
  cbn [fold_left]. eapply incl_tran; [|apply IH].
  destruct acc as [bs tr]. unfold unbindAll_step. cbn [fst snd].
  destruct (indexOf k q) as [[|n]|]; try apply incl_refl.
  destruct (assoc k bs); [|apply incl_refl].
  cbn [snd]. apply incl_appl, incl_refl.
Qed.

(** Each path with the prefix met by the loop gives up its listeners. *)
Lemma unbindAll_fold_listeners (q : string) (ks : list string) :
  forall acc p attrs,
  String.prefix q p = true -> In p ks -> assoc p (fst acc) = Some attrs ->
  incl (listeners_removed attrs) (snd (fold_left (unbindAll_step q) ks acc)).
Proof.
  induction ks as [|k ks IH]; intros acc p attrs Hq Hin Ha; [destruct Hin|].
  cbn [fold_left]. destruct acc as [bs tr]. cbn [fst] in Ha.
  destruct (String.eqb_spec k p) as [->|Hk].
  - eapply incl_tran; [|apply unbindAll_fold_grows].
    unfold unbindAll_step. cbn [fst snd].
    apply indexOf_prefix in Hq. rewrite Hq, Ha. cbn [snd].
    apply incl_appr, incl_refl.
  - destruct Hin as [->|Hin]; [congruence|].
    apply (IH _ p attrs Hq Hin).
    unfold unbindAll_step. cbn [fst snd].
    destruct (indexOf k q) as [[|n]|]; try exact Ha.
    destruct (assoc k bs); [|exact Ha].
    cbn [fst]. rewrite assoc_remove_other by congruence. exact Ha.
Qed.

Lemma assoc_in_keys {A : Type} (k : string) (a : A) (l : list (string * A)) :
  assoc k l = Some a -> In k (map fst l).
Proof. intros H. apply assoc_In in H. apply in_map_iff. now exists (k, a). Qed.

(** [unbindAll]: the registrations that go, and a [removeEventListener]
    for each binding among them; the calls depend on the registry only. *)
Lemma unbindAll_listeners (q : option string)
  (bs : list (string * list (string * list binding))) :
  exists tr,
    (forall st, bindings st = bs ->
       unbindAll q st
       = Ok tt (with_bindings
                  (filter (fun e => negb (String.prefix (or_empty q) (fst e))) bs)
                  st) tr)
    /\ Forall is_listener_removed tr
    /\ forall p attrs attribute l b,
         String.prefix (or_empty q) p = true ->
         assoc p bs = Some attrs ->
         In (attribute, l) attrs -> In b l ->
         In (ListenerRemoved (element b) (event (b_options b))) tr.
Proof.
  exists (snd (fold_left (unbindAll_step (or_empty q)) (map fst bs) (bs, []))).
  split; [|split].
  - intros st <-. destruct (unbindAll_result q st) as (tr & E & _).
    rewrite E. unfold unbindAll in E. now injection E as _ <-.
  - destruct (unbindAll_result q (mkState VNull bs [] 0)) as (tr & E & F).
    unfold unbindAll in E. cbn [bindings] in E. now injection E as _ <-.
  - intros p attrs attribute l b Hq Ha Hl Hb.
    eapply unbindAll_fold_listeners;
      [exact Hq|eapply assoc_in_keys; exact Ha|exact Ha|].
    eapply listeners_removed_in; eassumption.
Qed.

(** [delete] with the listeners it removes. *)
Lemma delete_listeners (fuel : nat) (path : string) (st : state) c nxt prev' :
  descend (data st) (removelast (split path)) (next_ref st) [] = Reached c nxt ->
  delete_at (focus c) (last (split path) "") = Written prev' ->
  max_observers (observables st) < fuel ->
  exists listeners,
    delete opaque fuel path st
    = Ok tt (after_delete st path c nxt prev')
        (listeners
         ++ notify_trace (after_delete st path c nxt prev') path VNull Delete None)
    /\ Forall is_listener_removed listeners
    /\ forall p attrs attribute l b,
         String.prefix path p = true ->
         assoc p (bindings st) = Some attrs ->
         In (attribute, l) attrs -> In b l ->
         In (ListenerRemoved (element b) (event (b_options b))) listeners.
Proof.
  intros Hd Hw Hf.
  destruct (unbindAll_listeners (Some path) (bindings st)) as (listeners & Eu & F & L).
  exists listeners. split; [|split; [exact F|exact L]].
  unfold delete.
  rewrite (mbind_ok _ _ _ _ _ _ (walk_reached path st c nxt Hd)), after_nil.
  cbn [fst snd].
  rewrite (mbind_ok _ _ _ _ _ _
             (Eu (mkState (plug (focus c) (frames c)) (bindings st)
                    (observables st) nxt) eq_refl)).
  erewrite mbind_ok by reflexivity. rewrite after_nil, Hw. cbn [write].
  erewrite mbind_ok by reflexivity. rewrite after_nil.
  match goal with
  | |- after _ (notify _ _ _ _ _ _ ?s) = _ =>
      change s with (after_delete st path c nxt prev')
  end.
  rewrite notify_opaque; [reflexivity|].
  cbn [after_delete observables].
  pose proof (max_observers_unobserve_in path (observables st)). lia.
Qed.

(** X11.  [delete(path)] takes away the bindings of every stored path
    that starts with the characters of [path], with a
    [removeEventListener] for each of them, and empties the observers
    stored at exactly [path]; every other registration stays, under the
    path it was registered with.  The path names no
    inherited member. *)
Theorem delete_unregisters (fuel : nat) (st : state) (path : string)
  (c : cursor) (nxt : ref) :
  plain_path path = true ->
  isObject (data st) = true ->
  descend (data st) (removelast (split path)) (next_ref st) [] = Reached c nxt ->
  removable (focus c) (last (split path) "") ->
  max_observers (observables st) < fuel ->
  exists st' tr,
    delete opaque fuel path st = Ok tt st' tr
    /\ (forall p, assoc p (bindings st')
                  = if String.prefix path p then None else assoc p (bindings st))
    /\ (forall p attrs attribute l b,
          String.prefix path p = true ->
          assoc p (bindings st) = Some attrs ->
          In (attribute, l) attrs -> In b l ->
          In (ListenerRemoved (element b) (event (b_options b))) tr)
    /\ (forall l, assoc path (observables st') = Some l -> l = [])
    /\ (forall p, p <> path ->
          assoc p (observables st') = assoc p (observables st)).
Proof.
  intros _ Hroot Hd Hr Hf.
  pose proof (descend_focus_object _ _ _ _ _ _ Hroot Hd) as Hfo.
  destruct (removable_written _ _ Hfo Hr) as (prev' & Hw).
  destruct (delete_listeners fuel path st c nxt prev' Hd Hw Hf)
    as (listeners & E & _ & L).
  do 2 eexists. split; [exact E|]. cbn [after_delete bindings observables].
  split; [|split; [|split]].
  - intros p.
    rewrite (assoc_filter_keys (fun k => negb (String.prefix path k)) p).
    now destruct (String.prefix path p).
  - intros p attrs attribute l b Hp Ha Hl Hb. apply in_or_app. left.
    eapply L; eassumption.
  - intros l. apply unobserve_in_same.
  - intros p Hp. now apply unobserve_in_other.
Qed.

Lemma delete_unregisters_witness :
  let b := mkBinding 7 (mkOptions "change" true) in
  let st := mkState (VObj 0 [("l", VArr 1 [VNum 0; VNum 1])])
              [("l.1", [("value", [b])]); ("l.10", [("value", [b])]);
               ("l.2", [("value", [b])])]
              [("l.1", [mkObserver 1 None]); ("l.10", [mkObserver 2 None])] 2 in
  exists st' tr,
    delete opaque 2 "l.1" st = Ok tt st' tr
    /\ assoc "l.10" (bindings st') = None
    /\ assoc "l.2" (bindings st') = Some [("value", [b])]
    /\ assoc "l.1" (observables st') = Some []
    /\ assoc "l.10" (observables st') = Some [mkObserver 2 None].
Proof.
  intros b st.
  destruct (delete_unregisters 2 st "l.1"
              (mkCursor (VArr 1 [VNum 0; VNum 1]) [(data st, "l")]) 2
              eq_refl eq_refl eq_refl ltac:(vm_compute; intro H; discriminate H)
              ltac:(vm_compute; lia))
    as (st' & tr & E & Hb & _ & _ & Ho).
  exists st', tr. split; [exact E|].
  split; [exact (Hb "l.10")|]. split; [exact (Hb "l.2")|].
  split.
  - vm_compute in E. now injection E as <- _.
  - exact (Ho "l.10" ltac:(intro H; discriminate H)).
Defined.

(** *** After [remove] *)

Lemma filter_none {A : Type} (f : A -> bool) (l : list A) :
  (forall x, f x = false) -> filter f l = [].
Proof.
  intros H. induction l as [|x l IH]; [reflexivity|]. cbn. now rewrite H.
Qed.

Lemma get_segs_null (b : bool) (segs : list string) :
  segs <> [] ->
  fold_left (get_step b) segs VNull = if b then VUndefined else VNull.
Proof.
  assert (G : forall v, truthy v = false ->
              fold_left (get_step b) segs v
              = match segs with
                | [] => v
                | _ => if b then VUndefined else VNull
                end).
  { induction segs as [|k segs IH]; intros v Hv; [reflexivity|].
    cbn [fold_left]. unfold get_step at 2. rewrite Hv.
    rewrite IH by now destruct b. destruct segs; reflexivity. }
  intros Hne. rewrite G by reflexivity. destruct segs; congruence.
Qed.

(** X12.  [remove()] empties both registries, detaches the listener of
    every binding and drops the document.  On the instance it leaves,
    [get] reads [null] at every path, while [set] of a value other than
    [null] and [delete] throw, whatever the path. *)
Theorem remove_releases_everything
  (invoke : observer -> notification -> M unit) (fuel : nat) (st : state) :
  let st' := mkState VNull [] [] (next_ref st) in
  exists tr,
    remove st = Ok tt st' tr
    /\ Forall is_listener_removed tr
    /\ (forall p attrs attribute l b,
          assoc p (bindings st) = Some attrs ->
          In (attribute, l) attrs -> In b l ->
          In (ListenerRemoved (element b) (event (b_options b))) tr)
    /\ (forall key, get_in (data st') key false = VNull)
    /\ (forall path V el,
          V <> VNull -> set invoke fuel path V el st' = Throw st' [])
    /\ (forall path, delete invoke fuel path st' = Throw st' []).
Proof.
  intros st'.
  destruct (unbindAll_listeners None (bindings st)) as (tr & Eu & F & L).
  exists tr. split; [|split; [exact F|split; [|split; [|split]]]].
  - unfold remove.
    rewrite (mbind_ok _ _ _ _ _ _ (unobserveAll_result None st)), after_nil.
    match goal with
    | |- mbind _ _ ?s = _ => rewrite (mbind_ok _ _ _ _ _ _ (Eu s eq_refl))
    end.
    unfold modify, with_data, with_bindings, with_observables. cbn.
    rewrite !filter_none by (intros x; destruct (fst x); reflexivity).
    now rewrite app_nil_r.
  - intros p attrs attribute l b Ha Hl Hb.
    apply (L p attrs attribute l b); try assumption. now destruct p.
  - intros key. unfold get_in. cbn [data st'].
    destruct (key =? ""); [reflexivity|].
    apply (get_segs_null false), split_not_nil.
  - intros path V el HV. unfold set.
    assert (Eg : get path st' = Ok VNull st' []).
    { unfold get, read. f_equal. unfold get_in. cbn [data st'].
      destruct (path =? ""); [reflexivity|].
      apply (get_segs_null false), split_not_nil. }
    rewrite (mbind_ok _ _ _ _ _ _ Eg), after_nil.
    replace (strict_eq VNull V) with false by (destruct V; try reflexivity; congruence).
    unfold mbind, walk. cbn [data st' next_ref].
    destruct (removelast (split path)) as [|cur rest]; reflexivity.
  - intros path. unfold delete, mbind, walk. cbn [data st' next_ref].
    destruct (removelast (split path)) as [|cur rest]; reflexivity.
Qed.

(** *** Deleting what is not there *)

Lemma assoc_set_id {A : Type} (k : string) (a : A) (l : list (string * A)) :
  assoc k l = Some a -> assoc_set k a l = l.
Proof.
  induction l as [|[k' x] l IH]; [discriminate|]. cbn [assoc assoc_set].
  destruct (k' =? k) eqn:E.
  - intros [= ->]. apply String.eqb_eq in E. now subst.
  - intros H. now rewrite IH.
Qed.

Lemma list_set_id {A : Type} (l : list A) (n : nat) (x : A) :
  nth_error l n = Some x -> list_set n x l = l.
Proof.
  revert n. induction l as [|y l IH]; intros [|n] H; try discriminate.
  - now injection H as ->.
  - cbn [list_set]. f_equal. now apply IH.
Qed.

Lemma put_child_id (d : value) (cur : string) (child : value) :
  isObject d = true -> prop_get d (KStr cur) = Some child ->
  isObject child = true -> put_child d cur child = d.
Proof.
  intros Hd Hg Hc. unfold put_child.
  destruct d; try discriminate; cbn [prop_get prop_set key_string] in *.
  - rewrite assoc_set_id; [reflexivity|].
    destruct (assoc cur fields) as [v|]; [|injection Hg as <-; discriminate].
    cbn in Hg. congruence.
  - destruct (key_index (KStr cur)) as [i|];
      [|injection Hg as <-; destruct (_ =? _); discriminate].
    destruct (i <? N.of_nat (List.length elems))%N;
      [|injection Hg as <-; discriminate].
    rewrite list_set_id; [reflexivity|].
    destruct (nth_error elems (N.to_nat i)) as [v|];
      [|injection Hg as <-; discriminate].
    cbn in Hg. congruence.
Qed.

(** A walk along members that exist puts back the document it started
    from. *)
Lemma descend_back (segs : list string) :
  forall d nxt ctx X,
  isObject X = true -> get_segs d segs = X ->
  exists fr,
    descend d segs nxt ctx = Reached (mkCursor X fr) nxt
    /\ plug X fr = plug d ctx.
Proof.
  induction segs as [|cur rest IH]; intros d nxt ctx X HX Hget.
  - cbn in Hget. subst d. now exists ctx.
  - unfold get_segs in Hget. cbn [fold_left] in Hget.
    assert (HY : isObject (get_step false d cur) = true)
      by (apply (get_segs_object_root rest _ X Hget HX)).
    assert (Hd : isObject d = true).
    { destruct (isObject d) eqn:E; [reflexivity|].
      now rewrite (get_step_primitive false d cur E) in HY. }
    destruct (IH (get_step false d cur) nxt ((d, cur) :: ctx) X HX Hget)
      as (fr & Ed & Hp).
    exists fr. cbn [descend]. rewrite (get_step_object _ _ HY), HY.
    split; [exact Ed|]. rewrite Hp, plug_cons.
    now rewrite (put_child_id d cur _ Hd (get_step_object _ _ HY) HY).
Qed.

(** X27.  [delete] does not look whether the member exists: for a member
    that its parent mapping does not have, [delete(path)] leaves the
    document as it is, and still unregisters the observers of [path] and
    notifies the observers of the whole document of a deletion.  The
    path names no inherited member. *)
Theorem delete_of_a_missing_member (fuel : nat) (st : state) (path : string)
  (r : ref) (fields : list (string * value)) :
  plain_path path = true ->
  get_segs (data st) (removelast (split path)) = VObj r fields ->
  assoc (last (split path) "") fields = None ->
  max_observers (observables st) < fuel ->
  exists st' tr,
    delete opaque fuel path st = Ok tt st' tr
    /\ data st' = data st
    /\ (forall l, assoc path (observables st') = Some l -> l = [])
    /\ (path <> "null" ->
        forall l o, assoc "null" (observables st) = Some l -> In o l ->
          In (Notified (callback o)
                (mkNotification None Delete path (data st) None (context o)))
             tr).
Proof.
  intros _ Hparent Hmissing Hf.
  destruct (descend_back (removelast (split path)) (data st) (next_ref st) []
              (VObj r fields) eq_refl Hparent) as (fr & Hd & Hplug).
  destruct (delete_listeners fuel path st _ _ (VObj r fields) Hd)
    as (listeners & E & _ & _); [|exact Hf|].
  { cbn [focus delete_at prop_delete].
    now rewrite (assoc_remove_absent _ _ Hmissing). }
  set (st' := after_delete st path (mkCursor (VObj r fields) fr) (next_ref st)
                (VObj r fields)) in *.
  assert (Hdata : data st' = data st) by exact Hplug.
  exists st', (listeners ++ notify_trace st' path VNull Delete None).
  split; [exact E|]. split; [exact Hdata|].
  split; [intros l; apply unobserve_in_same|].
  intros Hnull l o Hl Ho. apply in_or_app. right.
  unfold notify_trace. rewrite !in_app_iff. do 4 right. rewrite <- Hdata.
  apply observer_calls_in with (l := l); [|exact Ho].
  cbn [obs_key st' after_delete observables].
  rewrite unobserve_in_other; [exact Hl|congruence].
Qed.

Lemma delete_of_a_missing_member_witness :
  let st := mkState (VObj 0 [("a", VObj 1 [("b", VNum 1)])]) []
              [("a.x", [mkObserver 1 None]); ("null", [mkObserver 2 None])] 2 in
  exists st' tr,
    delete opaque 2 "a.x" st = Ok tt st' tr
    /\ data st' = data st
    /\ assoc "a.x" (observables st') = Some []
    /\ In (Notified 2 (mkNotification None Delete "a.x" (data st) None None)) tr.
Proof.
  intros st.
  destruct (delete_of_a_missing_member 2 st "a.x" 1 [("b", VNum 1)]
              eq_refl eq_refl eq_refl ltac:(vm_compute; lia))
    as (st' & tr & E & Hd & _ & Hn).
  exists st', tr. split; [exact E|]. split; [exact Hd|]. split.
  - vm_compute in E. now injection E as <- _.
  - exact (Hn ltac:(intro H; discriminate H) [mkObserver 2 None] (mkObserver 2 None)
             eq_refl ltac:(now left)).
Defined.

(* ================================================================== *)
(** ** The listeners detached by [unbindAll], in its two revisions *)
(* ================================================================== *)

Section DetachedListeners.

Variable L : list (string * list binding) -> trace.
Variable q : string.

Lemma assoc_unique {A : Type} (k : string) (a : A) (l : list (string * A)) :
  NoDup (map fst l) -> In (k, a) l -> assoc k l = Some a.
Proof.
  induction l as [|[k' x] l IH]; intros Hnd Hin; [destruct Hin|].
  cbn [map fst] in Hnd. inversion Hnd as [|? ? Hk Hnd']; subst.
  cbn [assoc]. destruct Hin as [[= -> ->]|Hin].
  - now rewrite String.eqb_refl.
  - destruct (String.eqb_spec k' k) as [->|Hne]; [|now apply IH].
    exfalso. apply Hk. apply in_map_iff. now exists (k, a).
Qed.

(** The loop over stored paths that are all different: each path with
    the prefix gives up its listeners once, in the order of the
    registry. *)
Lemma unbind_fold_exact (rest : list (string * list (string * list binding))) :
  NoDup (map fst rest) ->
  forall cur tr,
  (forall k v, In (k, v) rest -> assoc k cur = Some v) ->
  snd (fold_left (unbind_step_with L q) (map fst rest) (cur, tr))
  = tr ++ flat_map (fun e => L (snd e))
            (filter (fun e => String.prefix q (fst e)) rest).
Proof.
  induction rest as [|[k v] rest IH]; intros Hnd cur tr Hcur.
  - cbn. now rewrite app_nil_r.
  - cbn [map fst] in Hnd. inversion Hnd as [|? ? Hk Hnd']; subst.
    cbn [map fst fold_left filter].
    assert (Hstep : unbind_step_with L q (cur, tr) k
                    = if String.prefix q k
                      then (assoc_remove k cur, tr ++ L v) else (cur, tr)).
    { unfold unbind_step_with. cbn [fst snd].
      destruct (String.prefix q k) eqn:Eq.
      - apply indexOf_prefix in Eq. rewrite Eq, (Hcur k v) by now left.
        reflexivity.
      - destruct (indexOf k q) as [[|n]|] eqn:Ei; try reflexivity.
        apply indexOf_prefix in Ei. congruence. }
    rewrite Hstep. destruct (String.prefix q k) eqn:Eq.
    + rewrite IH; [cbn [flat_map snd]; now rewrite app_assoc|exact Hnd'|].
      intros k' v' Hin. rewrite assoc_remove_other; [apply Hcur; now right|].
      intros ->. apply Hk. apply in_map_iff. now exists (k, v').
    + apply IH; [exact Hnd'|]. intros k' v' Hin. apply Hcur. now right.
Qed.

Lemma unbind_fold_bindings :
  forall ks acc,
  fst (fold_left (unbind_step_with L q) ks acc)
  = fold_left (fun b p => if String.prefix q p then assoc_remove p b else b)
      ks (fst acc).
Proof.
  induction ks as [|k ks IH]; intros [bs tr]; [reflexivity|].
  cbn [fold_left]. rewrite IH. f_equal.
  unfold unbind_step_with. cbn [fst snd].
  destruct (String.prefix q k) eqn:Eq.
  - apply indexOf_prefix in Eq. rewrite Eq.
    destruct (assoc k bs) eqn:Ea; [reflexivity|].
    cbn [fst]. symmetry. now apply assoc_remove_absent.
  - destruct (indexOf k q) as [[|n]|] eqn:Ei; try reflexivity.
    apply indexOf_prefix in Ei. congruence.
Qed.

Lemma unbind_with_exact (bs : list (string * list (string * list binding))) :
  NoDup (map fst bs) ->
  fold_left (unbind_step_with L q) (map fst bs) (bs, [])
  = (filter (fun e => negb (String.prefix q (fst e))) bs,
     flat_map (fun e => L (snd e))
       (filter (fun e => String.prefix q (fst e)) bs)).
Proof.
  intros Hnd.
  rewrite (surjective_pairing (fold_left _ _ _)). f_equal.
  - rewrite unbind_fold_bindings. apply remove_matching_all.
  - apply (unbind_fold_exact bs Hnd bs []).
    intros k v Hin. now apply assoc_unique.
Qed.

End DetachedListeners.

Lemma skipn_S_tl {A : Type} (m : nat) :
  forall l : list A, skipn (S m) l = tl (skipn m l).
Proof.
  induction m as [|m IH]; intros [|x l]; try reflexivity.
  exact (IH l).
Qed.

Lemma skipn_of_tl {A : Type} (m : nat) (l : list A) :
  skipn m (tl l) = skipn (S m) l.
Proof. destruct l as [|x l]; [now rewrite skipn_nil|reflexivity]. Qed.

Lemma forEach_shift_every_other :
  forall n k l,
  FirstRevision.forEach_shift n k l
  = map (fun b => ListenerRemoved (element b) (event (b_options b)))
      (firstn n (every_other (skipn k l))).
Proof.
  induction n as [|n IH]; intros k l; [reflexivity|].
  cbn [FirstRevision.forEach_shift].
  destruct (nth_error l k) as [b|] eqn:Eb.
  - rewrite (skipn_nth_error_cons _ _ _ Eb). cbn [every_other firstn map].
    f_equal. rewrite IH, skipn_of_tl, (skipn_S_tl (S k)).
    now destruct (skipn (S k) l).
  - apply nth_error_None in Eb. rewrite IH.
    rewrite !skipn_all2 by lia. cbn [every_other]. now rewrite !firstn_nil.
Qed.

Lemma length_every_other {A : Type} (l : list A) :
  List.length (every_other l) <= List.length l.
Proof.
  assert (H : forall n (l : list A),
            List.length l <= n -> List.length (every_other l) <= List.length l).
  { induction n as [|n IH]; intros [|x [|y l']] Hl; cbn in *; try lia.
    specialize (IH l' ltac:(lia)). lia. }
  now apply (H (List.length l)).
Qed.

Lemma forEach_shift_list (l : list binding) :
  FirstRevision.forEach_shift (List.length l) 0 l
  = map (fun b => ListenerRemoved (element b) (event (b_options b)))
      (every_other l).
Proof.
  rewrite forEach_shift_every_other. cbn [skipn].
  now rewrite firstn_all2 by apply length_every_other.
Qed.

(** X29.  When the stored paths are all different, as the keys of an
    object are, [unbindAll] calls [removeEventListener] exactly once for
    each binding it unregisters, and for no other: the calls are those of
    the bindings of the paths that start with the argument, in the order
    of the registry. *)
Theorem unbindAll_detaches_each_listener_once (optionalPath : option string)
  (st : state) :
  NoDup (map fst (bindings st)) ->
  let removed := filter (fun e => String.prefix (or_empty optionalPath) (fst e))
                   (bindings st) in
  unbindAll optionalPath st
  = Ok tt
      (with_bindings
         (filter (fun e => negb (String.prefix (or_empty optionalPath) (fst e)))
            (bindings st)) st)
      (flat_map (fun e =>
         flat_map (fun a =>
           map (fun b => ListenerRemoved (element b) (event (b_options b)))
             (snd a)) (snd e)) removed).
Proof.
  intros Hnd removed. unfold unbindAll.
  change (unbindAll_step (or_empty optionalPath))
    with (unbind_step_with listeners_removed (or_empty optionalPath)).
  cbv zeta. now rewrite (unbind_with_exact _ _ _ Hnd).
Qed.

Lemma unbindAll_detaches_each_listener_once_witness :
  let b1 := mkBinding 1 (mkOptions "change" true) in
  let b2 := mkBinding 2 (mkOptions "keyup" true) in
  let st := mkState VNull [("user", [("value", [b1; b2])]); ("other", [("value", [b1])]);
                           ("username", [("class", [b2])])] [] 0 in
  unbindAll (Some "user") st
  = Ok tt (mkState VNull [("other", [("value", [b1])])] [] 0)
      [ListenerRemoved 1 "change"; ListenerRemoved 2 "keyup";
       ListenerRemoved 2 "keyup"].
Proof.
  intros b1 b2 st.
  apply (unbindAll_detaches_each_listener_once (Some "user") st).
  repeat constructor; cbn; intuition discriminate.
Defined.

(** X30.  The first revision of [unbindAll] in the file shifts the list
    inside the callback of [forEach] that visits it, so the visit passes
    over every second binding: it unregisters the same bindings as the
    later revision but calls [removeEventListener] only for the bindings
    at the positions 0, 2, 4, ... of each list, and the listeners of the
    others stay attached. *)
Theorem first_revision_detaches_every_other_listener
  (optionalPath : option string) (st : state) :
  NoDup (map fst (bindings st)) ->
  let removed := filter (fun e => String.prefix (or_empty optionalPath) (fst e))
                   (bindings st) in
  FirstRevision.unbindAll optionalPath st
  = Ok tt
      (with_bindings
         (filter (fun e => negb (String.prefix (or_empty optionalPath) (fst e)))
            (bindings st)) st)
      (flat_map (fun e =>
         flat_map (fun a =>
           map (fun b => ListenerRemoved (element b) (event (b_options b)))
             (every_other (snd a))) (snd e)) removed).
Proof.
  intros Hnd removed. unfold FirstRevision.unbindAll.
  change (FirstRevision.unbindAll_step (or_empty optionalPath))
    with (unbind_step_with FirstRevision.listeners_removed
            (or_empty optionalPath)).
  cbv zeta. rewrite (unbind_with_exact _ _ _ Hnd). cbn [fst snd].
  f_equal. apply flat_map_ext. intros e.
  unfold FirstRevision.listeners_removed. apply flat_map_ext. intros a.
  apply forEach_shift_list.
Qed.

Lemma first_revision_detaches_every_other_listener_witness :
  let b1 := mkBinding 1 (mkOptions "change" true) in
  let b2 := mkBinding 2 (mkOptions "keyup" true) in
  let b3 := mkBinding 3 (mkOptions "click" true) in
  let st := mkState VNull [("user", [("value", [b1; b2; b3])])] [] 0 in
  FirstRevision.unbindAll (Some "user") st
  = Ok tt (mkState VNull [] [] 0)
      [ListenerRemoved 1 "change"; ListenerRemoved 3 "click"].
Proof.
  intros b1 b2 b3 st.
  apply (first_revision_detaches_every_other_listener (Some "user") st).
  repeat constructor; cbn; intuition discriminate.
Defined.

(* ================================================================== *)
(** ** Moving *)
(* ================================================================== *)

Lemma get_in_member (r : ref) (fields : list (string * value)) (k : string) :
  k <> "" -> no_dot k = true ->
  get_in (VObj r fields) k false = get_step false (VObj r fields) k.
Proof.
  intros Hne Hk. unfold get_in. apply String.eqb_neq in Hne.
  now rewrite Hne, split_no_dot.
Qed.

Lemma parent_of_member (k : string) :
  no_dot k = true -> getParentPath k = "" /\ removelast (split k) = []
                     /\ last (split k) "" = k.
Proof.
  intros Hk. unfold getParentPath. now rewrite split_no_dot.
Qed.

(** [move] chooses by what the parent of the destination is when it is
    called. *)
Lemma move_dispatch (invoke : observer -> notification -> M unit) (fuel : nat)
  (fromPath toPath : string) (st : state) :
  fromPath <> toPath ->
  move invoke fuel fromPath toPath st
  = if isArray (get_in (data st) (getParentPath toPath) false)
    then moveInArray invoke fuel fromPath toPath st
    else moveInObject invoke fuel fromPath toPath st.
Proof.
  intros Hne. unfold move. apply String.eqb_neq in Hne. rewrite Hne.
  unfold isInArray, getParentValue, get.
  erewrite mbind_ok by (erewrite mbind_ok by reflexivity; reflexivity).
  cbn [after mret]. rewrite app_nil_r.
  destruct (isArray (get_in (data st) (getParentPath toPath) false));
    apply after_nil.
Qed.

(** X13.  [move(a, b)] between two members of the root mapping deletes
    [a] and stores what [get(a)] gave under [b], the very same value;
    the bindings that start with [a] and the observers of [a] are
    unregistered, they do not follow the value to [b].  Neither [a] nor
    [b] names an inherited member, and the document holds no object
    under two paths. *)
Theorem move_between_members (fuel : nat) (st : state) (a b : string)
  (r : ref) (fields : list (string * value)) :
  data st = VObj r fields ->
  own_name a = true -> own_name b = true -> no_sharing (data st) ->
  a <> "" -> no_dot a = true -> no_dot b = true -> a <> b ->
  strict_eq (get_in (data st) b false) (get_in (data st) a false) = false ->
  max_observers (observables st) < fuel ->
  exists st' tr,
    move opaque fuel a b st = Ok (Some b) st' tr
    /\ data st' = VObj r (assoc_set b (get_in (data st) a false)
                            (assoc_remove a fields))
    /\ bindings st'
       = filter (fun e => negb (String.prefix a (fst e))) (bindings st)
    /\ observables st' = unobserve_in a (observables st).
Proof.
  intros Hdata _ _ _ Ha Hda Hdb Hab Hneq Hf.
  destruct (parent_of_member a Hda) as (_ & Hra & Hla).
  destruct (parent_of_member b Hdb) as (Hpb & Hrb & Hlb).
  set (v := get_in (data st) a false) in *.
  (* the deletion *)
  assert (Hd1 : descend (data st) (removelast (split a)) (next_ref st) []
                = Reached (mkCursor (VObj r fields) []) (next_ref st))
    by (rewrite Hra, Hdata; reflexivity).
  destruct (delete_listeners fuel a st _ _ (VObj r (assoc_remove a fields)) Hd1)
    as (listeners & Ed & _ & _); [now rewrite Hla|exact Hf|].
  set (st1 := after_delete st a (mkCursor (VObj r fields) []) (next_ref st)
                (VObj r (assoc_remove a fields))) in *.
  assert (Hf1 : max_observers (observables st1) < fuel).
  { cbn [st1 after_delete observables].
    pose proof (max_observers_unobserve_in a (observables st)). lia. }
  (* the write *)
  assert (Hneq1 : strict_eq (get_in (data st1) b false) v = false).
  { transitivity (strict_eq (get_in (data st) b false) v); [|exact Hneq].
    cbn [st1 after_delete data plug frames fold_left].
    rewrite Hdata. unfold get_in. destruct (b =? ""); [reflexivity|].
    rewrite split_no_dot by exact Hdb. cbn [fold_left].
    f_equal. apply get_step_mapping. apply assoc_remove_other. congruence. }
  assert (Hd2 : descend (data st1) (removelast (split b)) (next_ref st1) []
                = Reached (mkCursor (VObj r (assoc_remove a fields)) [])
                    (next_ref st))
    by (rewrite Hrb; reflexivity).
  pose proof (set_writes fuel b v None st1 _ _
                (undefined_if_none (assoc b (assoc_remove a fields)))
                (VObj r (assoc_set b v (assoc_remove a fields)))
                Hneq1 Hd2) as Es.
  rewrite Hlb in Es. specialize (Es eq_refl eq_refl Hf1).
  cbn [focus frames set_target snd plug fold_left] in Es.
  (* the whole *)
  do 2 eexists. split; [|split; [|split]].
  - rewrite move_dispatch by exact Hab. rewrite Hpb.
    unfold get_in at 1. cbn [String.eqb]. rewrite Hdata. cbn [isArray].
    unfold moveInObject.
    rewrite (mbind_ok _ _ st v st []) by reflexivity. rewrite after_nil.
    rewrite (mbind_ok _ _ _ _ _ _ Ed), Es. reflexivity.
  - reflexivity.
  - reflexivity.
  - reflexivity.
Qed.

Lemma move_between_members_witness :
  let b := mkBinding 7 (mkOptions "change" true) in
  let st := mkState (VObj 0 [("a", VObj 1 [("x", VNum 1)]); ("c", VNum 2)])
              [("a.x", [("value", [b])])] [("a", [mkObserver 1 None])] 2 in
  exists st' tr,
    move opaque 2 "a" "b" st = Ok (Some "b") st' tr
    /\ data st' = VObj 0 [("c", VNum 2); ("b", VObj 1 [("x", VNum 1)])]
    /\ bindings st' = []
    /\ observables st' = [("a", [])].
Proof.
  intros b st.
  destruct (move_between_members 2 st "a" "b" 0
              [("a", VObj 1 [("x", VNum 1)]); ("c", VNum 2)] eq_refl
              eq_refl eq_refl
              ltac:(vm_compute; repeat constructor; simpl; intuition discriminate)
              ltac:(intro H; discriminate H) eq_refl eq_refl
              ltac:(intro H; discriminate H) eq_refl ltac:(vm_compute; lia))
    as (st' & tr & E & Hd & Hb & Ho).
  exists st', tr. split; [exact E|]. split; [exact Hd|].
  split; [exact Hb|exact Ho].
Defined.

(** *** Moving inside one sequence *)

Lemma splice_remove_at {A : Type} (i : nat) (l : list A) :
  splice_remove (Z.of_nat i) l = firstn i l ++ skipn (S i) l.
Proof.
  unfold splice_remove, splice_start.
  replace (Z.of_nat i <? 0)%Z with false by (symmetry; apply Z.ltb_ge; lia).
  destruct (Nat.le_gt_cases i (List.length l)) as [H|H].
  - now replace (Z.to_nat (Z.min (Z.of_nat i) (Z.of_nat (List.length l))))
      with i by lia.
  - replace (Z.to_nat (Z.min (Z.of_nat i) (Z.of_nat (List.length l))))
      with (List.length l) by lia.
    now rewrite !firstn_all2, !skipn_all2 by lia.
Qed.

Lemma splice_insert_at {A : Type} (k : nat) (x : A) (l : list A) :
  k <= List.length l ->
  splice_insert (Z.of_nat k) x l = firstn k l ++ x :: skipn k l.
Proof.
  intros H. unfold splice_insert, splice_start.
  replace (Z.of_nat k <? 0)%Z with false by (symmetry; apply Z.ltb_ge; lia).
  now replace (Z.to_nat (Z.min (Z.of_nat k) (Z.of_nat (List.length l))))
    with k by lia.
Qed.

Lemma split_member_index (l : string) (n : N) :
  no_dot l = true -> split (l ++ "." ++ string_of_N n) = [l; string_of_N n].
Proof.
  intros Hl. rewrite split_app_dot, split_no_dot by exact Hl.
  now rewrite split_no_dot by apply no_dot_string_of_N.
Qed.

(** X14.  [move] from the position [i] to the position [j] of one
    sequence takes the element out first and counts [j] in the shortened
    sequence: what [get] gave at [i] is inserted there, or at the end
    when [j] is beyond it, and the path returned names the position it
    was inserted at.  The name [l] of the sequence is no inherited
    member. *)
Theorem move_within_a_sequence (fuel : nat) (st : state) (l : string)
  (r : ref) (fields : list (string * value)) (ra : ref) (elems : list value)
  (i j : nat) :
  data st = VObj r fields ->
  own_name l = true ->
  l <> "" -> no_dot l = true ->
  assoc l fields = Some (VArr ra elems) ->
  i <> j ->
  max_observers (observables st) < fuel ->
  let fromPath := (l ++ "." ++ string_of_N (N.of_nat i))%string in
  let toPath := (l ++ "." ++ string_of_N (N.of_nat j))%string in
  let shortened := firstn i elems ++ skipn (S i) elems in
  let k := Nat.min j (List.length shortened) in
  exists st' tr,
    move opaque fuel fromPath toPath st
    = Ok (Some (l ++ "." ++ string_of_N (N.of_nat k))%string) st' tr
    /\ get_in (data st') l false
       = VArr ra (firstn k shortened
                  ++ get_in (data st) fromPath false :: skipn k shortened).
Proof.
  intros Hdata _ Hl Hdl Hassoc Hij Hf fromPath toPath shortened k.
  assert (Hsf : split fromPath = [l; string_of_N (N.of_nat i)])
    by now apply split_member_index.
  assert (Hst : split toPath = [l; string_of_N (N.of_nat j)])
    by now apply split_member_index.
  assert (Hne : fromPath <> toPath).
  { intros E. assert (E' : split fromPath = split toPath) by now rewrite E.
    rewrite Hsf, Hst in E'. injection E' as E'.
    apply string_of_N_inj in E'. lia. }
  assert (Hpt : getParentPath toPath = l)
    by (unfold getParentPath; now rewrite Hst).
  assert (Hgl : forall X fs, assoc l fs = Some (VArr ra X) ->
                  get_in (VObj r fs) l false = VArr ra X).
  { intros X fs HX. rewrite get_in_member by assumption.
    unfold get_step. cbn [truthy prop_get key_string]. now rewrite HX. }
  set (prev1 := VArr ra (splice_remove (Z.of_nat i) elems)).
  set (root1 := VObj r (assoc_set l prev1 fields)).
  destruct (moveInArray_inserts fuel fromPath toPath st
              (mkCursor (VArr ra elems) [(VObj r fields, l)]) (next_ref st) prev1
              (mkCursor prev1 [(root1, l)]) (next_ref st) ra
              (splice_remove (Z.of_nat i) elems))
    as (listeners & _ & E).
  - rewrite Hsf, Hdata. cbn [removelast descend prop_get key_string].
    now rewrite Hassoc.
  - rewrite Hsf. cbn [focus last delete_at].
    now rewrite to_integer_string_of_N, nat_N_Z.
  - rewrite Hst. cbn [removelast frames plug fold_left fst snd].
    unfold put_child. cbn [prop_set key_string descend prop_get].
    now rewrite assoc_set_same.
  - reflexivity.
  - exact Hf.
  - cbv zeta in E. rewrite Hst in E. cbn [last] in E.
    rewrite parseInt_string_of_N, nat_N_Z, Hpt in E.
    rewrite splice_remove_at in E. fold shortened in E.
    assert (Hk : (if (Z.of_nat j >? Z.of_nat (List.length shortened))%Z
                  then Z.of_nat (List.length shortened) else Z.of_nat j)
                 = Z.of_nat k).
    { unfold k. destruct (Z.gtb_spec (Z.of_nat j)
                            (Z.of_nat (List.length shortened))); lia. }
    rewrite Hk in E. rewrite <- nat_N_Z, string_of_Z_of_N in E.
    unfold child_path in E. apply String.eqb_neq in Hl. rewrite Hl in E.
    rewrite <- string_app_assoc in E.
    rewrite move_dispatch by exact Hne. rewrite Hpt, Hdata.
    rewrite (Hgl elems fields Hassoc). cbn [isArray].
    do 2 eexists. split; [exact E|].
    cbn [data frames plug fold_left fst snd]. unfold put_child.
    unfold root1. cbn [prop_set key_string].
    erewrite Hgl by apply assoc_set_same.
    now rewrite ?Hdata, nat_N_Z, splice_insert_at by (unfold k; lia).
Qed.

Lemma move_within_a_sequence_witness :
  let st := mkState (VObj 0 [("l", VArr 1 [VStr "x"; VStr "y"; VStr "z"])])
              [] [] 2 in
  exists st' tr,
    move opaque 1 "l.0" "l.2" st = Ok (Some "l.2") st' tr
    /\ get_in (data st') "l" false = VArr 1 [VStr "y"; VStr "z"; VStr "x"].
Proof.
  intros st.
  exact (move_within_a_sequence 1 st "l" 0
           [("l", VArr 1 [VStr "x"; VStr "y"; VStr "z"])] 1
           [VStr "x"; VStr "y"; VStr "z"] 0 2 eq_refl eq_refl
           ltac:(intro H; discriminate H) eq_refl eq_refl
           ltac:(intro H; discriminate H) ltac:(vm_compute; lia)).
Defined.

(* ================================================================== *)
(** ** Binding, unbinding and changes from the DOM *)
(* ================================================================== *)

Lemma firstn_S_nth {A : Type} (l : list A) (i : nat) (x : A) :
  nth_error l i = Some x -> firstn (S i) l = firstn i l ++ [x].
Proof.
  revert i. induction l as [|y l IH]; intros [|i] H; try discriminate.
  - now injection H as ->.
  - cbn [firstn app]. f_equal. now apply IH.
Qed.

Lemma nth_error_length {A : Type} (l : list A) (i : nat) (x : A) :
  nth_error l i = Some x -> i < List.length l.
Proof. intros H. apply nth_error_Some. congruence. Qed.

(** The loop of [unbind] from the position [i] on. *)
Lemma unbind_loop_scan (e : elem) :
  forall n i l, List.length l - i <= n ->
  unbind_loop n e i l
  = (firstn i l ++ fst (unbind_scan e (skipn i l)),
     snd (unbind_scan e (skipn i l))).
Proof.
  assert (Done : forall i (l : list binding), nth_error l i = None ->
            (l, @nil ev)
            = (firstn i l ++ fst (unbind_scan e (skipn i l)),
               snd (unbind_scan e (skipn i l)))).
  { intros i l H. apply nth_error_None in H.
    rewrite skipn_all2, firstn_all2 by exact H. cbn. now rewrite app_nil_r. }
  induction n as [|n IH]; intros i l Hn.
  - cbn [unbind_loop]. apply Done, nth_error_None. lia.
  - cbn [unbind_loop]. destruct (nth_error l i) as [b|] eqn:Eb; [|now apply Done].
    pose proof (nth_error_length _ _ _ Eb) as Hi.
    rewrite (skipn_nth_error_cons _ _ _ Eb). cbn [unbind_scan].
    destruct (Nat.eqb e (element b)).
    + rewrite splice_remove_at.
      rewrite IH by (rewrite length_app, length_firstn, length_skipn; lia).
      assert (Hlen : List.length (firstn i l) = i)
        by (rewrite length_firstn; lia).
      rewrite skipn_app, firstn_app, Hlen.
      replace (S i - i) with 1 by lia.
      rewrite (skipn_all2 (firstn i l)), (firstn_all2 (firstn i l)) by lia.
      destruct (skipn (S i) l) as [|b' l'']; cbn; [now rewrite !app_nil_r|].
      now rewrite <- app_assoc.
    + rewrite IH by lia. rewrite (firstn_S_nth _ _ _ Eb). cbn.
      now rewrite <- app_assoc.
Qed.

Lemma unbind_element_scan (e : elem) (path attribute : string) (st : state)
  attrs l :
  assoc path (bindings st) = Some attrs ->
  assoc (if attribute =? "" then "value" else attribute) attrs = Some l ->
  unbind (OneElement e) path attribute st
  = Ok tt
      (with_bindings
         (assoc_set path
            (assoc_set (if attribute =? "" then "value" else attribute)
               (fst (unbind_scan e l)) attrs) (bindings st)) st)
      (snd (unbind_scan e l)).
Proof.
  intros Ha Hl. unfold unbind, unbind_element. rewrite Ha, Hl.
  now rewrite unbind_loop_scan by lia.
Qed.

Lemma unbind_scan_filter (e : elem) :
  forall n l, List.length l <= n -> no_twice_in_a_row e l = true ->
  unbind_scan e l
  = (filter (fun b => negb (Nat.eqb e (element b))) l,
     map (fun b => ListenerRemoved e (event (b_options b)))
       (filter (fun b => Nat.eqb e (element b)) l)).
Proof.
  induction n as [|n IH]; intros l Hn Hl.
  - destruct l; [reflexivity|cbn in Hn; lia].
  - destruct l as [|b l']; [reflexivity|].
    cbn [no_twice_in_a_row] in Hl. apply andb_true_iff in Hl as [Hb Hl'].
    cbn [unbind_scan filter]. destruct (Nat.eqb e (element b)) eqn:Eb; cbn [negb].
    + destruct l' as [|b' l'']; [reflexivity|].
      cbn [andb] in Hb. apply negb_true_iff in Hb.
      cbn [no_twice_in_a_row] in Hl'. apply andb_true_iff in Hl' as [_ Hl''].
      rewrite (IH l'') by (cbn in Hn; lia || exact Hl'').
      cbn [filter fst snd map]. now rewrite Hb.
    + rewrite (IH l') by (cbn in Hn; lia || exact Hl'). reflexivity.
Qed.

Lemma unbind_scan_passes (e : elem) (pre : list binding) (b1 b2 : binding)
  (rest : list binding) :
  (forall x, In x pre -> element x <> e) -> element b1 = e ->
  unbind_scan e (pre ++ b1 :: b2 :: rest)
  = (pre ++ b2 :: fst (unbind_scan e rest),
     ListenerRemoved e (event (b_options b1)) :: snd (unbind_scan e rest)).
Proof.
  intros Hpre Hb1. induction pre as [|x pre IH].
  - cbn [app unbind_scan]. rewrite Hb1, Nat.eqb_refl. reflexivity.
  - cbn [app unbind_scan].
    replace (Nat.eqb e (element x)) with false
      by (symmetry; apply Nat.eqb_neq; intros E; apply (Hpre x); [now left|auto]).
    rewrite IH by (intros y Hy; apply Hpre; now right). reflexivity.
Qed.

(** X15.  [unbind] of an element takes its bindings for the path and the
    attribute out of the list, in one pass, with a [removeEventListener]
    for each, and leaves the bindings of other elements in their order;
    this when no two consecutive bindings of the list belong to the
    element. *)
Theorem unbind_removes_the_element (st : state) (e : elem)
  (path attribute : string) (attrs : list (string * list binding))
  (l : list binding) :
  let attribute' := if attribute =? "" then "value" else attribute in
  assoc path (bindings st) = Some attrs ->
  assoc attribute' attrs = Some l ->
  no_twice_in_a_row e l = true ->
  unbind (OneElement e) path attribute st
  = Ok tt
      (with_bindings
         (assoc_set path
            (assoc_set attribute'
               (filter (fun b => negb (Nat.eqb e (element b))) l) attrs)
            (bindings st)) st)
      (map (fun b => ListenerRemoved e (event (b_options b)))
         (filter (fun b => Nat.eqb e (element b)) l)).
Proof.
  intros attribute' Ha Hl Hno.
  rewrite (unbind_element_scan e path attribute st attrs l Ha Hl).
  now rewrite (unbind_scan_filter e (List.length l) l (le_n _) Hno).
Qed.

Lemma unbind_removes_the_element_witness :
  let b7 := mkBinding 7 (mkOptions "change" true) in
  let b8 := mkBinding 8 (mkOptions "keyup" true) in
  let st := mkState VNull [("a", [("value", [b7; b8; b7])])] [] 0 in
  unbind (OneElement 7) "a" "" st
  = Ok tt (mkState VNull [("a", [("value", [b8])])] [] 0)
      [ListenerRemoved 7 "change"; ListenerRemoved 7 "change"].
Proof.
  intros b7 b8 st.
  exact (unbind_removes_the_element st 7 "a" "" [("value", [b7; b8; b7])]
           [b7; b8; b7] eq_refl eq_refl eq_refl).
Defined.

(** X16.  The loop of [unbind] passes over the binding that follows one
    it removes: when the element is bound twice in a row, as after two
    calls of [bind] for it, [unbind] removes the first of the two bindings
    and leaves the second registered. *)
Theorem unbind_leaves_the_next_binding (st : state) (e : elem)
  (path attribute : string) (attrs : list (string * list binding))
  (pre rest : list binding) (b1 b2 : binding) :
  let attribute' := if attribute =? "" then "value" else attribute in
  assoc path (bindings st) = Some attrs ->
  assoc attribute' attrs = Some (pre ++ b1 :: b2 :: rest) ->
  (forall x, In x pre -> element x <> e) ->
  element b1 = e -> element b2 = e ->
  exists st' tr attrs' kept,
    unbind (OneElement e) path attribute st = Ok tt st' tr
    /\ assoc path (bindings st') = Some attrs'
    /\ assoc attribute' attrs' = Some (pre ++ b2 :: kept)
    /\ forall V,
         In (DomUpdate path attribute' e V)
            (updateBoundElementsForPath (bindings st') path V).
Proof.
  intros attribute' Ha Hl Hpre Hb1 Hb2.
  pose proof (unbind_element_scan e path attribute st attrs _ Ha Hl) as E.
  rewrite (unbind_scan_passes e pre b1 b2 rest Hpre Hb1) in E.
  cbn [fst snd] in E. fold attribute' in E.
  do 4 eexists. split; [exact E|]. cbn [with_bindings bindings].
  split; [apply assoc_set_same|]. split; [apply assoc_set_same|].
  intros V. rewrite <- Hb2.
  eapply binding_updated;
    [apply assoc_set_same|apply assoc_set_same|].
  apply in_or_app. right. now left.
Qed.

Lemma unbind_leaves_the_next_binding_witness :
  let st0 := mkState (VObj 0 [("a", VNum 1)]) [] [] 1 in
  let b1 := mkBinding 7 (mkOptions "change" true) in
  let b2 := mkBinding 7 (mkOptions "keyup" true) in
  exists st tr0,
    (bind 7 "a" "" None ;; bind 7 "a" "" (Some (mkOptions "keyup" true))) st0
    = Ok tt st tr0
    /\ exists st' tr attrs' kept,
         unbind (OneElement 7) "a" "" st = Ok tt st' tr
         /\ assoc "a" (bindings st') = Some attrs'
         /\ assoc "value" attrs' = Some ([] ++ b2 :: kept)
         /\ forall V,
              In (DomUpdate "a" "value" 7 V)
                 (updateBoundElementsForPath (bindings st') "a" V).
Proof.
  intros st0 b1 b2.
  exists (mkState (VObj 0 [("a", VNum 1)]) [("a", [("value", [b1; b2])])] [] 1).
  eexists. split; [reflexivity|].
  exact (unbind_leaves_the_next_binding
           (mkState (VObj 0 [("a", VNum 1)]) [("a", [("value", [b1; b2])])] [] 1)
           7 "a" "" [("value", [b1; b2])]
           [] [] b1 b2 eq_refl eq_refl ltac:(intros x []) eq_refl eq_refl).
Defined.

(** *** A bound element and the data *)

Lemma bind_outcome (e : elem) (path attribute : string) (opts : option options)
  (st : state) :
  let attribute' := if attribute =? "" then "value" else attribute in
  let opts' := match opts with Some o => o | None => mkOptions "change" true end in
  let attrs := match assoc path (bindings st) with Some a => a | None => [] end in
  let l := match assoc attribute' attrs with Some l => l | None => [] end in
  let l' := l ++ [mkBinding e opts'] in
  bind e path attribute opts st
  = Ok tt
      (with_bindings
         (assoc_set path (assoc_set attribute' l' attrs) (bindings st)) st)
      (ListenerAdded e (event opts')
       :: map (fun b => DomUpdate path attribute' (element b)
                          (get_in (data st) path false)) l').
Proof.
  cbv zeta. unfold bind, mbind, modify, emit, get, read, emit_of. cbn [after app].
  unfold updateBoundElementsForPathAndAttribute. cbn [with_bindings bindings data].
  rewrite !assoc_set_same. now rewrite ?app_nil_r.
Qed.

(** [set] on a member of a mapping reports the path it was given. *)
Lemma set_on_mapping (fuel : nat) (st : state) (path : string) (V : value)
  (el : option elem) (c : cursor) (nxt : ref) :
  isObject (data st) = true ->
  descend (data st) (removelast (split path)) (next_ref st) [] = Reached c nxt ->
  isArray (focus c) = false ->
  strict_eq (get_in (data st) path false) V = false ->
  max_observers (observables st) < fuel ->
  exists st' a,
    set opaque fuel path V el st = Ok (Some path) st' (notify_trace st' path V a el)
    /\ bindings st' = bindings st
    /\ observables st' = observables st.
Proof.
  intros Hroot Hd Harr Hneq Hf.
  pose proof (descend_focus_object _ _ _ _ _ _ Hroot Hd) as Hfo.
  destruct (focus c) as [| | | | | |r fields|] eqn:Ef; try discriminate.
  pose proof (set_writes fuel path V el st c nxt
                (undefined_if_none (assoc (last (split path) "") fields))
                (VObj r (assoc_set (last (split path) "") V fields)) Hneq Hd) as E.
  rewrite Ef in E. specialize (E eq_refl eq_refl Hf).
  cbn [set_target snd] in E. do 2 eexists. split; [exact E|]. now split.
Qed.

Lemma notify_trace_updates (st : state) (path : string) (V : value)
  (a : action) (el : option elem) attribute attrs l (b : binding) :
  assoc path (bindings st) = Some attrs -> assoc attribute attrs = Some l ->
  In b l ->
  In (DomUpdate path attribute (element b) V) (notify_trace st path V a el).
Proof.
  intros Ha Hl Hb. unfold notify_trace. apply in_or_app. left.
  eapply binding_updated; eassumption.
Qed.

(** X17.  An element bound to a path is given the value found there when
    it is bound and, from then on, every value that [set] stores at that
    path.  The path and
    the attribute name no inherited member, and the path is read through
    mappings and sequences. *)
Theorem bound_element_follows_the_data (fuel : nat) (st : state) (e : elem)
  (path attribute : string) (opts : option options) (V : value)
  (el : option elem) (c : cursor) (nxt : ref) :
  plain_path path = true -> own_name attribute = true ->
  reads_members (data st) (split path) = true ->
  isObject (data st) = true ->
  descend (data st) (removelast (split path)) (next_ref st) [] = Reached c nxt ->
  isArray (focus c) = false ->
  strict_eq (get_in (data st) path false) V = false ->
  max_observers (observables st) < fuel ->
  let attribute' := if attribute =? "" then "value" else attribute in
  exists st1 tr1 st2 tr2,
    bind e path attribute opts st = Ok tt st1 tr1
    /\ In (DomUpdate path attribute' e (get_in (data st) path false)) tr1
    /\ set opaque fuel path V el st1 = Ok (Some path) st2 tr2
    /\ In (DomUpdate path attribute' e V) tr2.
Proof.
  intros _ _ _ Hroot Hd Harr Hneq Hf attribute'.
  pose proof (bind_outcome e path attribute opts st) as Eb. cbv zeta in Eb.
  fold attribute' in Eb.
  match type of Eb with _ = Ok tt ?s ?t => set (st1 := s) in *; set (tr1 := t) in * end.
  destruct (set_on_mapping fuel st1 path V el c nxt Hroot Hd Harr Hneq Hf)
    as (st2 & a & Es & Hb & _).
  exists st1, tr1, st2, (notify_trace st2 path V a el).
  split; [exact Eb|]. split; [|split; [exact Es|]].
  - right. apply in_map_iff.
    exists (mkBinding e match opts with
                        | Some o => o
                        | None => mkOptions "change" true
                        end).
    split; [reflexivity|]. apply in_or_app. right. now left.
  - eapply (notify_trace_updates st2 path V a el attribute' _ _
              (mkBinding e match opts with
                           | Some o => o
                           | None => mkOptions "change" true
                           end)).
    + rewrite Hb. cbn [st1 with_bindings bindings]. apply assoc_set_same.
    + apply assoc_set_same.
    + apply in_or_app. right. now left.
Qed.

Lemma bound_element_follows_the_data_witness :
  let st := mkState (VObj 0 [("a", VObj 1 [("b", VNum 1)])]) [] [] 2 in
  exists st1 tr1 st2 tr2,
    bind 7 "a.b" "" None st = Ok tt st1 tr1
    /\ In (DomUpdate "a.b" "value" 7 (VNum 1)) tr1
    /\ set opaque 1 "a.b" (VNum 5) None st1 = Ok (Some "a.b") st2 tr2
    /\ In (DomUpdate "a.b" "value" 7 (VNum 5)) tr2.
Proof.
  intros st.
  exact (bound_element_follows_the_data 1 st 7 "a.b" "" None (VNum 5) None
           (mkCursor (VObj 1 [("b", VNum 1)]) [(data st, "a")]) 2
           eq_refl eq_refl eq_refl
           eq_refl eq_refl eq_refl eq_refl ltac:(vm_compute; lia)).
Defined.

(** *** Changes coming from the DOM *)

Section DomChange.

Variable invoke : observer -> notification -> M unit.
Variable fuel : nat.
Variable element_value : nat -> value.
Variables (target : elem) (path attribute : string).

(** The loop passes over the bindings of other elements. *)
Lemma domChange_loop_others (st : state) attrs (l : list binding) :
  assoc path (bindings st) = Some attrs -> assoc attribute attrs = Some l ->
  forall n i reads,
  (forall k b, i <= k -> nth_error l k = Some b -> element b <> target) ->
  List.length l - i < n ->
  domChange_loop invoke fuel element_value n target path attribute i reads st
  = Ok tt st [].
Proof.
  intros Ha Hl. induction n as [|n IH]; intros i reads Hrest Hn; [lia|].
  cbn [domChange_loop]. rewrite Ha, Hl.
  destruct (nth_error l i) as [b|] eqn:Eb; [|reflexivity].
  pose proof (nth_error_length _ _ _ Eb) as Hi.
  replace (Nat.eqb target (element b)) with false
    by (symmetry; apply Nat.eqb_neq; intros E; now apply (Hrest i b (le_n _) Eb)).
  apply IH; [|lia]. intros k b' Hk. apply Hrest. lia.
Qed.

Lemma domChange_loop_skips (st : state) attrs (pre : list binding)
  (b : binding) (rest : list binding) :
  assoc path (bindings st) = Some attrs ->
  assoc attribute attrs = Some (pre ++ b :: rest) ->
  (forall x, In x pre -> element x <> target) ->
  forall d n i,
  i + d = List.length pre ->
  domChange_loop invoke fuel element_value (d + n) target path attribute i 0 st
  = domChange_loop invoke fuel element_value n target path attribute
      (List.length pre) 0 st.
Proof.
  intros Ha Hl Hpre. induction d as [|d IH]; intros n i Hi.
  - cbn [Nat.add]. f_equal. lia.
  - cbn [Nat.add domChange_loop]. rewrite Ha, Hl.
    assert (Hx : exists x, nth_error (pre ++ b :: rest) i = Some x /\ In x pre).
    { destruct (nth_error pre i) as [x|] eqn:Ex.
      - exists x. split; [|eapply nth_error_In; exact Ex].
        rewrite nth_error_app1; [exact Ex|]. lia.
      - apply nth_error_None in Ex. lia. }
    destruct Hx as (x & Ex & Hin). rewrite Ex.
    replace (Nat.eqb target (element x)) with false
      by (symmetry; apply Nat.eqb_neq; intros E; now apply (Hpre x Hin)).
    apply IH. lia.
Qed.

End DomChange.

(** X18.  A change event that reaches the handler of a one-way binding,
    or whose target is no element bound to the path and attribute,
    changes nothing: the document and the registries stay as they are
    and nothing is notified. *)
Theorem dom_change_needs_a_two_way_binding
  (invoke : observer -> notification -> M unit) (fuel : nat)
  (element_value : nat -> value) (b : binding) (path attribute : string)
  (target : elem) (st : state) :
  twoways (b_options b) = false
  \/ (forall attrs l,
        assoc path (bindings st) = Some attrs ->
        assoc attribute attrs = Some l ->
        List.length l < fuel /\ forall x, In x l -> element x <> target) ->
  handler invoke fuel element_value b path attribute target st = Ok tt st [].
Proof.
  unfold handler. intros [H|H]; [now rewrite H|].
  destruct (twoways (b_options b)); [|reflexivity].
  unfold domChange.
  destruct (assoc path (bindings st)) as [attrs|] eqn:Ea; [|reflexivity].
  destruct (assoc attribute attrs) as [l|] eqn:El; [|reflexivity].
  destruct (H attrs l eq_refl El) as [Hlen Hl].
  apply (domChange_loop_others invoke fuel element_value target path attribute
           st attrs l Ea El); [|lia].
  intros k x _ Hk. apply Hl. eapply nth_error_In. exact Hk.
Qed.

Lemma dom_change_needs_a_two_way_binding_witness :
  let one_way := mkBinding 7 (mkOptions "change" false) in
  let two_way := mkBinding 8 (mkOptions "change" true) in
  let st := mkState (VObj 0 [("a", VNum 1)])
              [("a", [("value", [one_way; two_way])])] [] 1 in
  handler opaque 3 (fun _ => VNum 5) one_way "a" "value" 7 st = Ok tt st []
  /\ handler opaque 3 (fun _ => VNum 5) two_way "a" "value" 9 st = Ok tt st [].
Proof.
  intros one_way two_way st. split.
  - apply dom_change_needs_a_two_way_binding. left. reflexivity.
  - apply dom_change_needs_a_two_way_binding. right.
    intros attrs l Ha Hl. vm_compute in Ha. injection Ha as <-.
    vm_compute in Hl. injection Hl as <-. split; [vm_compute; lia|].
    intros x [<-|[<-|[]]]; vm_compute; intro H; discriminate H.
Defined.

(** X19.  A change event on an element with a two-way binding stores the
    value read from the element at the path of the binding, through
    [set]: [get] reads it back, the observers called receive the element,
    and the element itself is updated again with the value it gave.  The path
    names no inherited member and is read through mappings and sequences
    up to its last segment. *)
Theorem dom_change_sets_the_data (fuel : nat) (element_value : nat -> value)
  (st : state) (path attribute : string) (target : elem)
  (attrs : list (string * list binding)) (pre rest : list binding)
  (b : binding) (c : cursor) (nxt : ref) :
  let V := element_value 0 in
  plain_path path = true ->
  reads_members (data st) (removelast (split path)) = true ->
  assoc path (bindings st) = Some attrs ->
  assoc attribute attrs = Some (pre ++ b :: rest) ->
  element b = target -> twoways (b_options b) = true ->
  (forall x, In x (pre ++ rest) -> element x <> target) ->
  isObject (data st) = true ->
  path <> "" -> String.prefix "." path = false ->
  V <> VUndefined ->
  strict_eq (get_in (data st) path false) V = false ->
  descend (data st) (removelast (split path)) (next_ref st) [] = Reached c nxt ->
  isArray (focus c) = false ->
  max_observers (observables st) < fuel ->
  List.length (pre ++ b :: rest) < fuel ->
  exists st' tr,
    handler opaque fuel element_value b path attribute target st = Ok tt st' tr
    /\ get_in (data st') path false = V
    /\ bindings st' = bindings st
    /\ observables st' = observables st
    /\ In (DomUpdate path attribute target V) tr
    /\ forall cb n, In (Notified cb n) tr ->
         n_changedPath n = path /\ n_element n = Some target.
Proof.
  intros V _ _ Ha Hl Hb Htw Hothers Hroot Hne Hdot HV Hneq Hd Harr Hf Hlen.
  pose proof (descend_focus_object _ _ _ _ _ _ Hroot Hd) as Hfo.
  destruct (set_stores fuel st path V (Some target) c nxt Hroot Hne Hdot HV Hneq
              Hd) as (P' & st' & a & Es & Hg & Hbs & Hos & HP);
    [destruct (focus c); try discriminate; exact I
    |destruct (focus c); try discriminate; exact I
    |exact Hf|].
  rewrite (HP Harr) in *. clear HP.
  exists st', (notify_trace st' path V a (Some target)).
  split; [|split; [exact Hg|split; [exact Hbs|split; [exact Hos|split]]]].
  - unfold handler. rewrite Htw. unfold domChange. rewrite Ha, Hl.
    rewrite length_app in Hlen. cbn [List.length] in Hlen.
    replace fuel with (List.length pre + S (fuel - List.length pre - 1)) at 2
      by lia.
    rewrite (domChange_loop_skips opaque fuel element_value target path
               attribute st attrs pre b rest Ha Hl)
      by (intros x Hx; apply Hothers, in_or_app; now left) || reflexivity.
    cbn [domChange_loop]. rewrite Ha, Hl, nth_error_middle, Hb, Nat.eqb_refl.
    fold V. rewrite (mbind_ok _ _ _ _ _ _ Es).
    rewrite (domChange_loop_others opaque fuel element_value target path
               attribute st' attrs (pre ++ b :: rest));
      [cbn [after]; now rewrite app_nil_r|now rewrite Hbs|exact Hl| |].
    + intros k x Hk Hx. apply Hothers, in_or_app. right.
      rewrite nth_error_app2 in Hx by lia.
      destruct (k - List.length pre) as [|m] eqn:Em; [lia|].
      cbn [nth_error] in Hx. eapply nth_error_In. exact Hx.
    + rewrite length_app. cbn [List.length]. lia.
  - rewrite <- Hb.
    eapply notify_trace_updates; [rewrite Hbs; exact Ha|exact Hl|].
    apply in_or_app. right. now left.
  - intros cb n Hn. apply notify_trace_notified in Hn. tauto.
Qed.

Lemma dom_change_sets_the_data_witness :
  let b := mkBinding 7 (mkOptions "change" true) in
  let st := mkState (VObj 0 [("a", VStr "old")]) [("a", [("value", [b])])]
              [("a", [mkObserver 1 None])] 1 in
  exists st',
    handler opaque 3 (fun _ => VStr "typed") b "a" "value" 7 st
    = Ok tt st'
        [DomUpdate "a" "value" 7 (VStr "typed");
         Notified 1 (mkNotification (Some "a") Update "a" (VStr "typed")
                       (Some 7) None)]
    /\ get_in (data st') "a" false = VStr "typed".
Proof.
  intros b st.
  destruct (dom_change_sets_the_data 3 (fun _ => VStr "typed") st "a" "value" 7
              [("value", [b])] [] [] b (mkCursor (data st) []) 1
              eq_refl eq_refl
              eq_refl eq_refl eq_refl eq_refl ltac:(intros x [])
              eq_refl ltac:(intro H; discriminate H) eq_refl
              ltac:(intro H; discriminate H) eq_refl eq_refl eq_refl
              ltac:(vm_compute; lia) ltac:(vm_compute; lia))
    as (st' & tr & E & Hg & _).
  exists st'. split; [|exact Hg].
  rewrite E. vm_compute in E. now injection E as <- <-.
Defined.

(** *** Binding and unbinding again *)

Lemma bound_after_bind (e : elem) (path attribute : string)
  (opts : option options) (st : state) :
  let attribute' := if attribute =? "" then "value" else attribute in
  let opts' := match opts with Some o => o | None => mkOptions "change" true end in
  exists st' tr,
    bind e path attribute opts st = Ok tt st' tr
    /\ bound st' path attribute' = bound st path attribute' ++ [mkBinding e opts']
    /\ In (ListenerAdded e (event opts')) tr
    /\ data st' = data st /\ observables st' = observables st
    /\ next_ref st' = next_ref st.
Proof.
  cbv zeta. do 2 eexists. split; [apply bind_outcome|].
  split; [|split; [now left|now repeat split]].
  unfold bound. cbn [with_bindings bindings]. rewrite !assoc_set_same.
  destruct (assoc path (bindings st)) as [attrs|]; [|reflexivity].
  now destruct (assoc _ attrs).
Qed.

Lemma no_twice_in_a_row_last (e : elem) (l : list binding) (b : binding) :
  (forall x, In x l -> element x <> e) -> no_twice_in_a_row e (l ++ [b]) = true.
Proof.
  intros H. induction l as [|x l IH]; [reflexivity|].
  cbn [app no_twice_in_a_row].
  replace (Nat.eqb e (element x)) with false
    by (symmetry; apply Nat.eqb_neq; intros E; apply (H x); [now left|auto]).
  rewrite IH by (intros y Hy; apply H; now right).
  now destruct (l ++ [b]).
Qed.

Lemma filter_none_in {A : Type} (f : A -> bool) (l : list A) :
  (forall x, In x l -> f x = false) -> filter f l = [].
Proof.
  induction l as [|x l IH]; intros H; [reflexivity|]. cbn [filter].
  rewrite (H x) by now left. apply IH. intros y Hy. apply H. now right.
Qed.

Lemma filter_all_but_last (e : elem) (l : list binding) (b : binding) :
  (forall x, In x l -> element x <> e) -> element b = e ->
  filter (fun x => negb (Nat.eqb e (element x))) (l ++ [b]) = l
  /\ filter (fun x => Nat.eqb e (element x)) (l ++ [b]) = [b].
Proof.
  intros H Hb. rewrite !filter_app. cbn [filter]. rewrite Hb, Nat.eqb_refl.
  cbn [negb]. split.
  - rewrite app_nil_r. apply filter_all. intros x Hx.
    apply negb_true_iff, Nat.eqb_neq. intros E. now apply (H x Hx).
  - rewrite filter_none_in; [reflexivity|]. intros x Hx.
    apply Nat.eqb_neq. intros E. now apply (H x Hx).
Qed.

(** X23.  [unbind] undoes [bind]: for an element that had no binding for
    the path and the attribute, binding it and unbinding it again leaves
    the list of bindings as it was, removes the listener that was added
    and touches no other path.  The path and the
    attribute name no inherited member. *)
Theorem bind_then_unbind (st : state) (e : elem) (path attribute : string)
  (opts : option options) :
  let attribute' := if attribute =? "" then "value" else attribute in
  let opts' := match opts with Some o => o | None => mkOptions "change" true end in
  plain_path path = true -> own_name attribute = true ->
  (forall x, In x (bound st path attribute') -> element x <> e) ->
  exists st1 tr1 st2,
    bind e path attribute opts st = Ok tt st1 tr1
    /\ In (ListenerAdded e (event opts')) tr1
    /\ unbind (OneElement e) path attribute st1
       = Ok tt st2 [ListenerRemoved e (event opts')]
    /\ bound st2 path attribute' = bound st path attribute'
    /\ (forall p, p <> path -> assoc p (bindings st2) = assoc p (bindings st))
    /\ data st2 = data st /\ observables st2 = observables st.
Proof.
  intros attribute' opts' _ _ Hfree.
  pose proof (bind_outcome e path attribute opts st) as Eb. cbv zeta in Eb.
  fold attribute' opts' in Eb.
  set (attrs := match assoc path (bindings st) with Some a => a | None => [] end)
    in *.
  assert (Hl : match assoc attribute' attrs with Some l => l | None => [] end
               = bound st path attribute').
  { unfold bound, attrs. now destruct (assoc path (bindings st)). }
  rewrite Hl in Eb.
  set (l := bound st path attribute') in *.
  set (st1 := with_bindings
                (assoc_set path
                   (assoc_set attribute' (l ++ [mkBinding e opts']) attrs)
                   (bindings st)) st) in *.
  pose proof (unbind_element_scan e path attribute st1
                (assoc_set attribute' (l ++ [mkBinding e opts']) attrs)
                (l ++ [mkBinding e opts'])) as Eu.
  fold attribute' in Eu.
  rewrite (unbind_scan_filter e _ _ (le_n _)
             (no_twice_in_a_row_last e l _ Hfree)) in Eu.
  destruct (filter_all_but_last e l (mkBinding e opts') Hfree eq_refl)
    as [F1 F2].
  rewrite F1, F2 in Eu. cbn [fst snd map element b_options] in Eu.
  do 3 eexists. split; [exact Eb|]. split; [now left|].
  split; [apply Eu; apply assoc_set_same|].
  split; [|split; [|now split]].
  - unfold bound at 1. cbn [with_bindings bindings st1].
    now rewrite !assoc_set_same.
  - intros p Hp. cbn [with_bindings bindings st1].
    now rewrite !assoc_set_other by exact Hp.
Qed.

Lemma bind_then_unbind_witness :
  let other := mkBinding 8 (mkOptions "change" true) in
  let st := mkState (VObj 0 [("a", VNum 1)]) [("a", [("value", [other])])] [] 1 in
  exists st1 tr1 st2,
    bind 7 "a" "" None st = Ok tt st1 tr1
    /\ unbind (OneElement 7) "a" "" st1 = Ok tt st2 [ListenerRemoved 7 "change"]
    /\ bound st2 "a" "value" = [other].
Proof.
  intros other st.
  destruct (bind_then_unbind st 7 "a" "" None eq_refl eq_refl)
    as (st1 & tr1 & st2 & E1 & _ & E2 & Hb & _).
  { intros x [<-|[]]. vm_compute. intro H. discriminate H. }
  exists st1, tr1, st2. split; [exact E1|]. split; [exact E2|exact Hb].
Defined.

(** X24.  [bind] of a collection binds its entries that are elements one
    after the other, in their order, to the same path and attribute and
    with the same options, and passes over the other entries.  The path
    and the attribute name no inherited member. *)
Theorem bind_of_a_collection (l : list (option elem)) (path attribute : string)
  (opts : option options) (st : state) :
  let attribute' := if attribute =? "" then "value" else attribute in
  let opts' := match opts with Some o => o | None => mkOptions "change" true end in
  plain_path path = true -> own_name attribute = true ->
  exists st' tr,
    bind_any (Collection l) path attribute opts st = Ok tt st' tr
    /\ bound st' path attribute'
       = bound st path attribute'
         ++ map (fun e => mkBinding e opts') (elements_of l)
    /\ (forall e, In e (elements_of l) -> In (ListenerAdded e (event opts')) tr)
    /\ data st' = data st /\ observables st' = observables st.
Proof.
  intros attribute' opts' _ _. cbn [bind_any]. revert st.
  induction l as [|[e|] l IH]; intros st.
  - exists st, []. cbn. rewrite app_nil_r. now repeat split.
  - destruct (bound_after_bind e path attribute opts st)
      as (st1 & tr1 & E1 & Hb1 & Hl1 & Hd1 & Ho1 & _).
    destruct (IH st1) as (st' & tr & E & Hb & Hl & Hd & Ho).
    exists st', (tr1 ++ tr). cbn [bind_each].
    rewrite (mbind_ok _ _ _ _ _ _ E1), E. cbn [after].
    split; [reflexivity|]. split; [|split; [|split; congruence]].
    + rewrite Hb. fold attribute' opts' in Hb1. rewrite Hb1.
      cbn [elements_of flat_map app map]. now rewrite <- app_assoc.
    + intros x [<-|Hx]; apply in_or_app; [left; exact Hl1|right; now apply Hl].
  - destruct (IH st) as (st' & tr & E & Hb & Hl & Hd & Ho).
    exists st', tr. cbn [bind_each]. now repeat split.
Qed.

Lemma bind_of_a_collection_witness :
  let st := mkState (VObj 0 [("a", VNum 1)])
              [("a", [("value", [mkBinding 5 (mkOptions "change" true)])])] [] 1 in
  exists st' tr,
    bind_any (Collection [Some 7; None; Some 8]) "a" "" None st = Ok tt st' tr
    /\ bound st' "a" "value"
       = [mkBinding 5 (mkOptions "change" true);
          mkBinding 7 (mkOptions "change" true);
          mkBinding 8 (mkOptions "change" true)]
    /\ In (ListenerAdded 8 "change") tr.
Proof.
  intros st.
  destruct (bind_of_a_collection [Some 7; None; Some 8] "a" "" None st
              eq_refl eq_refl) as (st' & tr & E & Hb & Hl & _).
  exists st', tr. split; [exact E|]. split; [exact Hb|].
  apply Hl. cbn. now right; left.
Defined.

(** *** Collections *)

Lemma no_twice_in_a_row_free (e : elem) (l : list binding) :
  (forall x, In x l -> element x <> e) -> no_twice_in_a_row e l = true.
Proof.
  intros H. induction l as [|x l IH]; [reflexivity|].
  cbn [no_twice_in_a_row].
  replace (Nat.eqb e (element x)) with false
    by (symmetry; apply Nat.eqb_neq; intros E; apply (H x); [now left|auto]).
  rewrite IH by (intros y Hy; apply H; now right).
  now destruct l.
Qed.

Lemma no_twice_in_a_row_once (e : elem) (pre post : list binding) (b : binding) :
  (forall x, In x pre -> element x <> e) ->
  (forall x, In x post -> element x <> e) ->
  no_twice_in_a_row e (pre ++ b :: post) = true.
Proof.
  intros Hpre Hpost. induction pre as [|x pre IH].
  - cbn [app no_twice_in_a_row].
    rewrite (no_twice_in_a_row_free e post Hpost).
    destruct post as [|y post]; [reflexivity|].
    replace (Nat.eqb e (element y)) with false
      by (symmetry; apply Nat.eqb_neq; intros E; apply (Hpost y); [now left|auto]).
    now rewrite andb_false_r.
  - cbn [app no_twice_in_a_row].
    replace (Nat.eqb e (element x)) with false
      by (symmetry; apply Nat.eqb_neq; intros E; apply (Hpre x); [now left|auto]).
    rewrite IH by (intros y Hy; apply Hpre; now right).
    now destruct (pre ++ b :: post).
Qed.

(** [unbind] of one element, in terms of the list of the path and
    attribute. *)
Lemma unbind_element_bound (e : elem) (path attribute : string) (st : state) :
  let attribute' := if attribute =? "" then "value" else attribute in
  no_twice_in_a_row e (bound st path attribute') = true ->
  exists st' tr,
    unbind_element e path attribute st = Ok tt st' tr
    /\ bound st' path attribute'
       = filter (fun b => negb (Nat.eqb e (element b))) (bound st path attribute')
    /\ tr = map (fun b => ListenerRemoved e (event (b_options b)))
              (filter (fun b => Nat.eqb e (element b)) (bound st path attribute'))
    /\ data st' = data st /\ observables st' = observables st.
Proof.
  intros attribute' Hno. unfold unbind_element, bound in *. fold attribute'.
  destruct (assoc path (bindings st)) as [attrs|] eqn:Ea;
    [|exists st, []; rewrite Ea; now repeat split].
  destruct (assoc attribute' attrs) as [l|] eqn:El;
    [|exists st, []; rewrite Ea, El; now repeat split].
  do 2 eexists. split; [reflexivity|].
  rewrite unbind_loop_scan by lia. cbn [skipn firstn app].
  rewrite (unbind_scan_filter e _ l (le_n _) Hno). cbn [fst snd].
  cbn [with_bindings bindings]. rewrite !assoc_set_same. now repeat split.
Qed.

Lemma unbind_each_bound (path attribute : string) (opts' : options) :
  let attribute' := if attribute =? "" then "value" else attribute in
  forall (l : list (option elem)) (st : state) (old : list binding),
  bound st path attribute' = old ++ map (fun e => mkBinding e opts') (elements_of l) ->
  NoDup (elements_of l) ->
  (forall x, In x old -> ~ In (element x) (elements_of l)) ->
  exists st' tr,
    unbind_each l path attribute st = Ok tt st' tr
    /\ bound st' path attribute' = old
    /\ tr = map (fun e => ListenerRemoved e (event opts')) (elements_of l)
    /\ data st' = data st /\ observables st' = observables st.
Proof.
  intros attribute'. induction l as [|[e|] l IH]; intros st old Hb Hnd Hold.
  - exists st, []. cbn in *. rewrite app_nil_r in Hb. now repeat split.
  - cbn [elements_of flat_map app map] in Hb, Hnd, Hold.
    fold (elements_of l) in Hb, Hnd, Hold. inversion Hnd as [|? ? Hne Hnd']; subst.
    assert (Hpre : forall x, In x old -> element x <> e).
    { intros x Hx E. apply (Hold x Hx). now left. }
    assert (Hpost : forall x, In x (map (fun e => mkBinding e opts') (elements_of l)) ->
                      element x <> e).
    { intros x Hx E. apply in_map_iff in Hx as (y & <- & Hy). cbn in E.
      now subst y. }
    destruct (unbind_element_bound e path attribute st)
      as (st1 & tr1 & E1 & Hb1 & Ht1 & Hd1 & Ho1).
    { fold attribute'. rewrite Hb. now apply no_twice_in_a_row_once. }
    fold attribute' in Hb1, Ht1. rewrite Hb in Hb1, Ht1.
    rewrite filter_app in Hb1, Ht1. cbn [filter element] in Hb1, Ht1.
    rewrite Nat.eqb_refl in Hb1, Ht1. cbn [negb] in Hb1.
    rewrite (filter_all _ old), (filter_all _ (map _ _)) in Hb1;
      try (intros x Hx; apply negb_true_iff, Nat.eqb_neq; intros E;
           (now apply (Hpre x Hx)) || (now apply (Hpost x Hx))).
    rewrite (filter_none_in _ old), (filter_none_in _ (map _ _)) in Ht1;
      try (intros x Hx; apply Nat.eqb_neq; intros E;
           (now apply (Hpre x Hx)) || (now apply (Hpost x Hx))).
    cbn [app map b_options] in Ht1.
    destruct (IH st1 old Hb1 Hnd') as (st' & tr & E & Hb' & Ht & Hd & Ho).
    { intros x Hx Hin. apply (Hold x Hx). now right. }
    exists st', (tr1 ++ tr). cbn [unbind_each].
    rewrite (mbind_ok _ _ _ _ _ _ E1), E. cbn [after].
    split; [reflexivity|]. split; [exact Hb'|].
    split; [|split; congruence].
    cbn [elements_of flat_map app map]. fold (elements_of l). now rewrite Ht1, Ht.
  - destruct (IH st old Hb Hnd Hold) as (st' & tr & E & H).
    exists st', tr. cbn [unbind_each]. now split.
Qed.

(** X26.  [unbind] of a collection undoes [bind] of that collection: for
    distinct elements that had no binding for the path and the attribute,
    binding the collection and unbinding it leaves the list of bindings
    as it was, with one listener added and one removed for each element
    entry.  The path and the attribute name no
    inherited member. *)
Theorem bind_then_unbind_a_collection (st : state) (l : list (option elem))
  (path attribute : string) (opts : option options) :
  let attribute' := if attribute =? "" then "value" else attribute in
  let opts' := match opts with Some o => o | None => mkOptions "change" true end in
  plain_path path = true -> own_name attribute = true ->
  NoDup (elements_of l) ->
  (forall x, In x (bound st path attribute') ->
     ~ In (element x) (elements_of l)) ->
  exists st1 tr1 st2,
    bind_any (Collection l) path attribute opts st = Ok tt st1 tr1
    /\ (forall e, In e (elements_of l) -> In (ListenerAdded e (event opts')) tr1)
    /\ unbind (Collection l) path attribute st1
       = Ok tt st2 (map (fun e => ListenerRemoved e (event opts')) (elements_of l))
    /\ bound st2 path attribute' = bound st path attribute'
    /\ data st2 = data st /\ observables st2 = observables st.
Proof.
  intros attribute' opts' _ _ Hnd Hfree.
  assert (Hbind : forall l st,
            exists st' tr,
              bind_each l path attribute opts st = Ok tt st' tr
              /\ bound st' path attribute'
                 = bound st path attribute'
                   ++ map (fun e => mkBinding e opts') (elements_of l)
              /\ (forall e, In e (elements_of l) ->
                    In (ListenerAdded e (event opts')) tr)
              /\ data st' = data st /\ observables st' = observables st
              /\ (elements_of l = [] -> st' = st)).
  { clear. induction l as [|[e|] l IH]; intros st.
    - exists st, []. cbn. rewrite app_nil_r. now repeat split.
    - destruct (bound_after_bind e path attribute opts st)
        as (st1 & tr1 & E1 & Hb1 & Hl1 & Hd1 & Ho1 & _).
      destruct (IH st1) as (st' & tr & E & Hb & Hl & Hd & Ho & _).
      exists st', (tr1 ++ tr). cbn [bind_each].
      rewrite (mbind_ok _ _ _ _ _ _ E1), E. cbn [after].
      split; [reflexivity|]. split; [|split; [|split; [|split; [congruence|]]]].
      + rewrite Hb. fold attribute' opts' in Hb1. rewrite Hb1.
        cbn [elements_of flat_map app map]. now rewrite <- app_assoc.
      + intros x [<-|Hx]; apply in_or_app; [left; exact Hl1|right; now apply Hl].
      + congruence.
      + discriminate.
    - destruct (IH st) as (st' & tr & E & H).
      exists st', tr. cbn [bind_each]. now split. }
  destruct (Hbind l st) as (st1 & tr1 & E1 & Hb1 & Hl1 & Hd1 & Ho1 & Hsame).
  destruct (unbind_each_bound path attribute opts' l st1 (bound st path attribute')
              Hb1 Hnd Hfree) as (st2 & tr2 & E2 & Hb2 & Ht2 & Hd2 & Ho2).
  destruct (assoc path (bindings st1)) as [attrs|] eqn:Ea.
  - exists st1, tr1, st2. split; [exact E1|]. split; [exact Hl1|].
    split; [|split; [exact Hb2|split; congruence]].
    unfold unbind. rewrite Ea, E2. now rewrite Ht2.
  - assert (Hnil : elements_of l = []).
    { unfold bound in Hb1 at 1. rewrite Ea in Hb1.
      symmetry in Hb1. apply app_eq_nil in Hb1 as [_ Hb1].
      now apply map_eq_nil in Hb1. }
    exists st1, tr1, st1. split; [exact E1|]. split; [exact Hl1|].
    rewrite Hnil. cbn [map]. rewrite (Hsame Hnil). rewrite (Hsame Hnil) in Ea.
    split; [unfold unbind; now rewrite Ea|now repeat split].
Qed.

Lemma bind_then_unbind_a_collection_witness :
  let st := mkState (VObj 0 [("a", VNum 1)])
              [("a", [("value", [mkBinding 5 (mkOptions "change" true)])])] [] 1 in
  exists st1 tr1 st2,
    bind_any (Collection [Some 7; None; Some 8]) "a" "" None st = Ok tt st1 tr1
    /\ unbind (Collection [Some 7; None; Some 8]) "a" "" st1
       = Ok tt st2 [ListenerRemoved 7 "change"; ListenerRemoved 8 "change"]
    /\ bound st2 "a" "value" = [mkBinding 5 (mkOptions "change" true)].
Proof.
  intros st.
  destruct (bind_then_unbind_a_collection st [Some 7; None; Some 8] "a" "" None
              eq_refl eq_refl)
    as (st1 & tr1 & st2 & E1 & _ & E2 & Hb & _).
  - repeat constructor; cbn; intuition discriminate.
  - intros x [<-|[]]. cbn. intuition discriminate.
  - exists st1, tr1, st2. split; [exact E1|]. split; [exact E2|exact Hb].
Defined.

(* ================================================================== *)
(** ** Registering and unregistering observers *)
(* ================================================================== *)

Lemma max_observers_assoc_set (k : string) (l : list observer) obs :
  max_observers (assoc_set k l obs) <= Nat.max (List.length l) (max_observers obs).
Proof.
  induction obs as [|[k' l'] obs IH].
  - cbn [assoc_set]. rewrite max_observers_cons. unfold max_observers at 1. cbn. lia.
  - cbn [assoc_set]. destruct (k' =? k); rewrite !max_observers_cons; lia.
Qed.

Lemma observe_outcome (path : option string) (cb : cbid) (ctx : option nat)
  (st : state) :
  let k := obs_key (normalize path) in
  let l := match assoc k (observables st) with Some l => l | None => [] end in
  observe path cb ctx st
  = Ok tt (with_observables
             (assoc_set k (l ++ [mkObserver cb ctx]) (observables st)) st) [].
Proof. reflexivity. Qed.

(** X20.  [observe] adds the observer at the end of the list of its
    path: a notification for the path calls the observers registered
    before it first, in their order, then the new one with its own
    context; the observers of the other paths are as they were.  The
    path is no name of an inherited member. *)
Theorem observe_registers_last (fuel : nat) (st : state) (path : option string)
  (cb : cbid) (ctx : option nat) (V : value) (cp : string) (A : action)
  (el : option elem) :
  own_name (obs_key (normalize path)) = true ->
  max_observers (observables st) + 1 < fuel ->
  let p := normalize path in
  exists st',
    observe path cb ctx st = Ok tt st' []
    /\ notifyObserversForPath opaque fuel p V cp A el st'
       = Ok tt st'
           (observer_calls (observables st) p V cp A el
            ++ [Notified cb (mkNotification p A cp V el ctx)])
    /\ (forall k, k <> obs_key p ->
          assoc k (observables st') = assoc k (observables st))
    /\ data st' = data st /\ bindings st' = bindings st.
Proof.
  intros _ Hf p. eexists. split; [apply observe_outcome|].
  cbv zeta. fold p. split; [|split; [|split; reflexivity]].
  - rewrite notifyObserversForPath_opaque.
    + f_equal. unfold observer_calls. cbn [with_observables observables].
      rewrite assoc_set_same.
      destruct (assoc (obs_key p) (observables st)) as [l|];
        now rewrite map_app.
    + cbn [with_observables observables].
      pose proof (max_observers_assoc_set (obs_key p)
                    (match assoc (obs_key p) (observables st) with
                     | Some l => l
                     | None => []
                     end ++ [mkObserver cb ctx]) (observables st)) as Hm.
      rewrite length_app in Hm. cbn [List.length] in Hm.
      assert (Hl : List.length match assoc (obs_key p) (observables st) with
                               | Some l => l
                               | None => []
                               end <= max_observers (observables st)).
      { destruct (assoc (obs_key p) (observables st)) as [l|] eqn:E; [|cbn; lia].
        eapply max_observers_bound. exact E. }
      lia.
  - intros k Hk. cbn [with_observables observables].
    now apply assoc_set_other.
Qed.

Lemma observe_registers_last_witness :
  let st := mkState (VObj 0 [("a", VNum 1)]) []
              [("a", [mkObserver 1 None])] 1 in
  exists st',
    observe (Some "a") 2 (Some 9) st = Ok tt st' []
    /\ notifyObserversForPath opaque 3 (Some "a") (VNum 1) "a" Update None st'
       = Ok tt st'
           [Notified 1 (mkNotification (Some "a") Update "a" (VNum 1) None None);
            Notified 2 (mkNotification (Some "a") Update "a" (VNum 1) None
                          (Some 9))].
Proof.
  intros st.
  destruct (observe_registers_last 3 st (Some "a") 2 (Some 9) (VNum 1) "a"
              Update None eq_refl ltac:(vm_compute; lia)) as (st' & E & En & _).
  exists st'. split; [exact E|exact En].
Defined.

(** X21.  [observe] turns an empty path into [null] and stores the
    observers of the whole document under the name [null]; [unobserve]
    does not: [unobserve("")] leaves the observer that [observe("", ...)]
    registered, which [unobserve(null)] and [unobserve("null")] remove. *)
Theorem unobserve_of_the_empty_path_keeps_root_observers (st : state)
  (cb : cbid) (ctx : option nat) :
  let l := match assoc "null" (observables st) with Some l => l | None => [] end in
  exists st1 st2 st3 st4,
    observe (Some "") cb ctx st = Ok tt st1 []
    /\ observe None cb ctx st = Ok tt st1 []
    /\ assoc "null" (observables st1) = Some (l ++ [mkObserver cb ctx])
    /\ unobserve (Some "") st1 = Ok tt st2 []
    /\ assoc "null" (observables st2) = Some (l ++ [mkObserver cb ctx])
    /\ unobserve None st1 = Ok tt st3 []
    /\ assoc "null" (observables st3) = Some []
    /\ unobserve (Some "null") st1 = Ok tt st4 []
    /\ assoc "null" (observables st4) = Some [].
Proof.
  intros l. do 4 eexists.
  split; [reflexivity|]. split; [reflexivity|].
  cbn [normalize String.eqb obs_key with_observables observables].
  split; [apply assoc_set_same|].
  split; [reflexivity|]. cbn [with_observables observables obs_key].
  split; [|split; [reflexivity|split; [|split; [reflexivity|]]]].
  - rewrite unobserve_in_other by discriminate. apply assoc_set_same.
  - cbn [with_observables observables obs_key]. unfold unobserve_in.
    rewrite assoc_set_same. apply assoc_set_same.
  - cbn [with_observables observables obs_key]. unfold unobserve_in.
    rewrite assoc_set_same. apply assoc_set_same.
Qed.

(** *** An observer that registers itself again *)

Lemma observer_eta (o : observer) : mkObserver (callback o) (context o) = o.
Proof. now destruct o. Qed.

Lemma observers_loop_grows
  (program : cbid -> notification -> list command) (fuel depth : nat)
  (path : option string) (note : observer -> notification) (l : list observer) :
  normalize path = path ->
  (forall o n, In o l ->
     program (callback o) n = [CallObserve path (callback o) (context o)]) ->
  forall n i st cur,
  assoc (obs_key path) (observables st) = Some cur ->
  i < List.length cur ->
  (forall x, In x cur -> In x l) ->
  observers_loop (reentrant program fuel (S depth)) n (obs_key path) i note st
  = OutOfFuel.
Proof.
  intros Hnorm Hprog. induction n as [|n IH]; intros i st cur Ha Hi Hcur;
    [reflexivity|].
  cbn [observers_loop]. rewrite Ha.
  destruct (nth_error cur i) as [o|] eqn:Eo;
    [|apply nth_error_None in Eo; lia].
  assert (Hin : In o l) by (apply Hcur; eapply nth_error_In; exact Eo).
  assert (Einv : reentrant program fuel (S depth) o (note o) st
                 = Ok tt (with_observables
                            (assoc_set (obs_key path) (cur ++ [o]) (observables st))
                            st)
                     [Notified (callback o) (note o)]).
  { cbn [reentrant]. rewrite (Hprog o (note o) Hin).
    cbn [exec_all exec]. unfold mbind, emit, mret. rewrite observe_outcome.
    cbv zeta. rewrite Hnorm, Ha, observer_eta. reflexivity. }
  rewrite (mbind_ok _ _ _ _ _ _ Einv).
  rewrite (IH (S i) _ (cur ++ [o])); [reflexivity| | |].
  - cbn [with_observables observables]. apply assoc_set_same.
  - rewrite length_app. cbn [List.length]. lia.
  - intros x Hx. apply in_app_or in Hx as [Hx|[<-|[]]]; auto.
Qed.

(** X22.  The loop over the observers of a path reads the live list:
    when each observer of the path registers itself again for that path
    whenever it is called, the list grows as fast as the loop advances
    and the notification never returns, whatever the bound on the turns
    of the loop. *)
Theorem self_registering_observer_never_returns
  (program : cbid -> notification -> list command) (fuel depth : nat)
  (st : state) (path : option string) (V : value) (cp : string) (A : action)
  (el : option elem) (l : list observer) :
  normalize path = path ->
  assoc (obs_key path) (observables st) = Some l ->
  l <> [] ->
  (forall o n, In o l ->
     program (callback o) n = [CallObserve path (callback o) (context o)]) ->
  forall turns,
  notifyObserversForPath (reentrant program fuel (S depth)) turns path V cp A el st
  = OutOfFuel.
Proof.
  intros Hnorm Ha Hl Hprog turns. unfold notifyObserversForPath. rewrite Ha.
  apply (observers_loop_grows program fuel depth path _ l Hnorm Hprog turns 0 st l
           Ha); [|auto].
  destruct l; [congruence|cbn; lia].
Qed.

Lemma self_registering_observer_never_returns_witness :
  let program := fun (cb : cbid) (_ : notification) =>
                   [CallObserve (Some "a") cb None] in
  let st := mkState (VObj 0 [("a", VNum 1)]) [] [("a", [mkObserver 1 None])] 1 in
  notifyObserversForPath (reentrant program 1 1) 1000 (Some "a") (VNum 1) "a"
    Update None st
  = OutOfFuel.
Proof.
  intros program st.
  refine (self_registering_observer_never_returns program 1 0 st (Some "a")
            (VNum 1) "a" Update None [mkObserver 1 None] eq_refl eq_refl
            ltac:(intro H; discriminate H) _ 1000).
  intros o n [<-|[]]. reflexivity.
Defined.

(* ================================================================== *)
(** ** An observer that writes while it is notified *)
(* ================================================================== *)

(** [set] of another value, whatever the observers do: the value is
    written where the walk arrives, then notified. *)
Lemma set_then_notify (invoke : observer -> notification -> M unit)
  (fuel : nat) (path : string) (V : value) (el : option elem) (st : state)
  c nxt old prev' :
  strict_eq (get_in (data st) path false) V = false ->
  descend (data st) (removelast (split path)) (next_ref st) [] = Reached c nxt ->
  prop_get (focus c) (fst (set_target (focus c) path (last (split path) "")))
  = Some old ->
  prop_set (focus c) (fst (set_target (focus c) path (last (split path) ""))) V
  = Written prev' ->
  set invoke fuel path V el st
  = (notify invoke fuel (snd (set_target (focus c) path (last (split path) ""))) V
       (if is_undefined old then Create else Update) el ;;
     mret (Some (snd (set_target (focus c) path (last (split path) "")))))
      (mkState (plug prev' (frames c)) (bindings st) (observables st) nxt).
Proof.
  intros Hne Hd Hg Hs. unfold set.
  rewrite (mbind_ok _ _ st (get_in (data st) path false) st []) by reflexivity.
  rewrite after_nil, Hne.
  rewrite (mbind_ok _ _ _ _ _ _ (walk_reached path st c nxt Hd)).
  rewrite after_nil. cbn [fst snd]. rewrite Hg, Hs. cbn [write].
  erewrite mbind_ok by reflexivity. now rewrite after_nil.
Qed.

(** A notification for a member of the root when nobody observes the
    whole document: the bindings, then the observers of the member. *)
Lemma notify_member (invoke : observer -> notification -> M unit) (fuel : nat)
  (a : string) (V : value) (act : action) (el : option elem) (st st' : state)
  (l : list observer) (tr : trace) :
  no_dot a = true ->
  assoc a (observables st) = Some l ->
  observers_loop invoke fuel a 0
    (fun o => mkNotification (Some a) act a V el (context o)) st
  = Ok tt st' tr ->
  assoc "null" (observables st') = None ->
  notify invoke fuel a V act el st
  = Ok tt st'
      ((updateBoundElementsForPath (bindings st) a V
        ++ updateBoundElementsAtPath (bindings st) a V) ++ tr).
Proof.
  intros Ha Hl Hloop Hnull. unfold notify.
  erewrite mbind_ok by reflexivity.
  erewrite (mbind_ok (emit_of _)) by reflexivity.
  erewrite (mbind_ok (read _)) by reflexivity.
  rewrite Hl, after_nil.
  assert (Ef : notifyObserversForPath invoke fuel (Some a) V a act el st
               = Ok tt st' tr).
  { unfold notifyObserversForPath. cbn [obs_key]. now rewrite Hl. }
  rewrite (mbind_ok _ _ _ _ _ _ Ef).
  unfold notifyObserversFromPath.
  destruct (parent_of_member a Ha) as (_ & Hr & _). rewrite Hr. cbn [rev ancestors_loop].
  erewrite mbind_ok by reflexivity.
  erewrite (mbind_ok (get _)) by reflexivity.
  unfold notifyObserversForPath. cbn [obs_key]. rewrite Hnull.
  cbn [after]. now rewrite !app_nil_r, app_assoc.
Qed.

Section WritingObserver.

Variable program : cbid -> notification -> list command.
Variables (fuel depth : nat).
Variables (a : string) (V W : value) (o1 o2 : observer).

Hypothesis a_member : no_dot a = true.
Hypothesis a_not_empty : a <> "".
Hypothesis a_not_null : a <> "null".
Hypothesis o1_writes : forall n, program (callback o1) n = [CallSet a W].
Hypothesis o2_silent : forall n, program (callback o2) n = [].
Hypothesis W_not_V : strict_eq V W = false.
Hypothesis W_is_W : strict_eq W W = true.
Hypothesis V_defined : V <> VUndefined.
Hypothesis W_defined : W <> VUndefined.

Lemma get_member_set (r : ref) (fields : list (string * value)) (X : value) :
  X <> VUndefined ->
  get_in (VObj r (assoc_set a X fields)) a false = X.
Proof.
  intros HX. rewrite get_in_member by assumption. unfold get_step.
  cbn [truthy prop_get key_string]. rewrite assoc_set_same. cbn.
  destruct X; try reflexivity. congruence.
Qed.

(** The round of notifications that the write of [o1] starts. *)
Lemma inner_round (st : state) (r : ref) (fields : list (string * value)) :
  data st = VObj r (assoc_set a V fields) ->
  observables st = [(a, [o1; o2])] ->
  3 <= fuel ->
  let st2 := mkState (VObj r (assoc_set a W fields)) (bindings st)
               (observables st) (next_ref st) in
  set (reentrant program fuel (S depth)) fuel a W None st
  = Ok (Some a) st2
      ((updateBoundElementsForPath (bindings st) a W
        ++ updateBoundElementsAtPath (bindings st) a W)
       ++ [Notified (callback o1)
             (mkNotification (Some a) Update a W None (context o1));
           Notified (callback o2)
             (mkNotification (Some a) Update a W None (context o2))]).
Proof.
  intros Hdata Hobs Hfuel st2.
  destruct (parent_of_member a a_member) as (_ & Hr & Hl).
  assert (Hg : get_in (data st) a false = V)
    by (rewrite Hdata; now apply get_member_set).
  rewrite (set_then_notify _ fuel a W None st (mkCursor (data st) [])
             (next_ref st) V (VObj r (assoc_set a W fields)));
    [|now rewrite Hg|now rewrite Hr
     |rewrite Hl, Hdata; cbn [focus set_target fst prop_get key_string];
      now rewrite assoc_set_same
     |rewrite Hl, Hdata; cbn [focus set_target fst prop_set key_string];
      now rewrite assoc_set_twice].
  rewrite Hl, Hdata. cbn [focus frames set_target snd plug fold_left].
  replace (is_undefined V) with false by (destruct V; congruence || reflexivity).
  fold st2.
  assert (Hloop : observers_loop (reentrant program fuel (S depth)) fuel a 0
                    (fun o => mkNotification (Some a) Update a W None (context o))
                    st2
                  = Ok tt st2
                      [Notified (callback o1)
                         (mkNotification (Some a) Update a W None (context o1));
                       Notified (callback o2)
                         (mkNotification (Some a) Update a W None (context o2))]).
  { destruct fuel as [|[|[|f]]]; try lia.
    cbn [observers_loop]. unfold st2 at 1. cbn [observables]. rewrite Hobs.
    cbn [assoc]. rewrite String.eqb_refl. cbn [nth_error].
    assert (E1 : forall n, reentrant program (S (S (S f))) (S depth) o1 n st2
                           = Ok tt st2 [Notified (callback o1) n]).
    { intros n. cbn [reentrant]. rewrite o1_writes. cbn [exec_all exec].
      assert (Es : set (reentrant program (S (S (S f))) depth) (S (S (S f))) a W
                     None st2 = Ok None st2 []).
      { unfold set. erewrite mbind_ok by reflexivity. rewrite after_nil.
        unfold st2 at 1. cbn [data]. rewrite get_member_set by exact W_defined.
        now rewrite W_is_W. }
      erewrite mbind_ok by reflexivity.
      erewrite mbind_ok by (erewrite mbind_ok by exact Es; reflexivity).
      reflexivity. }
    rewrite (mbind_ok _ _ _ _ _ _ (E1 _)).
    cbn [observers_loop]. unfold st2 at 1. cbn [observables]. rewrite Hobs.
    cbn [assoc]. rewrite String.eqb_refl. cbn [nth_error].
    assert (E2 : forall n, reentrant program (S (S (S f))) (S depth) o2 n st2
                           = Ok tt st2 [Notified (callback o2) n]).
    { intros n. cbn [reentrant]. now rewrite o2_silent. }
    rewrite (mbind_ok _ _ _ _ _ _ (E2 _)).
    cbn [observers_loop]. unfold st2 at 1. cbn [observables]. rewrite Hobs.
    cbn [assoc]. rewrite String.eqb_refl. reflexivity. }
  rewrite (mbind_ok _ _ _ _ _ _
             (notify_member _ fuel a W Update None st2 st2 [o1; o2] _ a_member
                ltac:(unfold st2; cbn [observables]; rewrite Hobs; cbn [assoc];
                      now rewrite String.eqb_refl)
                Hloop
                ltac:(unfold st2; cbn [observables]; rewrite Hobs; cbn [assoc];
                      apply String.eqb_neq in a_not_null;
                      now rewrite a_not_null))).
  cbn [after mret]. now rewrite app_nil_r.
Qed.

(** X28.  An observer that calls [set] for the path it is being notified
    of starts a complete round of notifications inside the one under way,
    and the round under way then goes on with the value it started with:
    when [o1] writes [W] on every call and [o2] is registered after it,
    [set(a, V)] tells [o2] the value [W] first and [V] last, although the
    document ends up holding [W]. *)
Theorem write_during_notification_leaves_a_stale_value (st : state)
  (el : option elem) (r : ref) (fields : list (string * value)) :
  data st = VObj r fields ->
  observables st = [(a, [o1; o2])] ->
  strict_eq (get_in (data st) a false) V = false ->
  3 <= fuel ->
  let act := if is_undefined (get_in (data st) a true) then Create else Update in
  exists st' before,
    set (reentrant program fuel (S (S depth))) fuel a V el st
    = Ok (Some a) st'
        (before
         ++ [Notified (callback o2)
               (mkNotification (Some a) act a V el (context o2))])
    /\ In (Notified (callback o2)
             (mkNotification (Some a) Update a W None (context o2))) before
    /\ get_in (data st') a false = W.
Proof.
  intros Hdata Hobs Hneq Hfuel act.
  destruct (parent_of_member a a_member) as (_ & Hr & Hl).
  set (st1 := mkState (VObj r (assoc_set a V fields)) (bindings st)
                (observables st) (next_ref st)).
  set (st2 := mkState (VObj r (assoc_set a W fields)) (bindings st)
                (observables st) (next_ref st)).
  assert (Hact : (if is_undefined (undefined_if_none (assoc a fields))
                  then Create else Update) = act).
  { unfold act. rewrite Hdata. unfold get_in.
    apply String.eqb_neq in a_not_empty. rewrite a_not_empty.
    rewrite split_no_dot by exact a_member. cbn [fold_left]. unfold get_step.
    cbn [truthy prop_get key_string].
    now destruct (undefined_if_none (assoc a fields)). }
  rewrite (set_then_notify _ fuel a V el st (mkCursor (data st) [])
             (next_ref st) (undefined_if_none (assoc a fields))
             (VObj r (assoc_set a V fields)) Hneq);
    [|now rewrite Hr|now rewrite Hl, Hdata|now rewrite Hl, Hdata].
  rewrite Hl, Hdata. cbn [focus frames set_target snd plug fold_left].
  rewrite Hact. fold st1.
  pose proof (inner_round st1 r fields eq_refl Hobs Hfuel) as Einner.
  cbv zeta in Einner. cbn [bindings observables next_ref st1] in Einner.
  fold st2 in Einner.
  set (inner := (updateBoundElementsForPath (bindings st) a W
                 ++ updateBoundElementsAtPath (bindings st) a W)
                ++ [Notified (callback o1)
                      (mkNotification (Some a) Update a W None (context o1));
                    Notified (callback o2)
                      (mkNotification (Some a) Update a W None (context o2))])
    in *.
  assert (Hloop : observers_loop (reentrant program fuel (S (S depth))) fuel a 0
                    (fun o => mkNotification (Some a) act a V el (context o)) st1
                  = Ok tt st2
                      ((Notified (callback o1)
                          (mkNotification (Some a) act a V el (context o1))
                        :: inner)
                       ++ [Notified (callback o2)
                             (mkNotification (Some a) act a V el (context o2))])).
  { clear Hneq Hact. revert Einner. generalize inner. intros inner' Einner.
    destruct fuel as [|[|[|f]]]; try lia.
    cbn [observers_loop]. unfold st1 at 1. cbn [observables]. rewrite Hobs.
    cbn [assoc]. rewrite String.eqb_refl. cbn [nth_error].
    assert (E1 : forall n, reentrant program (S (S (S f))) (S (S depth)) o1 n st1
                           = Ok tt st2 (Notified (callback o1) n :: inner')).
    { intros n. cbn [reentrant]. rewrite o1_writes. cbn [exec_all exec].
      erewrite mbind_ok by reflexivity.
      erewrite mbind_ok by (erewrite mbind_ok by exact Einner; reflexivity).
      cbn [after mret app]. now rewrite !app_nil_r. }
    rewrite (mbind_ok _ _ _ _ _ _ (E1 _)).
    cbn [observers_loop]. unfold st2 at 1. cbn [observables]. rewrite Hobs.
    cbn [assoc]. rewrite String.eqb_refl. cbn [nth_error].
    assert (E2 : forall n, reentrant program (S (S (S f))) (S (S depth)) o2 n st2
                           = Ok tt st2 [Notified (callback o2) n]).
    { intros n. cbn [reentrant]. now rewrite o2_silent. }
    rewrite (mbind_ok _ _ _ _ _ _ (E2 _)).
    cbn [observers_loop]. unfold st2 at 1. cbn [observables]. rewrite Hobs.
    cbn [assoc]. rewrite String.eqb_refl. cbn [nth_error after].
    now rewrite app_nil_r. }
  rewrite (mbind_ok _ _ _ _ _ _
             (notify_member _ fuel a V act el st1 st2 [o1; o2] _ a_member
                ltac:(unfold st1; cbn [observables]; rewrite Hobs; cbn [assoc];
                      now rewrite String.eqb_refl)
                Hloop
                ltac:(unfold st2; cbn [observables]; rewrite Hobs; cbn [assoc];
                      apply String.eqb_neq in a_not_null;
                      now rewrite a_not_null))).
  cbn [after mret]. rewrite app_nil_r.
  exists st2. eexists. split; [|split].
  - rewrite !app_assoc. reflexivity.
  - apply in_or_app. right. right. unfold inner.
    apply in_or_app. right. right. now left.
  - unfold st2. cbn [data]. now apply get_member_set.
Qed.

End WritingObserver.

Lemma write_during_notification_leaves_a_stale_value_witness :
  let program := fun (cb : cbid) (_ : notification) =>
                   if Nat.eqb cb 1 then [CallSet "a" (VNum 2)] else [] in
  let st := mkState (VObj 0 [("a", VNum 0)]) []
              [("a", [mkObserver 1 None; mkObserver 2 None])] 1 in
  exists st',
    set (reentrant program 3 2) 3 "a" (VNum 1) None st
    = Ok (Some "a") st'
        [Notified 1 (mkNotification (Some "a") Update "a" (VNum 1) None None);
         Notified 1 (mkNotification (Some "a") Update "a" (VNum 2) None None);
         Notified 2 (mkNotification (Some "a") Update "a" (VNum 2) None None);
         Notified 2 (mkNotification (Some "a") Update "a" (VNum 1) None None)]
    /\ get_in (data st') "a" false = VNum 2.
Proof.
  intros program st.
  destruct (write_during_notification_leaves_a_stale_value program 3 0 "a"
              (VNum 1) (VNum 2) (mkObserver 1 None) (mkObserver 2 None)
              eq_refl ltac:(intro H; discriminate H)
              ltac:(intro H; discriminate H)
              ltac:(intro n; reflexivity) ltac:(intro n; reflexivity)
              eq_refl eq_refl ltac:(intro H; discriminate H)
              ltac:(intro H; discriminate H)
              st None 0 [("a", VNum 0)] eq_refl eq_refl eq_refl
              ltac:(vm_compute; lia))
    as (st' & before & E & _ & Hg).
  exists st'. split; [|exact Hg].
  vm_compute in E. injection E as <- _. reflexivity.
Defined.
